(** * txtify-clone: a shallow embedding of the web content extractor

    The repository holds three variants of one Streamlit tool
    ([streamlit.py], [streamlitV2.py], [streamlitV3.py]).  This file embeds
    the text stripper [clean_text], the remote cleanup call
    [clean_with_genai], the two page pipelines ([extract_content] and
    [extract_content_with_agent]), link discovery ([find_linked_pages]),
    the batch driver of [main] and the download file name, and proves the
    properties the specification states about them, and further properties
    the code shows.

    Python strings are sequences of Unicode code points, so a string is a
    list of code points here and [len] is the list's length.

    What lies outside the repository is a parameter: the Unicode tables of
    the runtime outside ASCII, [urljoin] and [urlparse], and the services of
    a [world] (the web, the browser agent, the generative endpoint), each of
    which answers as a function of the request.  An effectful function
    returns the events it caused together with its value or the exception
    it raised; [asyncio.gather] starts every task, and here the tasks run
    to their end one after another, in list order.
    [streamlitV2.py] has the [clean_text] and the file name of
    [streamlitV3.py] and the [clean_with_genai] of [streamlit.py]; its agent
    pipeline (that of [streamlitV3.py] without the rate-limit clauses, with
    a menu item to click on) and its menu navigation are in module [V2]. *)

From Stdlib Require Import List NArith ZArith Bool Lia String Ascii Arith.
Import ListNotations.

Set Implicit Arguments.
Set Warnings "-register-all".
Local Open Scope N_scope.

(** ** Strings *)

Definition char := N.
Definition str := list char.

(** An ASCII literal as a Python string. *)
Definition py (s : string) : str := map N_of_ascii (list_ascii_of_string s).

Definition LF : char := 10.
Definition SPACE : char := 32.

Fixpoint str_eqb (a b : str) : bool :=
  match a, b with
  | [], [] => true
  | x :: a', y :: b' => (x =? y) && str_eqb a' b'
  | _, _ => false
  end.

Definition len (s : str) : nat := List.length s.

(** [Py_UNICODE_ISSPACE]: the characters [str.strip()] removes and the
    class [\s] of a [str] pattern matches. *)
Definition is_space (c : char) : bool :=
  ((0x09 <=? c) && (c <=? 0x0D)) || ((0x1C <=? c) && (c <=? 0x20))
  || (c =? 0x85) || (c =? 0xA0) || (c =? 0x1680)
  || ((0x2000 <=? c) && (c <=? 0x200A))
  || (c =? 0x2028) || (c =? 0x2029) || (c =? 0x202F) || (c =? 0x205F)
  || (c =? 0x3000).

(** Drop the leading characters that satisfy [p]. *)
Fixpoint lstrip_by (p : char -> bool) (s : str) : str :=
  match s with
  | [] => []
  | c :: s' => if p c then lstrip_by p s' else s
  end.

Definition rstrip_by (p : char -> bool) (s : str) : str :=
  rev (lstrip_by p (rev s)).

Definition strip_by (p : char -> bool) (s : str) : str :=
  rstrip_by p (lstrip_by p s).

Definition lstrip : str -> str := lstrip_by is_space.
Definition rstrip : str -> str := rstrip_by is_space.

(** [s.strip()] *)
Definition strip : str -> str := strip_by is_space.

(** [s.strip(c)] for a one-character argument *)
Definition strip_char (c : char) : str -> str := strip_by (N.eqb c).

Fixpoint starts_with (p s : str) : bool :=
  match p, s with
  | [], _ => true
  | x :: p', y :: s' => (x =? y) && starts_with p' s'
  | _ :: _, [] => false
  end.

(** [needle in s] *)
Fixpoint contains (needle s : str) : bool :=
  starts_with needle s ||
  match s with
  | [] => false
  | _ :: s' => contains needle s'
  end.

(** [s.split(sep)] for a non-empty separator: [skip] counts the characters
    of a separator already recognised that are still to be passed over, [cur]
    is the current field, reversed. *)
Fixpoint split_go (sep : str) (skip : nat) (cur : str) (s : str) : list str :=
  match s with
  | [] => [rev cur]
  | c :: s' =>
      match skip with
      | S k => split_go sep k cur s'
      | O =>
          if starts_with sep s
          then rev cur :: split_go sep (Nat.pred (List.length sep)) [] s'
          else split_go sep O (c :: cur) s'
      end
  end.

Definition split (sep s : str) : list str := split_go sep O [] s.

(** [sep.join(parts)] *)
Fixpoint join (sep : str) (parts : list str) : str :=
  match parts with
  | [] => []
  | [p] => p
  | p :: rest => p ++ sep ++ join sep rest
  end.

(** [s.replace(a, b)] for a one-character [a]. *)
Definition replace_char (a : char) (b : str) (s : str) : str :=
  flat_map (fun c => if c =? a then b else [c]) s.

(** The value of [s or d]. *)
Definition or_else (s d : str) : str :=
  match s with [] => d | _ :: _ => s end.

(** A Python string is true when it is not empty. *)
Definition truthy (s : str) : bool :=
  match s with [] => false | _ :: _ => true end.

(** ** Regular expressions

    The fragment of Python's [re] the sources use, with its backtracking
    semantics: alternatives are tried left to right, [*] is greedy, and
    [^] and [$] are the [re.MULTILINE] anchors. *)

Module Re.

Inductive re : Type :=
| Eps
| Cls (p : char -> bool)
| Cat (a b : re)
| Alt (a b : re)
| Star (a : re)
| Bol
| Eol.

Definition Plus (a : re) : re := Cat a (Star a).

Fixpoint Lit (s : str) : re :=
  match s with
  | [] => Eps
  | c :: s' => Cat (Cls (N.eqb c)) (Lit s')
  end.

(** [.] without [re.DOTALL] *)
Definition Dot : re := Cls (fun c => negb (c =? LF)).

Section Exec.
Variable A : Type.

(** The loop of a greedy [*]: [step] matches the body once; the body is
    tried first, then the rest of the pattern [k].  An iteration that
    consumes nothing is refused, so the loop ends. *)
Fixpoint star_loop
    (step : option char -> str -> (option char -> str -> option A) -> option A)
    (k : option char -> str -> option A)
    (fuel : nat) (prev : option char) (s : str) {struct fuel} : option A :=
  match fuel with
  | O => k prev s
  | S f =>
      match step prev s
              (fun p' s' =>
                 if (List.length s' <? List.length s)%nat
                 then star_loop step k f p' s' else None) with
      | Some x => Some x
      | None => k prev s
      end
  end.

(** [exec r prev s k]: match [r] at the position whose preceding character
    is [prev] and whose remaining input is [s]; [k] is the rest of the
    match, and a [None] from [k] makes the matcher backtrack. *)
Fixpoint exec (r : re) (prev : option char) (s : str)
    (k : option char -> str -> option A) {struct r} : option A :=
  match r with
  | Eps => k prev s
  | Cls p =>
      match s with
      | c :: s' => if p c then k (Some c) s' else None
      | [] => None
      end
  | Cat a b => exec a prev s (fun p' s' => exec b p' s' k)
  | Alt a b =>
      match exec a prev s k with
      | Some x => Some x
      | None => exec b prev s k
      end
  | Star a => star_loop (exec a) k (List.length s) prev s
  | Bol =>
      match prev with
      | None => k prev s
      | Some c => if c =? LF then k prev s else None
      end
  | Eol =>
      match s with
      | [] => k prev s
      | c :: _ => if c =? LF then k prev s else None
      end
  end.

End Exec.

(** One attempt of [pattern.match] at a position: the character before
    the end of the match and the input left after it.  [must_advance]
    refuses the empty match, as the engine does right after an empty match
    at the same position. *)
Definition match_at (r : re) (must_advance : bool) (prev : option char)
    (s : str) : option (option char * str) :=
  exec r prev s
    (fun p rest =>
       if must_advance && (List.length rest =? List.length s)%nat
       then None else Some (p, rest)).

(** [re.sub(r, repl, s)] with a constant replacement: scan from the left;
    a match is replaced, a position where nothing matches is copied.  A step
    consumes a character or follows an empty match, so [sub] gives fuel
    enough. *)
Fixpoint sub_go (r : re) (repl : str) (fuel : nat) (adv : bool)
    (prev : option char) (s : str) : str :=
  match fuel with
  | O => s
  | S f =>
      match match_at r adv prev s with
      | Some (p, rest) =>
          repl ++
          (if (List.length rest <? List.length s)%nat
           then sub_go r repl f false p rest
           else sub_go r repl f true prev s)
      | None =>
          match s with
          | [] => []
          | c :: s' => c :: sub_go r repl f false (Some c) s'
          end
      end
  end.

Definition sub (r : re) (repl : str) (s : str) : str :=
  sub_go r repl (2 * List.length s + 2) false None s.

End Re.

(** ** The parsed page

    BeautifulSoup's tree, as the [html.parser] builder leaves it: strings
    and tags; a tag carries its attribute dictionary, here the list of its
    items.  A string is an object of a class: [NavigableString] (or [CData])
    for ordinary text, and another class for a comment and for a string the
    builder met inside [<rt>], [<rp>], [<style>], [<script>] or
    [<template>], which is how [get_text] tells them apart. *)

(** The classes of a string other than [NavigableString] and [CData];
    [Comment] also stands for a declaration, a doctype and a processing
    instruction. *)
Inductive string_class : Type :=
| Comment
| RubyTextString
| RubyParenthesisString
| Stylesheet
| Script
| TemplateString.

Definition class_eqb (a b : string_class) : bool :=
  match a, b with
  | Comment, Comment | RubyTextString, RubyTextString
  | RubyParenthesisString, RubyParenthesisString
  | Stylesheet, Stylesheet | Script, Script
  | TemplateString, TemplateString => true
  | _, _ => false
  end.

(** [Text] is a string of ordinary text, [Special] a string that carries
    another class, [Elem] a tag. *)
Inductive node : Type :=
| Text (s : str)
| Special (cls : string_class) (s : str)
| Elem (name : str) (attrs : list (str * str)) (children : list node).

(** The [BeautifulSoup] object: the top-level nodes of the document. *)
Definition soup := list node.

(** The nodes below [n], in document order. *)
Fixpoint descendants (n : node) : list node :=
  match n with
  | Text _ | Special _ _ => []
  | Elem _ _ cs => flat_map (fun c => c :: descendants c) cs
  end.

Definition all_nodes (page : soup) : list node :=
  flat_map (fun c => c :: descendants c) page.

Definition has_name (nm : str) (n : node) : bool :=
  match n with
  | Text _ | Special _ _ => false
  | Elem nm' _ _ => str_eqb nm' nm
  end.

(** [tag.get(key)] *)
Fixpoint get_attr (key : str) (attrs : list (str * str)) : option str :=
  match attrs with
  | [] => None
  | (k, v) :: rest => if str_eqb k key then Some v else get_attr key rest
  end.

(** [page.find_all(nm)] and [tag.find_all(nm)] *)
Definition find_all (nm : str) (page : soup) : list node :=
  filter (has_name nm) (all_nodes page).

Definition tag_find_all (nm : str) (n : node) : list node :=
  filter (has_name nm) (descendants n).

(** [page.find(nm)]: the first match, or [None]. *)
Definition find (nm : str) (page : soup) : option node :=
  match find_all nm page with
  | [] => None
  | n :: _ => Some n
  end.

(** [builder.string_containers] of an HTML builder: the class the builder
    gives the strings inside a tag of this name. *)
Definition string_containers (nm : str) : option string_class :=
  if str_eqb nm (py "rt") then Some RubyTextString
  else if str_eqb nm (py "rp") then Some RubyParenthesisString
  else if str_eqb nm (py "style") then Some Stylesheet
  else if str_eqb nm (py "script") then Some Script
  else if str_eqb nm (py "template") then Some TemplateString
  else None.

(** [tag.interesting_string_types]: the class of [string_containers] for
    a tag of such a name; otherwise the default, [NavigableString] and
    [CData], which is [None] here. *)
Definition interesting_string_types (n : node) : option string_class :=
  match n with
  | Elem nm _ _ => string_containers nm
  | Text _ | Special _ _ => None
  end.

(** Whether a string of class [cls] is of the [types] asked for; [None]
    is [NavigableString] and [CData] on both sides. *)
Definition of_types (types cls : option string_class) : bool :=
  match types, cls with
  | None, None => true
  | Some a, Some b => class_eqb a b
  | _, _ => false
  end.

(** [tag._all_strings(types=types)]: the strings below the node whose
    class is among [types], in document order.  A [Special] string is of the
    class it carries.  The builder makes the strings inside [<rt>], [<rp>],
    [<style>], [<script>] and [<template>] strings of that tag's class, of
    the innermost such tag: so a [Text] below one of these tags is a string
    of its class, and [cls] is the class in force at the node. *)
Fixpoint all_strings (types cls : option string_class) (n : node)
    : list str :=
  match n with
  | Text s => if of_types types cls then [s] else []
  | Special k s => if of_types types (Some k) then [s] else []
  | Elem nm _ cs =>
      let cls :=
        match string_containers nm with
        | Some k => Some k
        | None => cls
        end in
      flat_map (all_strings types cls) cs
  end.

(** The strings [tag.get_text()] joins: those of the tag's interesting
    types.  On an ordinary tag they leave out the comments and what is
    inside [<rt>], [<rp>], [<style>], [<script>] and [<template>]. *)
Definition strings (n : node) : list str :=
  all_strings (interesting_string_types n) None n.

(** [tag.text] *)
Definition text (n : node) : str := List.concat (strings n).

(** [tag.get_text(separator='\n', strip=True)] *)
Definition get_text_lines (n : node) : str :=
  join [LF] (filter truthy (map strip (strings n))).

(** [[(a.get('href'), a.text.strip()) for a in tag.find_all('a', href=True)]] *)
Definition anchors (n : node) : list (str * str) :=
  flat_map
    (fun a =>
       match a with
       | Elem _ attrs _ =>
           match get_attr (py "href") attrs with
           | Some href => [(href, strip (text a))]
           | None => []
           end
       | Text _ | Special _ _ => []
       end)
    (tag_find_all (py "a") n).

(** The anchors link discovery collects from the [<nav>] elements. *)
Definition nav_anchor_links (page : soup) : list (str * str) :=
  flat_map anchors (find_all (py "nav") page).

(** The fallback of link discovery: the anchors of the first [<header>],
    then those of the first [<footer>]. *)
Definition header_footer_links (page : soup) : list (str * str) :=
  match find (py "header") page with Some h => anchors h | None => [] end
  ++ match find (py "footer") page with Some f => anchors f | None => [] end.

(** Lines 160-173 of [find_linked_pages]: the list [nav_links] when the
    collecting is done. *)
Definition nav_links (page : soup) : list (str * str) :=
  let nav_links := nav_anchor_links page in
  match nav_links with
  | [] => header_footer_links page
  | _ :: _ => nav_links
  end.

(** [for element in soup.find_all(names): element.decompose()]: every tag
    with one of the names leaves the tree, with all below it. *)
Fixpoint decompose_all (names : list str) (n : node) : list node :=
  match n with
  | Text s => [Text s]
  | Special cls s => [Special cls s]
  | Elem nm attrs cs =>
      if existsb (str_eqb nm) names then []
      else [Elem nm attrs (flat_map (decompose_all names) cs)]
  end.

(** Lines 188-189 of [extract_content]. *)
Definition decompose (page : soup) : soup :=
  flat_map
    (decompose_all
       [py "script"; py "style"; py "nav"; py "footer"; py "iframe"])
    page.

(** The whitespace-separated tokens of an attribute value. *)
Fixpoint tokens_go (cur : str) (s : str) : list str :=
  match s with
  | [] => match cur with [] => [] | _ :: _ => [rev cur] end
  | c :: s' =>
      if is_space c
      then match cur with [] => [] | _ :: _ => [rev cur] end ++ tokens_go [] s'
      else tokens_go (c :: cur) s'
  end.

Definition tokens (s : str) : list str := tokens_go [] s.

(** The CSS selectors of [content_selectors]. *)
Inductive selector : Type :=
| ByTag (nm : str)
| ByClass (cls : str)
| ById (id : str).

Definition selects (sel : selector) (n : node) : bool :=
  match n with
  | Text _ | Special _ _ => false
  | Elem nm attrs _ =>
      match sel with
      | ByTag t => str_eqb nm t
      | ByClass c =>
          match get_attr (py "class") attrs with
          | Some v => existsb (str_eqb c) (tokens v)
          | None => false
          end
      | ById i =>
          match get_attr (py "id") attrs with
          | Some v => str_eqb v i
          | None => false
          end
      end
  end.

(** [page.select_one(sel)] *)
Definition select_one (sel : selector) (page : soup) : option node :=
  match filter (selects sel) (all_nodes page) with
  | [] => None
  | n :: _ => Some n
  end.

Definition content_selectors : list selector :=
  [ ByTag (py "main"); ByTag (py "article"); ByClass (py "content");
    ById (py "content"); ByClass (py "post-content");
    ByClass (py "entry-content"); ByTag (py "body") ].

(** ** Exceptions, effects and the outside world *)

(** The exceptions the handlers tell apart; [str(e)] is the message. *)
Inductive exn : Type :=
| RequestException (msg : str)
| ResourceExhausted (msg : str)
| OtherException (msg : str).

Definition exn_str (e : exn) : str :=
  match e with
  | RequestException m | ResourceExhausted m | OtherException m => m
  end.

(** What a run does besides returning: calls of remote services, the
    console, and the messages shown to the user.  [CleanWithGenai] marks a
    call of the cleanup step itself.  Progress-bar and status-line updates
    are not recorded. *)
Inductive event : Type :=
| HttpGet (url : str)
| AgentRun (url : str)
| CleanWithGenai (text : str)
| GenerateContent (prompt : str)
| Printed (msg : str)
| StWarning (msg : str)
| StError (msg : str).

(** A computation: the events it caused and either the exception it
    raised or its value. *)
Definition io (A : Type) : Type := (list event * (exn + A))%type.

Definition ret {A} (a : A) : io A := ([], inr a).
Definition raise {A} (e : exn) : io A := ([], inl e).
Definition emit (ev : event) : io unit := ([ev], inr tt).
Definition lift {A} (r : exn + A) : io A := ([], r).

Definition bind {A B} (m : io A) (f : A -> io B) : io B :=
  match m with
  | (t, inl e) => (t, inl e)
  | (t, inr a) => let (t', r) := f a in (t ++ t', r)
  end.

(** [try: m  except Exception as e: h e] *)
Definition try_except {A} (m : io A) (h : exn -> io A) : io A :=
  match m with
  | (t, inl e) => let (t', r) := h e in (t ++ t', r)
  | (t, inr a) => (t, inr a)
  end.

(** [try: m  finally: f]: an exception of [f] replaces the outcome of [m]. *)
Definition finally {A} (m : io A) (f : io unit) : io A :=
  let (t, r) := m in
  match f with
  | (t', inl e) => (t ++ t', inl e)
  | (t', inr _) => (t ++ t', r)
  end.

Notation "x <- m ;; k" := (bind m (fun x => k))
  (at level 61, m at next level, right associativity).
Notation "m ;;; k" := (bind m (fun _ => k))
  (at level 61, right associativity).

Definition trace {A} (m : io A) : list event := fst m.
Definition outcome {A} (m : io A) : exn + A := snd m.

(** The texts [clean_with_genai] was called on, in order. *)
Fixpoint cleanup_calls (t : list event) : list str :=
  match t with
  | [] => []
  | CleanWithGenai text :: t' => text :: cleanup_calls t'
  | _ :: t' => cleanup_calls t'
  end.

(** What [history.extracted_content()] returned. *)
Inductive extracted : Type :=
| ExtractedList (items : list str)
| ExtractedStr (s : str).

(** How the [finally] block of [extract_content_with_agent] ends: the
    call returns, the attribute lookup fails with [AttributeError] (which
    the block catches), or something else is raised. *)
Inductive shutdown_outcome : Type :=
| ShutdownDone
| ShutdownAttributeError
| ShutdownRaises (e : exn).

(** The services a run talks to.  Each answers as a function of the
    request. *)
Record world : Type := {
  (** [os.environ.get("GEMINI_API_KEY")] *)
  api_key : option str;
  (** [requests.get(url, headers=HEADERS, timeout=10)], then
      [raise_for_status()], then the [html.parser] tree of the body *)
  http_get : str -> exn + soup;
  (** [ChatGoogleGenerativeAI(model=..., api_key=...)] *)
  new_chat_model : exn + unit;
  (** [Agent(task=..., llm=llm, max_actions_per_step=4)], then
      [agent.run(max_steps=25)] and [history.extracted_content()], for the
      task of a URL *)
  agent_run : str -> exn + extracted;
  (** [model.generate_content(prompt)] and its [.text] *)
  generate_content : str -> exn + str;
  (** [from grpc import aio] and [await aio.shutdown_channel()] *)
  shutdown_channel : shutdown_outcome
}.

(** [urlparse(url)], as far as the sources read it. *)
Record parsed_url : Type := {
  netloc : str;
  path : str
}.

(** An entry of [processed_links]: [{'url': ..., 'text': ...}]. *)
Record link : Type := {
  link_url : str;
  link_text : str
}.

(** [d[k] = v] on a dictionary kept as its items in insertion order. *)
Fixpoint dict_set (d : list (str * str)) (k v : str) : list (str * str) :=
  match d with
  | [] => [(k, v)]
  | (k', v') :: rest =>
      if str_eqb k' k then (k', v) :: rest else (k', v') :: dict_set rest k v
  end.

(** [await asyncio.gather] on the tasks.  Every task is started, whether
    or not another one raises; here each runs to its end, one after another
    in the order of the list.  The value is the results in that order; when
    tasks raise, the exception of the first of them is raised. *)
Fixpoint gather {A} (tasks : list (io A)) : io (list A) :=
  match tasks with
  | [] => ret []
  | t :: rest =>
      let (events, results) := gather rest in
      (trace t ++ events,
       match outcome t, results with
       | inl e, _ => inl e
       | inr _, inl e => inl e
       | inr x, inr xs => inr (x :: xs)
       end)
  end.

Definition MIN_CONTENT_LENGTH : nat := 50.

Definition lines (l : list string) : str := join [LF] (map py l).

Definition prompt_head : str :=
  lines [ "CLEANING TASK: Clean and format the following web content while:";
          "1. Removing navigation elements, headers, footers, and ads";
          "2. Preserving all meaningful content";
          "3. Maintaining proper paragraph structure";
          "4. Keeping important headings and subheadings";
          "5. Ensuring readability";
          "";
          "CONTENT TO CLEAN:";
          "" ]%string.

Definition prompt_tail : str := lines [ ""; ""; "CLEANED OUTPUT:" ]%string.

(** The prompt of [clean_with_genai] with [{text}] filled in. *)
Definition prompt (text : str) : str := prompt_head ++ text ++ prompt_tail.

Definition refusal_marker : str := py "provide the actual scraped content".
Definition content_extraction_error : str :=
  py "CONTENT EXTRACTION ERROR: Failed to retrieve meaningful page content".
Definition cleaning_error : str := py "CLEANING ERROR: ".
Definition cleaning_rate_limit : str :=
  py "CLEANING ERROR: API rate limit - please try again later.".
Definition insufficient_content : str :=
  py "Error: Insufficient content extracted".
Definition extraction_rate_limit : str :=
  py "Error: API rate limit - please try again later.".
Definition no_linked_pages : str :=
  py "No linked pages found on the website. Processing only the main page.".

(** ["429" in error_message or "Resource has been exhausted" in error_message] *)
Definition rate_limited (error_message : str) : bool :=
  contains (py "429") error_message
  || contains (py "Resource has been exhausted") error_message.

(** The characters of the pattern's bracketed class of emoji: U+1F517,
    U+1F5B1, U+FE0F, U+1F50D and U+1F4C4. *)
Definition log_marker (c : char) : bool :=
  (c =? 0x1F517) || (c =? 0x1F5B1) || (c =? 0xFE0F) || (c =? 0x1F50D)
  || (c =? 0x1F4C4).

(** [r'^([...].*|Extracted the .*|:)\s*$'] under [re.MULTILINE], the
    class being [log_marker] *)
Definition agent_log_line : Re.re :=
  Re.Cat Re.Bol
    (Re.Cat
       (Re.Alt (Re.Cat (Re.Cls log_marker) (Re.Star Re.Dot))
          (Re.Alt (Re.Cat (Re.Lit (py "Extracted the ")) (Re.Star Re.Dot))
             (Re.Lit (py ":"))))
       (Re.Cat (Re.Star (Re.Cls is_space)) Re.Eol)).

(** [os.environ["GEMINI_API_KEY"]] *)
Definition environ_api_key (w : world) : exn + str :=
  match api_key w with
  | Some k => inr k
  | None => inl (OtherException (py "'GEMINI_API_KEY'"))
  end.

(** ** The programs *)

Section Runtime.

(** The Unicode database of the Python runtime outside ASCII: whether a
    code point is alphanumeric ([str.isalnum]), and [str.lower] on a string
    that is not pure ASCII. *)
Variable uni_alnum : char -> bool.
Variable uni_lower : str -> str.

(** [urllib.parse]: [urljoin(base, url)] and [urlparse(url)]; [inl] when
    the call raises. *)
Variable urljoin : str -> str -> exn + str.
Variable urlparse : str -> exn + parsed_url.

Definition ascii_alnum (c : char) : bool :=
  ((0x30 <=? c) && (c <=? 0x39)) || ((0x41 <=? c) && (c <=? 0x5A))
  || ((0x61 <=? c) && (c <=? 0x7A)).

(** The class [\w] of a [str] pattern: alphanumeric or underscore. *)
Definition is_word (c : char) : bool :=
  if c <? 128 then ascii_alnum c || (c =? 0x5F) else uni_alnum c.

(** Membership in [[\w\s.,!?-]]. *)
Definition allowed (c : char) : bool :=
  is_word c || is_space c
  || (c =? 0x2E) || (c =? 0x2C) || (c =? 0x21) || (c =? 0x3F) || (c =? 0x2D).

(** [r'\s+'] *)
Definition ws_plus : Re.re := Re.Plus (Re.Cls is_space).

(** [r'[^\w\s.,!?-]'] *)
Definition disallowed : Re.re := Re.Cls (fun c => negb (allowed c)).

(** ['\n'.join(line.strip() for line in text.split('\n') if line.strip())] *)
Definition drop_blank_lines (text : str) : str :=
  join [LF]
    (map strip (filter (fun line => truthy (strip line)) (split [LF] text))).


(** [clean_text], identical in the three variants. *)
Definition clean_text (text : str) : str :=
  let text := Re.sub ws_plus [SPACE] text in
  let text := Re.sub disallowed [] text in
  let text := drop_blank_lines text in
  strip text.

Definition ascii_lower (c : char) : char :=
  if (0x41 <=? c) && (c <=? 0x5A) then c + 32 else c.

(** [s.lower()] *)
Definition lower (s : str) : str :=
  if forallb (fun c => c <? 128) s then map ascii_lower s else uni_lower s.

(** The [try] body of [clean_with_genai]. *)
Definition ask_genai (w : world) (text : str) : io str :=
  _ <- lift (environ_api_key w) ;;
  emit (GenerateContent (prompt text)) ;;;
  response_text <- lift (generate_content w (prompt text)) ;;
  if contains refusal_marker (lower response_text)
  then ret content_extraction_error
  else ret response_text.

(** [clean_with_genai] of [streamlit.py] and [streamlitV2.py]. *)
Definition clean_with_genai_v1 (w : world) (text : str) : io str :=
  emit (CleanWithGenai text) ;;;
  try_except (ask_genai w text)
    (fun e => ret (cleaning_error ++ exn_str e)).

(** The [except] clauses of [clean_with_genai] in [streamlitV3.py]. *)
Definition cleaning_failed (e : exn) : io str :=
  match e with
  | ResourceExhausted error_message =>
      if rate_limited error_message
      then
        emit (StWarning
                (py "Gemini API rate limit encountered during cleaning. Please wait a moment and try again. Error: "
                 ++ error_message)) ;;;
        ret cleaning_rate_limit
      else ret (cleaning_error ++ error_message)
  | _ => ret (cleaning_error ++ exn_str e)
  end.

(** [clean_with_genai] of [streamlitV3.py]. *)
Definition clean_with_genai (w : world) (text : str) : io str :=
  emit (CleanWithGenai text) ;;;
  try_except (ask_genai w text) cleaning_failed.

(** The loop of [extract_content] over [content_selectors]: the text of
    the first selector that selects something. *)
Fixpoint first_selected (sels : list selector) (page : soup) : option str :=
  match sels with
  | [] => None
  | sel :: rest =>
      match select_one sel page with
      | Some content => Some (get_text_lines content)
      | None => first_selected rest page
      end
  end.

(** Lines 193-212 of [extract_content]: that text, or the text of
    [soup.body] when no selector selects anything or the text is empty. *)
Definition main_content_of (page : soup) : exn + str :=
  match first_selected content_selectors page with
  | Some ((_ :: _) as main_content) => inr main_content
  | _ =>
      match find (py "body") page with
      | Some body => inr (get_text_lines body)
      | None =>
          inl (OtherException
                 (py "'NoneType' object has no attribute 'get_text'"))
      end
  end.

(** The [try] body of [extract_content]. *)
Definition fetch_and_clean (w : world) (url : str) : io (bool * str) :=
  emit (HttpGet url) ;;;
  response <- lift (http_get w url) ;;
  let page := decompose response in
  main_content <- lift (main_content_of page) ;;
  let cleaned_text := clean_text main_content in
  if (len cleaned_text <? MIN_CONTENT_LENGTH)%nat
  then ret (false, insufficient_content)
  else
    final_clean <- clean_with_genai_v1 w cleaned_text ;;
    ret (true, final_clean).

(** The [except] clauses of [extract_content]. *)
Definition fetch_failed (e : exn) : io (bool * str) :=
  match e with
  | RequestException m => ret (false, py "Error fetching the webpage: " ++ m)
  | _ => ret (false, py "Error: " ++ exn_str e)
  end.

(** [extract_content] of [streamlit.py]. *)
Definition extract_content (w : world) (url : str) : io (bool * str) :=
  try_except (fetch_and_clean w url) fetch_failed.

(** The [finally] block of [extract_content_with_agent]. *)
Definition shutdown (w : world) : io unit :=
  match shutdown_channel w with
  | ShutdownDone => ret tt
  | ShutdownAttributeError =>
      emit (Printed
              (py "Warning: Ignored AttributeError: module 'grpc.aio' has no attribute 'shutdown_channel'"))
  | ShutdownRaises e => raise e
  end.

(** Lines 121-128 of [extract_content_with_agent]: the agent's log lines
    are removed and the rest is trimmed. *)
Definition initial_clean_of (result : extracted) : str :=
  let full_text_result :=
    match result with
    | ExtractedList items => join [LF] items
    | ExtractedStr s => s
    end in
  strip (Re.sub agent_log_line [] full_text_result).

(** The [try] body of [extract_content_with_agent]. *)
Definition run_agent (w : world) (url : str) : io (bool * str) :=
  emit (AgentRun url) ;;;
  result <- lift (agent_run w url) ;;
  let initial_clean := initial_clean_of result in
  if (len initial_clean <? MIN_CONTENT_LENGTH)%nat
  then ret (false, insufficient_content)
  else
    final_clean <- clean_with_genai w initial_clean ;;
    ret (true, final_clean).

(** The [except] clauses of [extract_content_with_agent]. *)
Definition agent_failed (e : exn) : io (bool * str) :=
  match e with
  | ResourceExhausted error_message =>
      if rate_limited error_message
      then
        emit (StWarning
                (py "Gemini API rate limit encountered during content extraction. Please wait a moment and try again. Error: "
                 ++ error_message)) ;;;
        ret (false, extraction_rate_limit)
      else
        ret (false, py "Error during agent-based extraction: " ++ error_message)
  | _ => ret (false, py "Error during agent-based extraction: " ++ exn_str e)
  end.

(** [extract_content_with_agent] of [streamlitV3.py]. *)
Definition extract_content_with_agent (w : world) (url : str)
    : io (bool * str) :=
  _ <- lift (new_chat_model w) ;;
  finally (try_except (run_agent w url) agent_failed) (shutdown w).

(** The loop of [find_linked_pages] over [nav_links]; [processed_links]
    is the list built so far. *)
Fixpoint link_loop (url base_domain : str) (max_pages : Z)
    (nav_links : list (str * str)) (processed_links : list link)
    : exn + list link :=
  match nav_links with
  | [] => inr processed_links
  | (href, link_text) :: rest =>
      match urljoin url href with
      | inl e => inl e
      | inr absolute_url =>
          match urlparse absolute_url with
          | inl e => inl e
          | inr parsed_link_url =>
              if str_eqb (netloc parsed_link_url) base_domain
                 && negb (existsb (str_eqb absolute_url)
                            (map link_url processed_links))
              then
                let processed_links :=
                  processed_links
                  ++ [ {| link_url := absolute_url; link_text := link_text |} ] in
                if (max_pages <=? Z.of_nat (List.length processed_links))%Z
                then inr processed_links
                else link_loop url base_domain max_pages rest processed_links
              else link_loop url base_domain max_pages rest processed_links
          end
      end
  end.

(** The [try] body of [find_linked_pages]. *)
Definition discover_links (w : world) (url : str) (max_pages : Z)
    : io (list link) :=
  emit (HttpGet url) ;;;
  page <- lift (http_get w url) ;;
  let nav_links := nav_links page in
  base_url_parsed <- lift (urlparse url) ;;
  lift (link_loop url (netloc base_url_parsed) max_pages nav_links []).

(** The [except] clauses of [find_linked_pages]. *)
Definition discovery_failed (url : str) (e : exn) : io (list link) :=
  match e with
  | RequestException m =>
      emit (Printed (py "Error fetching URL " ++ url ++ py ": " ++ m)) ;;;
      ret []
  | _ =>
      emit (Printed
              (py "Error finding linked pages with BeautifulSoup: "
               ++ exn_str e)) ;;;
      ret []
  end.

(** [find_linked_pages] of [streamlitV3.py]. *)
Definition find_linked_pages (w : world) (url : str) (max_pages : Z)
    : io (list link) :=
  try_except (discover_links w url max_pages) (discovery_failed url).

(** [process_page] of [streamlitV3.py]. *)
Definition process_page (w : world) (page_url : str) : io (str * str) :=
  r <- extract_content_with_agent w page_url ;;
  let '(success, content) := r in
  parsed <- lift (urlparse page_url) ;;
  if success
  then
    let page_title :=
      or_else (replace_char 0x2F (py " - ") (strip_char 0x2F (path parsed)))
        (py "Page") in
    let page_title :=
      if negb (truthy page_title) || str_eqb page_title (py "Page")
      then page_url else page_title in
    ret (page_title, content)
  else
    ret (or_else (strip_char 0x2F (path parsed)) (py "Error Page"),
         py "Error extracting content from " ++ page_url ++ py ": " ++ content).

(** [if not url.startswith(('http://', 'https://')): url = f'https://{url}'] *)
Definition with_scheme (url : str) : str :=
  if starts_with (py "http://") url || starts_with (py "https://") url
  then url else py "https://" ++ url.

(** The batch of [main]: [tasks] for the pages, [gather], and the loop
    that files each content under its label in [all_pages_info]. *)
Definition run_batch (w : world) (page_urls page_texts : list str)
    : io (list (str * str)) :=
  results <- gather (map (process_page w) page_urls) ;;
  ret (fold_left
         (fun all_pages_info lr => dict_set all_pages_info (fst lr) (snd (snd lr)))
         (combine page_texts results) []).

(** Lines 251-337 of [main] in [streamlitV3.py]: what a click on the
    extraction button does with a non-empty [url]; the value is
    [all_pages_info]. *)
Definition extract_pages (w : world) (url : str) (explore_pages : bool)
    (max_pages : Z) : io (list (str * str)) :=
  let url := with_scheme url in
  all_pages_info <-
    (if explore_pages
     then
       linked_pages <- find_linked_pages w url max_pages ;;
       match linked_pages with
       | _ :: _ =>
           run_batch w (url :: map link_url linked_pages)
             (py "Home" :: map link_text linked_pages)
       | [] =>
           emit (StWarning no_linked_pages) ;;;
           run_batch w [url] [py "Home"]
       end
     else run_batch w [url] [py "Home"]) ;;
  match all_pages_info with
  | _ :: _ => ret all_pages_info
  | [] =>
      emit (StError (py "No content extracted from the page.")) ;;;
      ret all_pages_info
  end.

(** [url.split('//')[-1].split('/')[0]] *)
Definition url_host (url : str) : str :=
  hd [] (split (py "/") (last (split (py "//") url) [])).

(** [domain = url.split('//')[-1].split('/')[0].replace('.', '_')] *)
Definition domain (url : str) : str := replace_char 0x2E (py "_") (url_host url).

(** [filename] in [main] of [streamlit.py]. *)
Definition filename_v1 (url timestamp : str) : str :=
  domain url ++ py "_" ++ timestamp ++ py ".txt".

(** [filename] in [main] of [streamlitV2.py] and [streamlitV3.py]. *)
Definition filename (url timestamp selected_page : str) : str :=
  domain url ++ py "_" ++ timestamp ++ py "_"
  ++ replace_char SPACE (py "_") selected_page ++ py ".txt".

End Runtime.

(** ** Vocabulary of the statements *)

Unset Implicit Arguments.

(** The character before the position a greedy run of [p] stops at. *)
Fixpoint last_taken (p : char -> bool) (prev : option char) (s : str)
    : option char :=
  match s with
  | [] => prev
  | c :: s' => if p c then last_taken p (Some c) s' else prev
  end.

(** What [re.sub(r'\s+', ' ', s)] computes: [in_run] says that the
    previous character was whitespace. *)
Fixpoint squeeze (in_run : bool) (s : str) : str :=
  match s with
  | [] => []
  | c :: s' =>
      if is_space c
      then if in_run then squeeze true s' else SPACE :: squeeze true s'
      else c :: squeeze false s'
  end.

(** A text in which every whitespace character is a single space between
    two other characters or at an end; [after_space] says that the character
    before the text is a space. *)
Fixpoint tidy (after_space : bool) (t : str) : bool :=
  match t with
  | [] => true
  | c :: t' =>
      if is_space c
      then (c =? SPACE) && negb after_space && tidy true t'
      else tidy false t'
  end.

(** [l1] is [l2] with some entries left out, the order kept. *)
Inductive subseq {A : Type} : list A -> list A -> Prop :=
| subseq_nil : subseq [] []
| subseq_skip (x : A) (l1 l2 : list A) : subseq l1 l2 -> subseq l1 (x :: l2)
| subseq_take (x : A) (l1 l2 : list A) : subseq l1 l2 -> subseq (x :: l1) (x :: l2).

(** Events the user does not see: calls of services and console output. *)
Definition unseen (ev : event) : Prop :=
  match ev with
  | StWarning _ | StError _ => False
  | _ => True
  end.

(** What [find_linked_pages] prints when its [try] body raises [e]. *)
Definition discovery_report (url : str) (e : exn) : str :=
  match e with
  | RequestException m => py "Error fetching URL " ++ url ++ py ": " ++ m
  | _ => py "Error finding linked pages with BeautifulSoup: " ++ exn_str e
  end.

(** The tagged string [clean_with_genai] of [streamlitV3.py] returns for
    an exception of its [try] body. *)
Definition cleaning_failure (e : exn) : str :=
  match e with
  | ResourceExhausted m =>
      if rate_limited m then cleaning_rate_limit else cleaning_error ++ m
  | _ => cleaning_error ++ exn_str e
  end.

(** The message of [extract_content_with_agent] for an exception of its
    [try] body. *)
Definition extraction_failure (e : exn) : str :=
  match e with
  | ResourceExhausted m =>
      if rate_limited m then extraction_rate_limit
      else py "Error during agent-based extraction: " ++ m
  | _ => py "Error during agent-based extraction: " ++ exn_str e
  end.

(** The message of [extract_content] for an exception of its [try] body. *)
Definition fetch_failure (e : exn) : str :=
  match e with
  | RequestException m => py "Error fetching the webpage: " ++ m
  | _ => py "Error: " ++ exn_str e
  end.

(** The exceptions the handlers report as a rate limit, without their
    message. *)
Definition quota_hit (e : exn) : bool :=
  match e with
  | ResourceExhausted m => rate_limited m
  | _ => false
  end.

(** [gather] on outcomes alone. *)
Fixpoint collect {A : Type} (rs : list (exn + A)) : exn + list A :=
  match rs with
  | [] => inr []
  | inl e :: _ => inl e
  | inr a :: rest =>
      match collect rest with
      | inl e => inl e
      | inr l => inr (a :: l)
      end
  end.

(** The world [w] with the agent failing on page [u]. *)
Definition agent_fails (w : world) (u : str) (e : exn) : world :=
  {| api_key := api_key w;
     http_get := http_get w;
     new_chat_model := new_chat_model w;
     agent_run := fun v => if str_eqb v u then inl e else agent_run w v;
     generate_content := generate_content w;
     shutdown_channel := shutdown_channel w |}.

(** The label and text [process_page] returns for a verdict of the agent
    pipeline. *)
Definition page_entry (page_url : str) (parsed : parsed_url)
    (verdict : bool * str) : str * str :=
  let '(success, content) := verdict in
  if success
  then
    let page_title :=
      or_else (replace_char 0x2F (py " - ") (strip_char 0x2F (path parsed)))
        (py "Page") in
    (if negb (truthy page_title) || str_eqb page_title (py "Page")
     then page_url else page_title, content)
  else
    (or_else (strip_char 0x2F (path parsed)) (py "Error Page"),
     py "Error extracting content from " ++ page_url ++ py ": " ++ content).

(** The text [process_page] files for a page on which the agent raised. *)
Definition failed_page_text (page_url : str) (e : exn) : str :=
  py "Error extracting content from " ++ page_url ++ py ": "
  ++ extraction_failure e.

(** The pattern of the specification, [<domain>_<timestamp>[_<page-label>].txt],
    read literally. *)
Definition named_as_specified (domain timestamp : str) (label : option str)
    : str :=
  domain ++ py "_" ++ timestamp
  ++ match label with Some l => py "_" ++ l | None => [] end
  ++ py ".txt".

Section Vocabulary.
Variable uni_alnum : char -> bool.
Variable uni_lower : str -> str.
Variable urljoin : str -> str -> exn + str.
Variable urlparse : str -> exn + parsed_url.

(** The text between the second substitution and the line filter. *)
Definition scrubbed (s : str) : str :=
  filter (allowed uni_alnum) (squeeze false s).

(** A returned link resolves a collected anchor: its URL is the anchor's
    [href] joined to the base, its text the anchor's. *)
Definition resolves (url : str) (l : link) (anchor : str * str) : Prop :=
  urljoin url (fst anchor) = inr (link_url l) /\ link_text l = snd anchor.

(** The host of a returned link is the base's. *)
Definition same_host (base_domain : str) (l : link) : Prop :=
  exists p, urlparse (link_url l) = inr p /\ netloc p = base_domain.

(** The string [clean_with_genai] returns. *)
Definition cleaned (w : world) (text : str) : str :=
  match outcome (ask_genai uni_lower w text) with
  | inl e => cleaning_failure e
  | inr s => s
  end.

(** What the [try] of [extract_content_with_agent] evaluates to. *)
Definition agent_verdict (w : world) (url : str) : bool * str :=
  match agent_run w url with
  | inl e => (false, extraction_failure e)
  | inr result =>
      let initial_clean := initial_clean_of result in
      if (len initial_clean <? MIN_CONTENT_LENGTH)%nat
      then (false, insufficient_content)
      else (true, cleaned w initial_clean)
  end.

End Vocabulary.

(** ** Dictionaries and what is read from the events *)

(** [d[k]], when the key is there. *)
Fixpoint dict_get (d : list (str * str)) (k : str) : option str :=
  match d with
  | [] => None
  | (k', v) :: rest => if str_eqb k' k then Some v else dict_get rest k
  end.

(** [all_pages_info[label] = content] for a pair [(label, content)]. *)
Definition file_under (d : list (str * str)) (lc : str * str)
    : list (str * str) :=
  dict_set d (fst lc) (snd lc).

(** [list(dict.fromkeys(l))], started from the keys in [seen]: the first
    occurrence of each string, in order. *)
Fixpoint unique_from (seen : list str) (l : list str) : list str :=
  match l with
  | [] => []
  | x :: rest =>
      if existsb (fun k => str_eqb k x) seen
      then unique_from seen rest
      else x :: unique_from (seen ++ [x]) rest
  end.

Definition unique : list str -> list str := unique_from [].

(** The content stored last under [label] when the [contents] are filed
    under the [labels] in order. *)
Definition last_under (labels contents : list str) (label : str)
    : option str :=
  option_map snd
    (List.find (fun lc => str_eqb (fst lc) label) (rev (combine labels contents))).

(** The URLs the agent was run on, in order. *)
Fixpoint agent_runs (t : list event) : list str :=
  match t with
  | [] => []
  | AgentRun url :: t' => url :: agent_runs t'
  | _ :: t' => agent_runs t'
  end.

(** The URLs fetched with [requests.get], in order. *)
Fixpoint http_gets (t : list event) : list str :=
  match t with
  | [] => []
  | HttpGet url :: t' => url :: http_gets t'
  | _ :: t' => http_gets t'
  end.

(** The prompts sent to the generative endpoint, in order. *)
Fixpoint prompts_sent (t : list event) : list str :=
  match t with
  | [] => []
  | GenerateContent p :: t' => p :: prompts_sent t'
  | _ :: t' => prompts_sent t'
  end.

(** The messages shown with [st.warning], in order. *)
Fixpoint warnings (t : list event) : list str :=
  match t with
  | [] => []
  | StWarning m :: t' => m :: warnings t'
  | _ :: t' => warnings t'
  end.

(** The messages shown with [st.error], in order. *)
Fixpoint errors_shown (t : list event) : list str :=
  match t with
  | [] => []
  | StError m :: t' => m :: errors_shown t'
  | _ :: t' => errors_shown t'
  end.

(** An event that is neither a page request nor an [st.error]. *)
Definition backstage (ev : event) : bool :=
  match ev with
  | AgentRun _ | HttpGet _ | StError _ => false
  | _ => true
  end.

(** ** Vocabulary for the stripper and the direct pipeline *)

(** A character [clean_text] shows: allowed and not whitespace. *)
Definition visible (uni_alnum : char -> bool) (c : char) : bool :=
  allowed uni_alnum c && negb (is_space c).

(** The tags [extract_content] removes from the page. *)
Definition removed_tags : list str :=
  [py "script"; py "style"; py "nav"; py "footer"; py "iframe"].

(** A node that is not a tag with one of the [names]. *)
Definition outside (names : list str) (n : node) : bool :=
  match n with
  | Text _ | Special _ _ => true
  | Elem nm _ _ => negb (existsb (str_eqb nm) names)
  end.

(** What [str(e)] is when [soup.body] is [None]. *)
Definition no_body_message : str :=
  py "'NoneType' object has no attribute 'get_text'".

(** The text [extract_content] falls back to: that of [soup.body]. *)
Definition body_text (page : soup) : exn + str :=
  match find (py "body") page with
  | Some body => inr (get_text_lines body)
  | None => inl (OtherException no_body_message)
  end.

(** The string [clean_with_genai] of [streamlit.py] and [streamlitV2.py]
    returns. *)
Definition cleaned_v1 (uni_lower : str -> str) (w : world) (text : str) : str :=
  match outcome (ask_genai uni_lower w text) with
  | inl e => cleaning_error ++ exn_str e
  | inr s => s
  end.

(** ** Vocabulary for the agent's log lines *)

(** The text of the agent's result before the log lines are removed. *)
Definition agent_text (result : extracted) : str :=
  match result with
  | ExtractedList items => join [LF] items
  | ExtractedStr s => s
  end.

(** Whether a line that starts with [s] starts like a line of the agent's
    log: with one of the marker characters, with "Extracted the " or with a
    colon. *)
Definition opens_log_line (s : str) : bool :=
  match s with c :: _ => log_marker c | [] => false end
  || starts_with (py "Extracted the ") s
  || starts_with (py ":") s.

(** No line of [s] starts like a line of the log; [at_start] says that [s]
    begins at the start of a line. *)
Fixpoint log_free (at_start : bool) (s : str) : bool :=
  match s with
  | [] => true
  | c :: s' => negb (at_start && opens_log_line s) && log_free (c =? LF) s'
  end.

(** Whether [^] matches after [prev]. *)
Definition is_bol (prev : option char) : bool :=
  match prev with None => true | Some c => c =? LF end.

(** The character before the position behind [l]. *)
Definition last_of (l : str) (prev : option char) : option char :=
  fold_left (fun _ c => Some c) l prev.

(** A line of the agent's log as the pattern removes it whole: it starts
    with a marker character or with "Extracted the " and holds no line
    feed. *)
Definition log_line (line : str) : bool :=
  (match line with c :: _ => log_marker c | [] => false end
   || starts_with (py "Extracted the ") line)
  && forallb (fun c => negb (c =? LF)) line.

(** A text that starts with a character other than whitespace. *)
Definition starts_with_text (s : str) : bool :=
  match s with c :: _ => negb (is_space c) | [] => false end.

(** The end of a log line: nothing, or a line feed before a text. *)
Definition line_end (tail : str) : Prop :=
  tail = [] \/ exists rest, tail = LF :: rest /\ starts_with_text rest = true.

(** ** Vocabulary for link discovery *)


Section Resolution.
Variable urljoin : str -> str -> exn + str.
Variable urlparse : str -> exn + parsed_url.




End Resolution.

(** ** The button of [streamlit.py] *)

(** The warning of [main] for an empty URL; it starts with U+26A0 U+FE0F. *)
Definition please_enter_url : str :=
  [0x26A0; 0xFE0F] ++ py " Please enter a URL".

Section Click.
Variable uni_alnum : char -> bool.
Variable uni_lower : str -> str.

(** Lines 249-287 of [main] in [streamlit.py]: a click on the extraction
    button; [timestamp] is the formatted [datetime.now()], and the value
    is the file name and the data of the download button, when there is
    one. *)
Definition extract_click (w : world) (url timestamp : str)
    : io (option (str * str)) :=
  if truthy url
  then
    let url := with_scheme url in
    r <- extract_content uni_alnum uni_lower w url ;;
    let '(success, result) := r in
    if success
    then ret (Some (filename_v1 url timestamp, result))
    else emit (StError result) ;;; ret None
  else emit (StWarning please_enter_url) ;;; ret None.

End Click.

(** ** The menu variant ([streamlitV2.py]) *)

(** A value of Python, as far as [find_navigation_menu_items] tells values
    apart: a string, a list (or another sequence of items), or an object of
    another type, which cannot be iterated over. *)
Inductive pyvalue : Type :=
| PyStr (s : str)
| PyList (items : list pyvalue)
| PyOther (type_name : str).

(** [Agent(task=..., llm=llm, max_actions_per_step=...)] and
    [agent.run(max_steps=...)]. *)
Record agent_call : Type := {
  task : str;
  max_actions_per_step : Z;
  max_steps : Z
}.

(** The services of [streamlitV2.py]: those of a [world] (the API key,
    the chat model, the generative endpoint, the channel shutdown) and the
    agent, which answers a call with [history.extracted_content()]: for the
    extraction of a page as in [streamlitV3.py], for the search of the menu
    with any value. *)
Record menu_world : Type := {
  services : world;
  run_extraction : agent_call -> exn + extracted;
  run_menu_search : agent_call -> exn + pyvalue
}.

(** The two modes of the radio button. *)
Inductive exploration_mode : Type :=
| SinglePage
| NavigationMenuItems.

Module V2.

(** [if navigate_menu_item:] *)
Definition given (navigate_menu_item : option str) : bool :=
  match navigate_menu_item with
  | Some (_ :: _) => true
  | _ => false
  end.

(** [{navigate_menu_item}] in an f-string. *)
Definition shown (navigate_menu_item : option str) : str :=
  match navigate_menu_item with
  | Some item => item
  | None => py "None"
  end.

Definition indent (n : nat) (line : str) : str := repeat SPACE n ++ line.

(** [task_description] of [extract_content_with_agent], before it is
    stripped. *)
Definition task_description (url : str) (navigate_menu_item : option str)
    : str :=
  if given navigate_menu_item
  then
    join [LF]
      [ [];
        indent 12 (py "a. Navigate to " ++ url);
        indent 12 (py "b. Wait for page to fully load (5 seconds)");
        indent 12 (py "c. Find and click on the navigation menu item with text: '"
                   ++ shown navigate_menu_item ++ py "'");
        indent 12 (py "d. Wait for the new page to fully load (5 seconds)");
        indent 12 (py "e. Extract MAIN CONTENT using CSS selector: body > main, body > article, body > div.content, body");
        indent 12 (py "f. Fallback to body text if main containers not found");
        indent 8 [] ]
  else
    join [LF]
      [ [];
        indent 12 (py "a. Navigate to " ++ url);
        indent 12 (py "b. Wait for page to fully load (5 seconds)");
        indent 12 (py "c. Extract MAIN CONTENT using CSS selector: body > main, body > article, body > div.content, body");
        indent 12 (py "d. Fallback to body text if main containers not found");
        indent 8 [] ].

(** The task of [find_navigation_menu_items]. *)
Definition menu_task (url : str) : str :=
  join [LF]
    [ py "a. Navigate to " ++ url;
      indent 17 (py "b. Wait for page to fully load (5 seconds)");
      indent 17 (py "c. Identify the main navigation menu on the page (look for <nav> elements or common navigation structures).");
      indent 17 (py "d. Extract the text content of each item within the navigation menu.");
      indent 17 (py "e. Return a list of text items from the navigation menu.") ].

(** The agent of [extract_content_with_agent] and its run. *)
Definition extraction_call (url : str) (navigate_menu_item : option str)
    : agent_call :=
  {| task := strip (task_description url navigate_menu_item);
     max_actions_per_step := if given navigate_menu_item then 6%Z else 4%Z;
     max_steps := 30%Z |}.

(** The agent of [find_navigation_menu_items] and its run. *)
Definition menu_call (url : str) : agent_call :=
  {| task := menu_task url; max_actions_per_step := 5%Z; max_steps := 25%Z |}.

(** [for text in sublist]: the items of a list, the characters of a
    string; [TypeError] for another object. *)
Definition iterate (sublist : pyvalue) : exn + list pyvalue :=
  match sublist with
  | PyStr s => inr (map (fun c => PyStr [c]) s)
  | PyList items => inr items
  | PyOther type_name =>
      inl (OtherException (py "'" ++ type_name ++ py "' object is not iterable"))
  end.

(** [[text.strip() for sublist in menu_items for text in sublist
      if isinstance(text, str)]] *)
Fixpoint all_texts (menu_items : list pyvalue) : exn + list str :=
  match menu_items with
  | [] => inr []
  | sublist :: rest =>
      match iterate sublist with
      | inl e => inl e
      | inr texts =>
          match all_texts rest with
          | inl e => inl e
          | inr more =>
              inr (flat_map
                     (fun text =>
                        match text with
                        | PyStr s => [strip s]
                        | _ => []
                        end)
                     texts
                   ++ more)
          end
      end
  end.

(** Lines 169-178 of [find_navigation_menu_items]. *)
Definition menu_items_of (menu_items : pyvalue) : exn + list str :=
  match menu_items with
  | PyList sublists =>
      match all_texts sublists with
      | inl e => inl e
      | inr all_texts => inr (unique all_texts)
      end
  | PyStr s =>
      inr (unique
             (map strip
                (filter (fun item => truthy (strip item))
                   (split [LF] (strip s)))))
  | PyOther _ => inr []
  end.

Section Runtime.
Variable uni_lower : str -> str.
Variable urlparse : str -> exn + parsed_url.

(** The [try] body of [extract_content_with_agent]. *)
Definition run_agent (w : menu_world) (url : str)
    (navigate_menu_item : option str) : io (bool * str) :=
  emit (AgentRun url) ;;;
  result <- lift (run_extraction w (extraction_call url navigate_menu_item)) ;;
  let initial_clean := initial_clean_of result in
  if (len initial_clean <? MIN_CONTENT_LENGTH)%nat
  then ret (false, insufficient_content)
  else
    final_clean <- clean_with_genai_v1 uni_lower (services w) initial_clean ;;
    ret (true, final_clean).

(** [extract_content_with_agent] of [streamlitV2.py]. *)
Definition extract_content_with_agent (w : menu_world) (url : str)
    (navigate_menu_item : option str) : io (bool * str) :=
  _ <- lift (new_chat_model (services w)) ;;
  finally
    (try_except (run_agent w url navigate_menu_item)
       (fun e =>
          ret (false, py "Error during agent-based extraction: " ++ exn_str e)))
    (shutdown (services w)).

(** The [try] body of [find_navigation_menu_items]. *)
Definition search_menu (w : menu_world) (url : str) : io (list str) :=
  emit (AgentRun url) ;;;
  menu_items <- lift (run_menu_search w (menu_call url)) ;;
  lift (menu_items_of menu_items).

(** [find_navigation_menu_items] of [streamlitV2.py]. *)
Definition find_navigation_menu_items (w : menu_world) (url : str)
    : io (list str) :=
  _ <- lift (new_chat_model (services w)) ;;
  finally
    (try_except (search_menu w url)
       (fun e =>
          emit (Printed (py "Error finding navigation menu items: " ++ exn_str e)) ;;;
          ret []))
    (shutdown (services w)).

(** [navigate_menu_item if navigate_menu_item else (...)], the other
    value being computed from the path of the URL. *)
Definition title_or (navigate_menu_item : option str) (page_url : str)
    (of_path : str -> str) : io str :=
  if given navigate_menu_item
  then ret (shown navigate_menu_item)
  else
    parsed <- lift (urlparse page_url) ;;
    ret (of_path (strip_char 0x2F (path parsed))).

(** [process_page] of [streamlitV2.py]. *)
Definition process_page (w : menu_world) (page_url : str)
    (navigate_menu_item : option str) : io (str * str) :=
  r <- extract_content_with_agent w page_url navigate_menu_item ;;
  let '(success, content) := r in
  if success
  then
    page_title <-
      title_or navigate_menu_item page_url
        (fun p => or_else (replace_char 0x2F (py " - ") p) (py "Page")) ;;
    let page_title :=
      if negb (truthy page_title) || str_eqb page_title (py "Page")
      then page_url else page_title in
    ret (page_title, content)
  else
    page_title <-
      title_or navigate_menu_item page_url
        (fun p => or_else p (py "Error Page")) ;;
    ret (page_title,
         py "Error extracting content from " ++ page_url ++ py " (Menu: "
         ++ shown navigate_menu_item ++ py "): " ++ content).

(** The batch of [main]: a task for the page itself and one for each menu
    item, [gather], and the loop that files the contents. *)
Definition run_batch (w : menu_world) (url : str)
    (menu_items : list (option str)) (page_texts : list str)
    : io (list (str * str)) :=
  results <- gather (map (process_page w url) menu_items) ;;
  ret (fold_left
         (fun all_pages_info lr => dict_set all_pages_info (fst lr) (snd (snd lr)))
         (combine page_texts results) []).

(** Lines 233-318 of [main] in [streamlitV2.py]: a click on the
    extraction button with a non-empty [url]; the value is
    [all_pages_info]. *)
Definition extract_pages (w : menu_world) (url : str)
    (mode : exploration_mode) : io (list (str * str)) :=
  let url := with_scheme url in
  all_pages_info <-
    match mode with
    | NavigationMenuItems =>
        menu_items <- find_navigation_menu_items w url ;;
        match menu_items with
        | _ :: _ =>
            run_batch w url (None :: map Some menu_items)
              (py "Home" :: menu_items)
        | [] =>
            emit (StWarning
                    (py "No navigation menu items found. Processing only the main page.")) ;;;
            run_batch w url [None] [py "Home"]
        end
    | SinglePage => run_batch w url [None] [py "Home"]
    end ;;
  match all_pages_info with
  | _ :: _ => ret all_pages_info
  | [] =>
      emit (StError (py "No content extracted from the page.")) ;;;
      ret all_pages_info
  end.

End Runtime.

End V2.

(** What [find_navigation_menu_items] returns when neither the chat model
    nor the shutdown raises. *)
Definition menu_found (w : menu_world) (url : str) : list str :=
  match run_menu_search w (V2.menu_call url) with
  | inl _ => []
  | inr menu_items =>
      match V2.menu_items_of menu_items with
      | inl _ => []
      | inr items => items
      end
  end.

(** What the [try] of [extract_content_with_agent] in [streamlitV2.py]
    evaluates to. *)
Definition menu_verdict (uni_lower : str -> str) (w : menu_world) (url : str)
    (navigate_menu_item : option str) : bool * str :=
  match run_extraction w (V2.extraction_call url navigate_menu_item) with
  | inl e => (false, py "Error during agent-based extraction: " ++ exn_str e)
  | inr result =>
      let initial_clean := initial_clean_of result in
      if (len initial_clean <? MIN_CONTENT_LENGTH)%nat
      then (false, insufficient_content)
      else (true, cleaned_v1 uni_lower (services w) initial_clean)
  end.

(** ** The worlds and pages of the examples *)

(** The example of the specification, with its three line feeds. *)
Definition hello_input : str :=
  py "Hello,   World!!" ++ [LF; LF; LF] ++ py "Ads here$$$".

(** Tables for the examples, whose strings are ASCII: no further
    alphanumeric characters, and [lower] as the identity elsewhere. *)
Definition ascii_only : char -> bool := fun _ => false.
Definition as_is : str -> str := fun s => s.

Definition example_url : str := py "https://example.com".

(** What [urljoin] and [urlparse] answer on the URLs of the examples: a
    path that starts with one slash joined to [https://example.com], and
    URLs on that host. *)
Definition example_urljoin (base href : str) : exn + str :=
  if str_eqb base example_url
     && starts_with (py "/") href && negb (starts_with (py "//") href)
  then inr (base ++ href)
  else inl (OtherException (py "not tabulated")).

Definition example_urlparse (url : str) : exn + parsed_url :=
  if str_eqb url example_url
  then inr {| netloc := py "example.com"; path := [] |}
  else if starts_with (py "https://example.com/") url
  then inr {| netloc := py "example.com"; path := skipn 19 url |}
  else inl (OtherException (py "not tabulated")).

Definition anchor (href label : string) : node :=
  Elem (py "a") [(py "href", py href)] [Text (py label)].

(** A page whose [<nav>] links to two pages, one of them twice. *)
Definition site_page : soup :=
  [ Elem (py "html") []
      [ Elem (py "body") []
          [ Elem (py "nav") []
              [ anchor "/about" "About"; anchor "/contact" "Contact";
                anchor "/about" "About us" ];
            Elem (py "main") [] [Text (py "Hi there")] ] ] ].

Definition site_world : world :=
  {| api_key := Some (py "key");
     http_get := fun _ => inr site_page;
     new_chat_model := inr tt;
     agent_run := fun _ => inr (ExtractedList [py "Hi"]);
     generate_content := fun _ => inr (py "cleaned");
     shutdown_channel := ShutdownAttributeError |}.

(** The site when the network is down. *)
Definition timeout : str := py "Connection timed out".

Definition offline_world : world :=
  {| api_key := Some (py "key");
     http_get := fun _ => inl (RequestException timeout);
     new_chat_model := inr tt;
     agent_run := fun _ => inl (RequestException timeout);
     generate_content := fun _ => inr (py "cleaned");
     shutdown_channel := ShutdownAttributeError |}.

(** A page with an empty [<nav>] and a link in its [<header>]. *)
Definition empty_nav_page : soup :=
  [ Elem (py "nav") [] [];
    Elem (py "header") []
      [ Elem (py "a") [(py "href", py "/h")] [Text (py "H")] ] ].

(** An endpoint that asks for the content instead of cleaning it. *)
Definition refusal : str := py "Please provide the actual scraped content.".

Definition refusing_world : world :=
  {| api_key := Some (py "key");
     http_get := fun _ => inr [];
     new_chat_model := inr tt;
     agent_run := fun _ => inr (ExtractedList []);
     generate_content := fun _ => inr refusal;
     shutdown_channel := ShutdownAttributeError |}.

(** An endpoint whose quota is exhausted. *)
Definition quota_message : str := py "429 Resource has been exhausted".

Definition exhausted_world : world :=
  {| api_key := Some (py "key");
     http_get := fun _ => inr [];
     new_chat_model := inr tt;
     agent_run := fun _ => inr (ExtractedList []);
     generate_content := fun _ => inl (ResourceExhausted quota_message);
     shutdown_channel := ShutdownAttributeError |}.

(** Sixty dollar signs: nothing [clean_text] keeps, and more than
    [MIN_CONTENT_LENGTH] characters for the agent pipeline. *)
Definition dollars : str := repeat 0x24 60.

Definition dollar_world : world :=
  {| api_key := Some (py "key");
     http_get := fun _ => inr [];
     new_chat_model := inr tt;
     agent_run := fun _ => inr (ExtractedList [dollars]);
     generate_content := fun _ => inr (py "cleaned");
     shutdown_channel := ShutdownAttributeError |}.

(** ** Further pages and worlds *)

(** Sixty letters: a text long enough for the pipelines. *)
Definition long_text : str := repeat 0x61 60.

(** A page whose [<main>] holds that text. *)
Definition long_page : soup :=
  [ Elem (py "html") []
      [ Elem (py "body") [] [ Elem (py "main") [] [Text long_text] ] ] ].

(** A fragment as [html.parser] leaves it: no [<body>] around the text. *)
Definition fragment_page : soup := [ Elem (py "p") [] [Text long_text] ].

(** A page whose [<main>] is empty and whose text sits in an [<article>]. *)
Definition hollow_page : soup :=
  [ Elem (py "body") []
      [ Elem (py "main") [] [];
        Elem (py "article") [] [Text (py "Story")] ] ].

(** A page whose [<main>] holds nothing but a [<template>], and a comment
    beside it: the long text is a string of the template, not text of the
    page. *)
Definition template_page : soup :=
  [ Elem (py "html") []
      [ Elem (py "body") []
          [ Special Comment (py " the page's frame ");
            Elem (py "main") []
              [ Elem (py "template") []
                  [ Elem (py "p") [] [Special TemplateString long_text] ] ] ] ] ].

Definition template_world : world :=
  {| api_key := Some (py "key");
     http_get := fun _ => inr template_page;
     new_chat_model := inr tt;
     agent_run := fun _ => inr (ExtractedList [long_text]);
     generate_content := fun _ => inr (py "cleaned");
     shutdown_channel := ShutdownAttributeError |}.

(** A site with enough text whose cleaning endpoint is out of quota. *)
Definition busy_world : world :=
  {| api_key := Some (py "key");
     http_get := fun _ => inr long_page;
     new_chat_model := inr tt;
     agent_run := fun _ => inr (ExtractedList [long_text]);
     generate_content := fun _ => inl (ResourceExhausted quota_message);
     shutdown_channel := ShutdownAttributeError |}.

Definition fragment_world : world :=
  {| api_key := Some (py "key");
     http_get := fun _ => inr fragment_page;
     new_chat_model := inr tt;
     agent_run := fun _ => inr (ExtractedList [long_text]);
     generate_content := fun _ => inr (py "cleaned");
     shutdown_channel := ShutdownAttributeError |}.

(** A log line of the agent and a content. *)
Definition navigation_log : str :=
  0x1F517 :: py " Navigated to https://example.com".

(** A page whose links share labels: two are called "Docs", one "Home". *)
Definition twin_page : soup :=
  [ Elem (py "nav") []
      [ anchor "/a" "Home"; anchor "/b" "Docs"; anchor "/c" "Docs" ] ].

(** A site whose agent returns the page's URL before a long text, and
    whose endpoint answers with the prompt it got. *)
Definition echo_world : world :=
  {| api_key := Some (py "key");
     http_get := fun _ => inr twin_page;
     new_chat_model := inr tt;
     agent_run := fun url => inr (ExtractedStr (url ++ SPACE :: long_text));
     generate_content := fun prompt => inr prompt;
     shutdown_channel := ShutdownAttributeError |}.

(** An agent whose result lists the menu as strings. *)
Definition menu_site : menu_world :=
  {| services := site_world;
     run_extraction := fun _ => inr (ExtractedList [py "Hi"]);
     run_menu_search :=
       fun _ => inr (PyList [PyStr (py "Home"); PyStr (py "About")]) |}.

(** * Proofs *)

(** ** Facts about strings *)

Lemma lstrip_by_length (p : char -> bool) (s : str) :
  (List.length (lstrip_by p s) <= List.length s)%nat.
Proof.
  induction s as [|c s IH]; simpl; [lia|].
  destruct (p c); simpl; lia.
Qed.

Lemma lstrip_by_incl (p : char -> bool) (s : str) (c : char) :
  In c (lstrip_by p s) -> In c s.
Proof.
  induction s as [|d s IH]; simpl; [tauto|].
  destruct (p d); simpl; tauto.
Qed.

Lemma lstrip_by_head (p : char -> bool) (s : str) :
  match lstrip_by p s with
  | [] => True
  | c :: _ => p c = false
  end.
Proof.
  induction s as [|d s IH]; simpl; [exact I|].
  destruct (p d) eqn:E; simpl; assumption.
Qed.

Lemma lstrip_by_fixed (p : char -> bool) (s : str) :
  match s with [] => True | c :: _ => p c = false end ->
  lstrip_by p s = s.
Proof.
  destruct s as [|c s]; simpl; [reflexivity|].
  intros ->; reflexivity.
Qed.

Lemma lstrip_by_idem (p : char -> bool) (s : str) :
  lstrip_by p (lstrip_by p s) = lstrip_by p s.
Proof. apply lstrip_by_fixed, lstrip_by_head. Qed.

Lemma lstrip_by_app_keep (p : char -> bool) (s : str) (c : char) :
  p c = false ->
  exists t, lstrip_by p (s ++ [c]) = t ++ [c].
Proof.
  intros Hc. induction s as [|d s [t IH]]; simpl.
  - rewrite Hc. exists []. reflexivity.
  - destruct (p d).
    + exists t. exact IH.
    + exists (d :: s). reflexivity.
Qed.

Lemma lstrip_by_suffix (p : char -> bool) (s : str) :
  exists a, s = a ++ lstrip_by p s.
Proof.
  induction s as [|c s [a IH]]; simpl.
  - exists []. reflexivity.
  - destruct (p c).
    + exists (c :: a). simpl. f_equal. exact IH.
    + exists []. reflexivity.
Qed.

Lemma rstrip_by_incl (p : char -> bool) (s : str) (c : char) :
  In c (rstrip_by p s) -> In c s.
Proof.
  unfold rstrip_by. intros H.
  apply in_rev in H. apply lstrip_by_incl in H. apply in_rev in H. exact H.
Qed.

Lemma rstrip_by_idem (p : char -> bool) (s : str) :
  rstrip_by p (rstrip_by p s) = rstrip_by p s.
Proof.
  unfold rstrip_by. rewrite rev_involutive, lstrip_by_idem. reflexivity.
Qed.

(** Trimming on the right leaves a first character that is kept. *)
Lemma rstrip_by_head (p : char -> bool) (s : str) :
  match s with [] => True | c :: _ => p c = false end ->
  match rstrip_by p s with [] => True | c :: _ => p c = false end.
Proof.
  destruct s as [|c s]; intros Hc.
  - exact I.
  - unfold rstrip_by. simpl rev.
    destruct (lstrip_by_app_keep p (rev s) c Hc) as [t ->].
    rewrite rev_app_distr. simpl. exact Hc.
Qed.

Lemma rstrip_by_prefix (p : char -> bool) (s : str) :
  exists q, s = rstrip_by p s ++ q.
Proof.
  unfold rstrip_by. destruct (lstrip_by_suffix p (rev s)) as [a Ha].
  exists (rev a). rewrite <- rev_app_distr, <- Ha, rev_involutive. reflexivity.
Qed.

Lemma strip_by_incl (p : char -> bool) (s : str) (c : char) :
  In c (strip_by p s) -> In c s.
Proof.
  unfold strip_by. intros H.
  apply rstrip_by_incl in H. apply lstrip_by_incl in H. exact H.
Qed.

Lemma strip_by_idem (p : char -> bool) (s : str) :
  strip_by p (strip_by p s) = strip_by p s.
Proof.
  unfold strip_by.
  rewrite (lstrip_by_fixed p (rstrip_by p (lstrip_by p s))).
  - apply rstrip_by_idem.
  - apply rstrip_by_head, lstrip_by_head.
Qed.

Lemma strip_idem (s : str) : strip (strip s) = strip s.
Proof. apply strip_by_idem. Qed.

Lemma strip_incl (s : str) (c : char) : In c (strip s) -> In c s.
Proof. apply strip_by_incl. Qed.

Lemma str_eqb_eq (a b : str) : str_eqb a b = true <-> a = b.
Proof.
  revert b. induction a as [|x a IH]; destruct b as [|y b]; simpl;
    try (split; (discriminate || reflexivity)).
  rewrite andb_true_iff, N.eqb_eq, IH. split.
  - intros [-> ->]. reflexivity.
  - intros H. inversion H. auto.
Qed.

Lemma str_eqb_refl (a : str) : str_eqb a a = true.
Proof. apply str_eqb_eq. reflexivity. Qed.

Lemma starts_with_app (m b : str) : starts_with m (m ++ b) = true.
Proof.
  induction m as [|c m IH]; simpl; [reflexivity|].
  rewrite N.eqb_refl, IH. reflexivity.
Qed.

Lemma contains_here (m s : str) : starts_with m s = true -> contains m s = true.
Proof. intros H. destruct s; simpl; rewrite H; reflexivity. Qed.

(** A string that holds [m] between two others contains [m]. *)
Lemma contains_middle (a m b : str) : contains m (a ++ m ++ b) = true.
Proof.
  induction a as [|c a IH]; simpl.
  - apply contains_here, starts_with_app.
  - rewrite IH. apply orb_true_r.
Qed.

Lemma contains_end (a m : str) : contains m (a ++ m) = true.
Proof.
  pose proof (contains_middle a m []) as H. rewrite app_nil_r in H. exact H.
Qed.

Lemma split_go_no_sep (sep : str) (s cur : str) :
  contains sep s = false -> split_go sep O cur s = [rev cur ++ s].
Proof.
  revert cur. induction s as [|c s IH]; intros cur H; simpl.
  - rewrite app_nil_r. reflexivity.
  - simpl in H. apply orb_false_iff in H. destruct H as [H1 H2].
    rewrite H1, IH by exact H2. simpl. rewrite <- app_assoc. reflexivity.
Qed.

(** A text without the separator is one field. *)
Lemma split_go_single (c : char) (s cur : str) :
  ~ In c s -> split_go [c] O cur s = [rev cur ++ s].
Proof.
  revert cur. induction s as [|d s IH]; intros cur Hc; simpl.
  - rewrite app_nil_r. reflexivity.
  - destruct (c =? d) eqn:E.
    + apply N.eqb_eq in E. subst d. exfalso. apply Hc. left. reflexivity.
    + simpl. rewrite IH.
      * simpl. rewrite <- app_assoc. reflexivity.
      * intros H. apply Hc. right. exact H.
Qed.

Lemma split_single (c : char) (s : str) :
  ~ In c s -> split [c] s = [s].
Proof. intros H. unfold split. rewrite split_go_single by exact H. reflexivity. Qed.

Lemma split_go_first_field (c : char) (host rest cur : str) :
  ~ In c host ->
  hd [] (split_go [c] O cur (host ++ c :: rest)) = rev cur ++ host.
Proof.
  revert cur. induction host as [|d host IH]; intros cur H; simpl.
  - rewrite N.eqb_refl. simpl. rewrite app_nil_r. reflexivity.
  - destruct (c =? d) eqn:E.
    + apply N.eqb_eq in E. subst d. exfalso. apply H. left. reflexivity.
    + simpl. rewrite IH.
      * simpl. rewrite <- app_assoc. reflexivity.
      * intros Hin. apply H. right. exact Hin.
Qed.

Lemma replace_char_gone (a : char) (b s : str) :
  ~ In a b -> ~ In a (replace_char a b s).
Proof.
  intros Hb Hin. unfold replace_char in Hin. apply in_flat_map in Hin.
  destruct Hin as (c & _ & Hc). destruct (c =? a) eqn:E.
  - exact (Hb Hc).
  - destruct Hc as [Hc|[]]. subst c. rewrite N.eqb_refl in E. discriminate.
Qed.

Lemma filter_all (A : Type) (f : A -> bool) (l : list A) :
  Forall (fun x => f x = true) l -> filter f l = l.
Proof.
  induction 1 as [|x l Hx _ IH]; simpl; [reflexivity|].
  rewrite Hx, IH. reflexivity.
Qed.

Lemma subseq_nil_l (A : Type) (l : list A) : subseq [] l.
Proof. induction l; constructor; assumption. Qed.

Lemma subseq_In (A : Type) (l1 l2 : list A) (x : A) :
  subseq l1 l2 -> In x l1 -> In x l2.
Proof.
  induction 1 as [|y l1 l2 _ IH|y l1 l2 _ IH]; simpl; [tauto| |]; intuition.
Qed.

Lemma Forall2_In_left (A B : Type) (R : A -> B -> Prop) (l1 : list A)
    (l2 : list B) (x : A) :
  Forall2 R l1 l2 -> In x l1 -> exists y, In y l2 /\ R x y.
Proof.
  induction 1 as [|a b l1 l2 Hab _ IH]; simpl; [tauto|].
  intros [->|Hin].
  - exists b. auto.
  - destruct (IH Hin) as (y & Hy & Hxy). exists y. auto.
Qed.

(** ** The regular expressions of [clean_text] *)

Lemma keep_some (A : Type) (x y : option A) :
  x <> None -> match x with Some v => Some v | None => y end = x.
Proof. destruct x; [reflexivity | congruence]. Qed.

(** A greedy [p*] takes the whole run of [p] when the rest of the pattern
    accepts there; [step] is the matcher of the one-character class [p]. *)
Lemma star_cls_greedy (A : Type) (p : char -> bool)
    (step : option char -> str -> (option char -> str -> option A) -> option A)
    (k : option char -> str -> option A) :
  (forall pr s k', step pr s k' = Re.exec (Re.Cls p) pr s k') ->
  forall (fuel : nat) (prev : option char) (s : str),
    (List.length s <= fuel)%nat ->
    k (last_taken p prev s) (lstrip_by p s) <> None ->
    Re.star_loop step k fuel prev s
    = k (last_taken p prev s) (lstrip_by p s).
Proof.
  intros Hstep.
  induction fuel as [|f IH]; intros prev s Hlen Hk.
  - destruct s; [reflexivity | simpl in Hlen; lia].
  - destruct s as [|c s']; simpl; rewrite Hstep; [reflexivity|].
    simpl in *. destruct (p c) eqn:Hp.
    + assert (Hlt : (List.length s' <? S (List.length s'))%nat = true)
        by (apply Nat.ltb_lt; lia).
      rewrite Hlt, IH by (assumption || lia).
      apply keep_some. exact Hk.
    + reflexivity.
Qed.

Lemma match_at_ws_plus (adv : bool) (prev : option char) (s : str) :
  Re.match_at ws_plus adv prev s =
  match s with
  | [] => None
  | c :: s' =>
      if is_space c
      then Some (last_taken is_space (Some c) s', lstrip s')
      else None
  end.
Proof.
  unfold Re.match_at, ws_plus, Re.Plus.
  destruct s as [|c s']; [reflexivity|].
  cbn [Re.exec].
  destruct (is_space c); [|reflexivity].
  assert (Hne : (List.length (lstrip_by is_space s') =? List.length (c :: s'))%nat = false).
  { apply Nat.eqb_neq. pose proof (lstrip_by_length is_space s'). simpl. lia. }
  rewrite star_cls_greedy with (p := is_space).
  - rewrite Hne, andb_false_r. reflexivity.
  - reflexivity.
  - lia.
  - rewrite Hne, andb_false_r. discriminate.
Qed.

Lemma squeeze_in_run (s : str) : squeeze true s = squeeze false (lstrip s).
Proof.
  induction s as [|c s IH]; simpl; [reflexivity|].
  unfold lstrip in *. simpl.
  destruct (is_space c) eqn:E; [exact IH|].
  simpl. rewrite E. reflexivity.
Qed.

Lemma sub_go_ws_plus :
  forall (n : nat) (s : str) (fuel : nat) (adv : bool) (prev : option char),
    (List.length s <= n)%nat -> (List.length s < fuel)%nat ->
    Re.sub_go ws_plus [SPACE] fuel adv prev s = squeeze false s.
Proof.
  induction n as [|n IH]; intros s fuel adv prev Hn Hf.
  - destruct s; [|simpl in Hn; lia].
    destruct fuel; [lia|]. reflexivity.
  - destruct fuel as [|f]; [lia|].
    simpl Re.sub_go. rewrite match_at_ws_plus.
    destruct s as [|c s']; [reflexivity|].
    simpl in Hn, Hf. simpl squeeze.
    destruct (is_space c).
    + pose proof (lstrip_by_length is_space s') as Hl.
      assert (Hlt : (List.length (lstrip s') <? List.length (c :: s'))%nat = true)
        by (apply Nat.ltb_lt; unfold lstrip; simpl; lia).
      rewrite Hlt. simpl.
      rewrite IH by (unfold lstrip; lia).
      rewrite squeeze_in_run. reflexivity.
    + rewrite IH by lia. reflexivity.
Qed.

(** [re.sub(r'\s+', ' ', s)] replaces each run of whitespace by one space. *)
Lemma sub_ws_plus (s : str) : Re.sub ws_plus [SPACE] s = squeeze false s.
Proof.
  unfold Re.sub. apply sub_go_ws_plus with (n := List.length s); lia.
Qed.

Lemma sub_go_cls_delete (q : char -> bool) :
  forall (s : str) (fuel : nat) (adv : bool) (prev : option char),
    (List.length s < fuel)%nat ->
    Re.sub_go (Re.Cls q) [] fuel adv prev s = filter (fun c => negb (q c)) s.
Proof.
  induction s as [|c s IH]; intros fuel adv prev Hf.
  - destruct fuel; [lia|]. reflexivity.
  - destruct fuel as [|f]; [lia|]. simpl in Hf.
    simpl. unfold Re.match_at. simpl.
    destruct (q c); simpl.
    + assert (Hne : (List.length s =? S (List.length s))%nat = false)
        by (apply Nat.eqb_neq; lia).
      rewrite Hne, andb_false_r.
      assert (Hlt : (List.length s <? S (List.length s))%nat = true)
        by (apply Nat.ltb_lt; lia).
      rewrite Hlt. apply IH. lia.
    + rewrite IH by lia. reflexivity.
Qed.

(** [re.sub(cls, '', s)] for a one-character class deletes its members. *)
Lemma sub_cls_delete (q : char -> bool) (s : str) :
  Re.sub (Re.Cls q) [] s = filter (fun c => negb (q c)) s.
Proof. unfold Re.sub. apply sub_go_cls_delete. lia. Qed.

Lemma LF_is_space : is_space LF = true.
Proof. reflexivity. Qed.

Lemma squeeze_members (b : bool) (s : str) (c : char) :
  In c (squeeze b s) -> c = SPACE \/ (In c s /\ is_space c = false).
Proof.
  revert b. induction s as [|d s IH]; intros b; simpl; [tauto|].
  destruct (is_space d) eqn:E.
  - destruct b; simpl; intros H.
    + destruct (IH _ H) as [?|[? ?]]; auto.
    + destruct H as [H|H]; [auto|].
      destruct (IH _ H) as [?|[? ?]]; auto.
  - simpl. intros [H|H].
    + subst. auto.
    + destruct (IH _ H) as [?|[? ?]]; auto.
Qed.

Lemma squeeze_no_LF (b : bool) (s : str) : ~ In LF (squeeze b s).
Proof.
  intros H. apply squeeze_members in H. destruct H as [H|[_ H]].
  - discriminate.
  - rewrite LF_is_space in H. discriminate.
Qed.

Lemma squeeze_tidy (b : bool) (s : str) : tidy b (squeeze b s) = true.
Proof.
  revert b. induction s as [|c s IH]; intros b; simpl; [reflexivity|].
  destruct (is_space c) eqn:E.
  - destruct b; [apply IH|]. simpl. rewrite IH. reflexivity.
  - simpl. rewrite E. destruct b; [|apply IH].
    apply IH.
Qed.

Lemma tidy_squeeze_fixed (b : bool) (t : str) :
  tidy b t = true -> squeeze b t = t.
Proof.
  revert b. induction t as [|c t IH]; intros b; simpl; [reflexivity|].
  destruct (is_space c) eqn:E.
  - intros H. apply andb_true_iff in H. destruct H as [H Ht].
    apply andb_true_iff in H. destruct H as [Hc Hb].
    apply N.eqb_eq in Hc. apply negb_true_iff in Hb. subst b c.
    rewrite (IH true Ht). reflexivity.
  - intros H. rewrite (IH false H). reflexivity.
Qed.

Lemma tidy_lstrip (b : bool) (t : str) :
  tidy b t = true -> tidy false (lstrip t) = true.
Proof.
  revert b. induction t as [|c t IH]; intros b; simpl; [reflexivity|].
  unfold lstrip in *. simpl. destruct (is_space c) eqn:E.
  - intros H. apply andb_true_iff in H. destruct H as [_ Ht].
    exact (IH true Ht).
  - intros H. simpl. rewrite E. exact H.
Qed.

Lemma tidy_prefix (b : bool) (p q : str) :
  tidy b (p ++ q) = true -> tidy b p = true.
Proof.
  revert b. induction p as [|c p IH]; intros b; simpl; [reflexivity|].
  destruct (is_space c).
  - intros H. apply andb_true_iff in H. destruct H as [H Ht].
    rewrite H. exact (IH true Ht).
  - apply IH.
Qed.

Lemma tidy_strip (t : str) : tidy false t = true -> tidy false (strip t) = true.
Proof.
  intros H. unfold strip, strip_by.
  destruct (rstrip_by_prefix is_space (lstrip_by is_space t)) as [q Hq].
  apply tidy_prefix with (q := q). rewrite <- Hq.
  exact (tidy_lstrip false t H).
Qed.

(** ** The boilerplate stripper *)

Section CleanText.
Variable uni_alnum : char -> bool.

Lemma scrubbed_no_LF (s : str) : ~ In LF (scrubbed uni_alnum s).
Proof.
  unfold scrubbed. intros H. apply filter_In in H.
  destruct H as [H _]. exact (squeeze_no_LF _ _ H).
Qed.

Lemma substitutions_scrub (s : str) :
  Re.sub (disallowed uni_alnum) [] (Re.sub ws_plus [SPACE] s) = scrubbed uni_alnum s.
Proof.
  unfold disallowed, scrubbed. rewrite sub_cls_delete, sub_ws_plus.
  apply filter_ext. intros c. apply negb_involutive.
Qed.

Lemma drop_blank_lines_single (t : str) :
  ~ In LF t -> drop_blank_lines t = strip t.
Proof.
  intros H. unfold drop_blank_lines. rewrite split_single by exact H.
  simpl. destruct (strip t) eqn:E; simpl; [reflexivity | exact E].
Qed.


(** [clean_text] in closed form. *)
Lemma clean_text_eq (s : str) :
  clean_text uni_alnum s = strip (scrubbed uni_alnum s).
Proof.
  unfold clean_text. cbv zeta. rewrite substitutions_scrub.
  rewrite drop_blank_lines_single by apply scrubbed_no_LF.
  apply strip_idem.
Qed.

Lemma SPACE_allowed : allowed uni_alnum SPACE = true.
Proof. reflexivity. Qed.

Lemma squeeze_allowed (b : bool) (s : str) :
  Forall (fun c => allowed uni_alnum c = true) s ->
  Forall (fun c => allowed uni_alnum c = true) (squeeze b s).
Proof.
  intros H. apply Forall_forall. intros c Hc.
  apply squeeze_members in Hc. destruct Hc as [->|[Hc _]].
  - apply SPACE_allowed.
  - rewrite Forall_forall in H. exact (H c Hc).
Qed.

Lemma clean_text_allowed (s : str) :
  Forall (fun c => allowed uni_alnum c = true) (clean_text uni_alnum s).
Proof.
  rewrite clean_text_eq. apply Forall_forall. intros c Hc.
  apply strip_incl in Hc. unfold scrubbed in Hc. apply filter_In in Hc.
  exact (proj2 Hc).
Qed.

(** On a text without characters to delete, [clean_text] is
    [strip] after the whitespace substitution. *)
Lemma clean_text_of_allowed (s : str) :
  Forall (fun c => allowed uni_alnum c = true) s ->
  clean_text uni_alnum s = strip (squeeze false s).
Proof.
  intros H. rewrite clean_text_eq. unfold scrubbed.
  rewrite filter_all by (apply squeeze_allowed; exact H). reflexivity.
Qed.

(** C6: [clean_text] maps "Hello,   World!!\n\n\nAds here$$$" to
    "Hello, World!! Ads here", whatever the Unicode tables say outside
    ASCII. *)
Theorem clean_text_hello :
  clean_text uni_alnum hello_input = py "Hello, World!! Ads here".
Proof. vm_compute. reflexivity. Qed.


(** C3: [clean_text] is not idempotent.  On "a $ b" the first
    substitution finds no run to shorten, the second deletes the dollar sign
    and leaves two adjacent spaces, and a second pass merges them. *)
Theorem clean_text_twice_differs :
  clean_text uni_alnum (py "a $ b") = py "a  b"
  /\ clean_text uni_alnum (clean_text uni_alnum (py "a $ b")) = py "a b"
  /\ clean_text uni_alnum (clean_text uni_alnum (py "a $ b"))
     <> clean_text uni_alnum (py "a $ b").
Proof.
  repeat split; try (vm_compute; reflexivity).
  vm_compute. discriminate.
Qed.

(** On such a text a second pass of [clean_text] changes nothing. *)
Lemma clean_text_fixed_on_allowed (s : str) :
  Forall (fun c => allowed uni_alnum c = true) s ->
  clean_text uni_alnum (clean_text uni_alnum s) = clean_text uni_alnum s.
Proof.
  intros H.
  rewrite (clean_text_of_allowed (clean_text uni_alnum s))
    by apply clean_text_allowed.
  rewrite (clean_text_of_allowed s H).
  rewrite (tidy_squeeze_fixed false (strip (squeeze false s))).
  - apply strip_idem.
  - apply tidy_strip, squeeze_tidy.
Qed.

(** X1: [clean_text] is idempotent on every text all of whose characters
    are in the allowed set: word characters, whitespace and [.,!?-]. *)
Theorem clean_text_idempotent_on_allowed (s : str) :
  Forall (fun c => allowed uni_alnum c = true) s ->
  clean_text uni_alnum (clean_text uni_alnum s) = clean_text uni_alnum s.
Proof. exact (clean_text_fixed_on_allowed s). Qed.

(** X2: two passes of [clean_text] reach a fixed point: a third pass
    changes nothing, on any text. *)
Theorem clean_text_third_pass (s : str) :
  clean_text uni_alnum (clean_text uni_alnum (clean_text uni_alnum s))
  = clean_text uni_alnum (clean_text uni_alnum s).
Proof. apply clean_text_fixed_on_allowed, clean_text_allowed. Qed.

End CleanText.

(** X1 on the output of the specification's example. *)
Lemma clean_text_idempotent_on_allowed_witness :
  clean_text ascii_only (clean_text ascii_only (py "Hello, World!! Ads here"))
  = clean_text ascii_only (py "Hello, World!! Ads here").
Proof.
  apply (clean_text_idempotent_on_allowed ascii_only
           (py "Hello, World!! Ads here")).
  vm_compute. repeat constructor.
Defined.

(** ** Facts about computations *)

Lemma io_eta {A : Type} (m : io A) : m = (trace m, outcome m).
Proof. destruct m; reflexivity. Qed.

Lemma outcome_bind {A B : Type} (m : io A) (f : A -> io B) :
  outcome (bind m f) =
  match outcome m with
  | inl e => inl e
  | inr a => outcome (f a)
  end.
Proof.
  destruct m as [t [e|a]]; simpl; [reflexivity|].
  unfold outcome. simpl. destruct (f a). reflexivity.
Qed.

Lemma trace_bind {A B : Type} (m : io A) (f : A -> io B) :
  trace (bind m f) =
  trace m ++ match outcome m with
             | inl _ => []
             | inr a => trace (f a)
             end.
Proof.
  destruct m as [t [e|a]]; simpl.
  - rewrite app_nil_r. reflexivity.
  - unfold trace. simpl. destruct (f a). reflexivity.
Qed.

Lemma outcome_try_except {A : Type} (m : io A) (h : exn -> io A) :
  outcome (try_except m h) =
  match outcome m with
  | inl e => outcome (h e)
  | inr a => inr a
  end.
Proof.
  destruct m as [t [e|a]]; simpl; [|reflexivity].
  unfold outcome. simpl. destruct (h e). reflexivity.
Qed.

Lemma trace_try_except {A : Type} (m : io A) (h : exn -> io A) :
  trace (try_except m h) =
  trace m ++ match outcome m with
             | inl e => trace (h e)
             | inr _ => []
             end.
Proof.
  destruct m as [t [e|a]]; simpl.
  - unfold trace. simpl. destruct (h e). reflexivity.
  - rewrite app_nil_r. reflexivity.
Qed.

Lemma outcome_finally {A : Type} (m : io A) (f : io unit) :
  outcome (finally m f) =
  match outcome f with
  | inl e => inl e
  | inr _ => outcome m
  end.
Proof. destruct m as [t r], f as [t' [e|u]]; reflexivity. Qed.

Lemma trace_finally {A : Type} (m : io A) (f : io unit) :
  trace (finally m f) = trace m ++ trace f.
Proof. destruct m as [t r], f as [t' [e|u]]; reflexivity. Qed.

Lemma cleanup_calls_app (a b : list event) :
  cleanup_calls (a ++ b) = cleanup_calls a ++ cleanup_calls b.
Proof.
  induction a as [|ev a IH]; simpl; [reflexivity|].
  destruct ev; simpl; rewrite IH; reflexivity.
Qed.

Lemma gather_cons {A : Type} (t : io A) (tasks : list (io A)) :
  gather (t :: tasks)
  = (trace t ++ trace (gather tasks),
     match outcome t, outcome (gather tasks) with
     | inl e, _ => inl e
     | inr _, inl e => inl e
     | inr x, inr xs => inr (x :: xs)
     end).
Proof. cbn [gather]. destruct (gather tasks) as [events results]. reflexivity. Qed.

Lemma gather_outcome {A : Type} (tasks : list (io A)) :
  outcome (gather tasks) = collect (map outcome tasks).
Proof.
  induction tasks as [|t tasks IH]; [reflexivity|].
  rewrite gather_cons. cbn [outcome snd map collect]. fold (outcome t).
  rewrite <- IH.
  destruct (outcome t) as [e|a]; [reflexivity|].
  destruct (outcome (gather tasks)); reflexivity.
Qed.

(** The events of a batch are those of its tasks, one task after another. *)
Lemma gather_trace {A : Type} (tasks : list (io A)) :
  trace (gather tasks) = List.concat (map trace tasks).
Proof.
  induction tasks as [|t tasks IH]; [reflexivity|].
  rewrite gather_cons. cbn [trace fst map List.concat]. fold (trace t).
  rewrite <- IH. reflexivity.
Qed.

(** ** Link discovery *)

Section LinkDiscovery.
Variable uni_lower : str -> str.
Variable urljoin : str -> str -> exn + str.
Variable urlparse : str -> exn + parsed_url.

Lemma existsb_str_eqb_false (x : str) (l : list str) :
  existsb (str_eqb x) l = false -> ~ In x l.
Proof.
  intros H Hin. assert (existsb (str_eqb x) l = true) as E.
  { apply existsb_exists. exists x. split; [exact Hin | apply str_eqb_refl]. }
  congruence.
Qed.

(** The loop of [find_linked_pages]: what it returns extends the list it
    started from by links that resolve, in order, some of the anchors still
    to visit; they have the base's host, repeat no URL and respect the cap. *)
Lemma link_loop_spec (url base_domain : str) (max_pages : Z) :
  forall (rest : list (str * str)) (acc ls : list link),
    link_loop urljoin urlparse url base_domain max_pages rest acc = inr ls ->
    exists (new : list link) (picked : list (str * str)),
      ls = acc ++ new
      /\ subseq picked rest
      /\ Forall2 (resolves urljoin url) new picked
      /\ Forall (same_host urlparse base_domain) new
      /\ (NoDup (map link_url acc) -> NoDup (map link_url ls))
      /\ ((Z.of_nat (List.length acc) < max_pages)%Z ->
          (Z.of_nat (List.length ls) <= max_pages)%Z).
Proof.
  induction rest as [|[href txt] rest IH]; intros acc ls H; simpl in H.
  - inversion H; subst ls. exists [], [].
    rewrite app_nil_r. repeat split; try constructor; auto. lia.
  - destruct (urljoin url href) as [e|absolute_url] eqn:Ej; [discriminate|].
    destruct (urlparse absolute_url) as [e|p] eqn:Ep; [discriminate|].
    destruct (str_eqb (netloc p) base_domain
              && negb (existsb (str_eqb absolute_url) (map link_url acc)))
      eqn:Ecut.
    + apply andb_true_iff in Ecut. destruct Ecut as [Eh En].
      apply str_eqb_eq in Eh. apply negb_true_iff in En.
      apply existsb_str_eqb_false in En.
      set (l := {| link_url := absolute_url; link_text := txt |}) in *.
      assert (Hl : resolves urljoin url l (href, txt)) by (split; [exact Ej | reflexivity]).
      assert (Hh : same_host urlparse base_domain l) by (exists p; split; assumption).
      assert (Hnd : NoDup (map link_url acc) -> NoDup (map link_url (acc ++ [l]))).
      { intros Hacc. rewrite map_app. simpl.
        apply NoDup_rev in Hacc. rewrite <- (rev_involutive (_ ++ _)).
        apply NoDup_rev. rewrite rev_app_distr. simpl.
        constructor; [|exact Hacc].
        intros Hin. apply in_rev in Hin. exact (En Hin). }
      destruct (max_pages <=? Z.of_nat (List.length (acc ++ [l])))%Z eqn:Ecap.
      * inversion H; subst ls. exists [l], [(href, txt)].
        repeat split.
        -- apply subseq_take, subseq_nil_l.
        -- constructor; [exact Hl | constructor].
        -- constructor; [exact Hh | constructor].
        -- exact Hnd.
        -- rewrite length_app. simpl. lia.
      * apply IH in H.
        destruct H as (new & picked & -> & Hsub & Hres & Hhost & Hdup & Hlen).
        exists (l :: new), ((href, txt) :: picked).
        rewrite <- app_assoc in *. simpl in *. repeat split.
        -- apply subseq_take. exact Hsub.
        -- constructor; assumption.
        -- constructor; assumption.
        -- intros Hacc. apply Hdup, Hnd, Hacc.
        -- intros _. apply Hlen. apply Z.leb_gt in Ecap.
           rewrite length_app in Ecap. simpl in Ecap. rewrite length_app. simpl. lia.
    + apply IH in H.
      destruct H as (new & picked & -> & Hsub & Hres & Hhost & Hdup & Hlen).
      exists new, picked. repeat split; auto.
      apply subseq_skip. exact Hsub.
Qed.

(** [find_linked_pages] by cases on what its [try] body meets. *)
Lemma find_linked_pages_cases (w : world) (url : str) (max_pages : Z) :
  outcome (find_linked_pages urljoin urlparse w url max_pages) =
  match http_get w url with
  | inl _ => inr []
  | inr page =>
      match urlparse url with
      | inl _ => inr []
      | inr base =>
          match link_loop urljoin urlparse url (netloc base) max_pages
                  (nav_links page) [] with
          | inl _ => inr []
          | inr ls => inr ls
          end
      end
  end.
Proof.
  unfold find_linked_pages, discover_links, outcome, try_except, bind, emit,
    lift, ret.
  destruct (http_get w url) as [e|page]; simpl.
  - destruct e; reflexivity.
  - destruct (urlparse url) as [e|base]; simpl.
    + destruct e; reflexivity.
    + destruct (link_loop _ _ _ _ _ _ _) as [e|ls]; simpl.
      * destruct e; reflexivity.
      * reflexivity.
Qed.

(** Every link [find_linked_pages] returns resolves an anchor of the
    list link discovery collected. *)
Lemma find_linked_pages_from (w : world) (url : str) (max_pages : Z)
    (page : soup) (ls : list link) :
  http_get w url = inr page ->
  outcome (find_linked_pages urljoin urlparse w url max_pages) = inr ls ->
  Forall (fun l => exists anchor,
            In anchor (nav_links page) /\ resolves urljoin url l anchor) ls.
Proof.
  intros Hg. rewrite find_linked_pages_cases, Hg.
  destruct (urlparse url) as [e|base];
    [intros H; inversion H; constructor|].
  destruct (link_loop urljoin urlparse url (netloc base) max_pages
              (nav_links page) []) as [e|ls'] eqn:El;
    intros H; inversion H; subst; [constructor|].
  apply link_loop_spec in El.
  destruct El as (new & picked & -> & Hsub & Hres & _).
  simpl. apply Forall_forall. intros l Hl.
  destruct (Forall2_In_left _ _ _ _ _ _ Hres Hl) as (anchor & Hin & Hr).
  exists anchor. split; [|exact Hr].
  exact (subseq_In _ _ _ _ Hsub Hin).
Qed.

(** C7, as amended: the list link discovery works on is the anchors found
    inside the [<nav>] elements when there is at least one such anchor, and
    otherwise -- in particular on a page without [<nav>] -- the anchors of the
    first [<header>] followed by those of the first [<footer>].  So on every
    page whose [<nav>] elements hold an anchor with an [href], the anchors of
    [<header>] and [<footer>] are not used: every link [find_linked_pages]
    returns resolves an anchor inside a [<nav>]. *)
Theorem nav_links_source (page : soup) :
  (forall anchor, In anchor (nav_anchor_links page) <->
     exists nav, In nav (find_all (py "nav") page) /\ In anchor (anchors nav))
  /\ (nav_anchor_links page <> [] -> nav_links page = nav_anchor_links page)
  /\ (nav_anchor_links page = [] -> nav_links page = header_footer_links page)
  /\ (find_all (py "nav") page = [] -> nav_links page = header_footer_links page)
  /\ (forall w url max_pages ls,
        nav_anchor_links page <> [] ->
        http_get w url = inr page ->
        outcome (find_linked_pages urljoin urlparse w url max_pages) = inr ls ->
        Forall (fun l => exists nav anchor,
                  In nav (find_all (py "nav") page)
                  /\ In anchor (anchors nav)
                  /\ resolves urljoin url l anchor) ls).
Proof.
  assert (Hnav : nav_anchor_links page <> [] ->
                 nav_links page = nav_anchor_links page).
  { unfold nav_links.
    destruct (nav_anchor_links page); [congruence | reflexivity]. }
  split; [|split; [|split; [|split]]].
  - intros anchor. unfold nav_anchor_links. apply in_flat_map.
  - exact Hnav.
  - unfold nav_links. intros ->. reflexivity.
  - unfold nav_links, nav_anchor_links. intros ->. reflexivity.
  - intros w url max_pages ls Hne Hg Hls.
    pose proof (find_linked_pages_from w url max_pages page ls Hg Hls) as H.
    rewrite (Hnav Hne) in H.
    eapply Forall_impl; [|exact H].
    intros l (anchor & Hin & Hr).
    unfold nav_anchor_links in Hin. apply in_flat_map in Hin.
    destruct Hin as (nav & Hnavin & Ha). exists nav, anchor. auto.
Qed.


Lemma discover_links_trace (w : world) (url : str) (max_pages : Z) :
  trace (discover_links urljoin urlparse w url max_pages) = [HttpGet url].
Proof.
  unfold discover_links, trace, bind, emit, lift.
  destruct (http_get w url) as [e|page]; simpl; [reflexivity|].
  destruct (urlparse url) as [e|base]; simpl; [reflexivity|].
  reflexivity.
Qed.

Lemma discover_links_fetch_failure (w : world) (url : str) (max_pages : Z)
    (e : exn) :
  http_get w url = inl e ->
  outcome (discover_links urljoin urlparse w url max_pages) = inl e.
Proof.
  intros H. unfold discover_links, outcome, bind, emit, lift. rewrite H.
  reflexivity.
Qed.

Lemma find_linked_pages_failure (w : world) (url : str) (max_pages : Z)
    (e : exn) :
  outcome (discover_links urljoin urlparse w url max_pages) = inl e ->
  find_linked_pages urljoin urlparse w url max_pages
  = ([HttpGet url; Printed (discovery_report url e)], inr []).
Proof.
  intros H. unfold find_linked_pages.
  rewrite (io_eta (discover_links urljoin urlparse w url max_pages)).
  rewrite H, discover_links_trace. unfold try_except.
  destruct e; reflexivity.
Qed.

End LinkDiscovery.

(** C7, as stated, fails: this page contains a [<nav>] element, and link
    discovery still takes the anchor of its [<header>]. *)
Lemma nav_present_header_used :
  find_all (py "nav") empty_nav_page = [Elem (py "nav") [] []]
  /\ nav_anchor_links empty_nav_page = []
  /\ nav_links empty_nav_page = [(py "/h", py "H")].
Proof. repeat split; vm_compute; reflexivity. Qed.

(** The two cases of C7 on the example pages. *)
Lemma nav_links_source_witness :
  nav_links site_page = nav_anchor_links site_page
  /\ nav_links empty_nav_page = header_footer_links empty_nav_page.
Proof.
  split.
  - destruct (nav_links_source example_urljoin example_urlparse site_page)
      as (_ & H & _).
    apply H. vm_compute. discriminate.
  - destruct (nav_links_source example_urljoin example_urlparse empty_nav_page)
      as (_ & _ & H & _).
    apply H. vm_compute. reflexivity.
Defined.



(** ** The remote cleanup call *)

Lemma cleaning_failure_tagged (e : exn) :
  exists msg, cleaning_failure e = cleaning_error ++ msg.
Proof.
  destruct e as [m|m|m]; simpl; try (eexists; reflexivity).
  destruct (rate_limited m).
  - exists (py "API rate limit - please try again later."). reflexivity.
  - eexists; reflexivity.
Qed.

Section Cleanup.
Variable uni_lower : str -> str.

Lemma ask_genai_outcome (w : world) (text : str) :
  outcome (ask_genai uni_lower w text) =
  match api_key w with
  | None => inl (OtherException (py "'GEMINI_API_KEY'"))
  | Some _ =>
      match generate_content w (prompt text) with
      | inl e => inl e
      | inr response_text =>
          inr (if contains refusal_marker (lower uni_lower response_text)
               then content_extraction_error else response_text)
      end
  end.
Proof.
  unfold ask_genai, environ_api_key, outcome, bind, lift, emit.
  destruct (api_key w); simpl; [|reflexivity].
  destruct (generate_content w (prompt text)) as [e|t]; simpl; [reflexivity|].
  destruct (contains refusal_marker (lower uni_lower t)); reflexivity.
Qed.

Lemma clean_with_genai_outcome (w : world) (text : str) :
  outcome (clean_with_genai uni_lower w text) =
  match outcome (ask_genai uni_lower w text) with
  | inl e => inr (cleaning_failure e)
  | inr s => inr s
  end.
Proof.
  unfold clean_with_genai.
  rewrite (io_eta (ask_genai uni_lower w text)).
  destruct (outcome (ask_genai uni_lower w text)) as [e|s]; simpl.
  - destruct e as [m|m|m]; simpl; try reflexivity.
    destruct (rate_limited m); reflexivity.
  - reflexivity.
Qed.

Lemma clean_with_genai_v1_outcome (w : world) (text : str) :
  outcome (clean_with_genai_v1 uni_lower w text) =
  match outcome (ask_genai uni_lower w text) with
  | inl e => inr (cleaning_error ++ exn_str e)
  | inr s => inr s
  end.
Proof.
  unfold clean_with_genai_v1.
  rewrite (io_eta (ask_genai uni_lower w text)).
  destruct (outcome (ask_genai uni_lower w text)) as [e|s]; reflexivity.
Qed.

Lemma clean_with_genai_returns (w : world) (text : str) :
  outcome (clean_with_genai uni_lower w text) = inr (cleaned uni_lower w text).
Proof.
  rewrite clean_with_genai_outcome. unfold cleaned.
  destruct (outcome (ask_genai uni_lower w text)); reflexivity.
Qed.

(** C4, as amended: when the endpoint answers, [clean_with_genai] returns
    the answer verbatim unless its lower-cased text contains "provide the
    actual scraped content", and then the fixed "CONTENT EXTRACTION ERROR"
    string.  When the call fails (the endpoint raises, or the API key is
    missing) it returns a string that starts with "CLEANING ERROR: ":
    in [streamlitV3.py] the fixed rate-limit string for a
    [ResourceExhausted] whose message holds "429" or "Resource has been
    exhausted", and otherwise -- and always in [streamlit.py] and
    [streamlitV2.py], whose [clean_with_genai] is [clean_with_genai_v1] -- the tag
    followed by the exception's message.  It never raises. *)
Theorem clean_with_genai_reply (w : world) (text : str) :
  let v3 := outcome (clean_with_genai uni_lower w text) in
  let v1 := outcome (clean_with_genai_v1 uni_lower w text) in
  (forall key response_text,
     api_key w = Some key ->
     generate_content w (prompt text) = inr response_text ->
     (contains refusal_marker (lower uni_lower response_text) = false ->
      v3 = inr response_text /\ v1 = inr response_text)
     /\ (contains refusal_marker (lower uni_lower response_text) = true ->
         v3 = inr content_extraction_error
         /\ v1 = inr content_extraction_error))
  /\ (forall key e,
        api_key w = Some key ->
        generate_content w (prompt text) = inl e ->
        v3 = inr (cleaning_failure e)
        /\ v1 = inr (cleaning_error ++ exn_str e)
        /\ (exists msg, cleaning_failure e = cleaning_error ++ msg)
        /\ (forall m, e = ResourceExhausted m -> rate_limited m = true ->
            v3 = inr cleaning_rate_limit))
  /\ (api_key w = None ->
      v3 = inr (cleaning_error ++ py "'GEMINI_API_KEY'")
      /\ v1 = inr (cleaning_error ++ py "'GEMINI_API_KEY'"))
  /\ (exists s, v3 = inr s) /\ (exists s, v1 = inr s).
Proof.
  cbv zeta.
  rewrite clean_with_genai_outcome, clean_with_genai_v1_outcome,
    ask_genai_outcome.
  split; [|split; [|split; [|split]]].
  - intros key t -> ->. split; intros ->; auto.
  - intros key e -> ->. repeat split.
    + apply cleaning_failure_tagged.
    + intros m -> Hm. simpl. rewrite Hm. reflexivity.
  - intros ->. auto.
  - destruct (api_key w); [|eexists; reflexivity].
    destruct (generate_content w (prompt text)); eexists; reflexivity.
  - destruct (api_key w); [|eexists; reflexivity].
    destruct (generate_content w (prompt text)); eexists; reflexivity.
Qed.

End Cleanup.

(** C4, as stated, fails: the endpoint answers, and [clean_with_genai]
    returns another string than the answer; and in [streamlit.py] (as in
    [streamlitV2.py]) quota exhaustion gets the generic tagged string, not
    one of its own. *)
Lemma clean_with_genai_not_verbatim :
  (forall uni_lower text,
     generate_content refusing_world (prompt text) = inr refusal
     /\ outcome (clean_with_genai uni_lower refusing_world text)
        = inr content_extraction_error)
  /\ content_extraction_error <> refusal
  /\ (forall uni_lower text,
        outcome (clean_with_genai_v1 uni_lower exhausted_world text)
        = inr (cleaning_error ++ quota_message)).
Proof.
  split; [|split].
  - intros uni_lower text. split; [reflexivity|].
    rewrite clean_with_genai_outcome, ask_genai_outcome. reflexivity.
  - vm_compute. discriminate.
  - intros uni_lower text.
    rewrite clean_with_genai_v1_outcome, ask_genai_outcome. reflexivity.
Qed.

(** C4 on an endpoint that cleans, one that refuses and one out of quota. *)
Lemma clean_with_genai_reply_witness :
  outcome (clean_with_genai as_is site_world (py "Hi")) = inr (py "cleaned")
  /\ outcome (clean_with_genai as_is refusing_world (py "Hi"))
     = inr content_extraction_error
  /\ outcome (clean_with_genai as_is exhausted_world (py "Hi"))
     = inr cleaning_rate_limit.
Proof.
  split; [|split].
  - destruct (clean_with_genai_reply as_is site_world (py "Hi")) as [H _].
    destruct (H (py "key") (py "cleaned") eq_refl eq_refl) as [Hv _].
    apply Hv. vm_compute. reflexivity.
  - destruct (clean_with_genai_reply as_is refusing_world (py "Hi")) as [H _].
    destruct (H (py "key") refusal eq_refl eq_refl) as [_ Hv].
    apply Hv. vm_compute. reflexivity.
  - destruct (clean_with_genai_reply as_is exhausted_world (py "Hi"))
      as (_ & H & _).
    destruct (H (py "key") (ResourceExhausted quota_message) eq_refl eq_refl)
      as (_ & _ & _ & Hv).
    apply (Hv quota_message eq_refl). vm_compute. reflexivity.
Defined.

(** ** The page pipelines *)

Lemma shutdown_trace_quiet (w : world) :
  cleanup_calls (trace (shutdown w)) = [].
Proof. unfold shutdown. destruct (shutdown_channel w); reflexivity. Qed.

Lemma shutdown_outcome_cases (w : world) :
  outcome (shutdown w) =
  match shutdown_channel w with
  | ShutdownRaises e => inl e
  | _ => inr tt
  end.
Proof. unfold shutdown. destruct (shutdown_channel w); reflexivity. Qed.

Lemma agent_failed_outcome (e : exn) :
  outcome (agent_failed e) = inr (false, extraction_failure e).
Proof.
  destruct e as [m|m|m]; try reflexivity.
  simpl. destruct (rate_limited m); reflexivity.
Qed.

Lemma extraction_failure_plain (e : exn) :
  quota_hit e = false ->
  extraction_failure e = py "Error during agent-based extraction: " ++ exn_str e.
Proof.
  destruct e as [m|m|m]; simpl; try reflexivity.
  intros ->. reflexivity.
Qed.

Lemma agent_failed_quiet (e : exn) :
  cleanup_calls (trace (agent_failed e)) = [].
Proof.
  destruct e as [m|m|m]; try reflexivity.
  simpl. destruct (rate_limited m); reflexivity.
Qed.

Section Pipelines.
Variable uni_alnum : char -> bool.
Variable uni_lower : str -> str.
Variable urlparse : str -> exn + parsed_url.

Lemma run_agent_outcome (w : world) (url : str) :
  outcome (run_agent uni_lower w url) =
  match agent_run w url with
  | inl e => inl e
  | inr result =>
      let initial_clean := initial_clean_of result in
      if (len initial_clean <? MIN_CONTENT_LENGTH)%nat
      then inr (false, insufficient_content)
      else inr (true, cleaned uni_lower w initial_clean)
  end.
Proof.
  unfold run_agent. rewrite !outcome_bind. simpl outcome at 1.
  unfold lift at 1. simpl outcome at 1.
  destruct (agent_run w url) as [e|result]; [reflexivity|].
  cbv zeta.
  destruct (len (initial_clean_of result) <? MIN_CONTENT_LENGTH)%nat;
    [reflexivity|].
  rewrite outcome_bind, clean_with_genai_returns. reflexivity.
Qed.

Lemma extract_content_with_agent_outcome (w : world) (url : str) :
  outcome (extract_content_with_agent uni_lower w url) =
  match new_chat_model w with
  | inl e => inl e
  | inr _ =>
      match shutdown_channel w with
      | ShutdownRaises e => inl e
      | _ => inr (agent_verdict uni_lower w url)
      end
  end.
Proof.
  unfold extract_content_with_agent.
  rewrite outcome_bind. unfold lift at 1. simpl outcome at 1.
  destruct (new_chat_model w) as [e|u]; [reflexivity|].
  rewrite outcome_finally, shutdown_outcome_cases.
  rewrite outcome_try_except, run_agent_outcome. unfold agent_verdict.
  destruct (shutdown_channel w); try reflexivity;
    destruct (agent_run w url) as [e|result]; cbv zeta;
    rewrite ?agent_failed_outcome; try reflexivity;
    destruct (len (initial_clean_of result) <? MIN_CONTENT_LENGTH)%nat;
    reflexivity.
Qed.

(** A short text ends [run_agent] before the cleanup step. *)
Lemma run_agent_short_trace (w : world) (url : str) (result : extracted) :
  agent_run w url = inr result ->
  (len (initial_clean_of result) < MIN_CONTENT_LENGTH)%nat ->
  trace (run_agent uni_lower w url) = [AgentRun url].
Proof.
  intros Hr Hs. apply Nat.ltb_lt in Hs.
  unfold run_agent, trace, bind, emit, lift. rewrite Hr. cbv zeta.
  rewrite Hs. reflexivity.
Qed.

(** C1, as amended: each pipeline rejects a text whose stripped form is
    shorter than [MIN_CONTENT_LENGTH] with the insufficient-content message
    and without a call of the cleanup step.  In [extract_content] the
    stripped form is [clean_text] of the text taken from the page; in
    [extract_content_with_agent], where [clean_text] is not applied, it is
    the agent's output without its log lines, trimmed: in [streamlitV3.py]
    and, whatever the menu item, in [streamlitV2.py].  (An agent pipeline
    returns unless building the chat model or the [finally] block raises.) *)
Theorem short_content_rejected (w : world) (url : str) :
  (forall response main_content,
     http_get w url = inr response ->
     main_content_of (decompose response) = inr main_content ->
     (len (clean_text uni_alnum main_content) < MIN_CONTENT_LENGTH)%nat ->
     extract_content uni_alnum uni_lower w url
     = ([HttpGet url], inr (false, insufficient_content)))
  /\ (forall result,
        agent_run w url = inr result ->
        (len (initial_clean_of result) < MIN_CONTENT_LENGTH)%nat ->
        cleanup_calls (trace (extract_content_with_agent uni_lower w url)) = []
        /\ outcome (extract_content_with_agent uni_lower w url)
           = match new_chat_model w with
             | inl e => inl e
             | inr _ =>
                 match shutdown_channel w with
                 | ShutdownRaises e => inl e
                 | _ => inr (false, insufficient_content)
                 end
             end)
  /\ (forall (v2 : menu_world) (navigate_menu_item : option str) result,
        run_extraction v2 (V2.extraction_call url navigate_menu_item)
        = inr result ->
        (len (initial_clean_of result) < MIN_CONTENT_LENGTH)%nat ->
        cleanup_calls
          (trace (V2.extract_content_with_agent uni_lower v2 url
                    navigate_menu_item)) = []
        /\ outcome (V2.extract_content_with_agent uni_lower v2 url
                      navigate_menu_item)
           = match new_chat_model (services v2) with
             | inl e => inl e
             | inr _ =>
                 match shutdown_channel (services v2) with
                 | ShutdownRaises e => inl e
                 | _ => inr (false, insufficient_content)
                 end
             end).
Proof.
  split; [|split].
  - intros response main_content Hg Hm Hs. apply Nat.ltb_lt in Hs.
    unfold extract_content, fetch_and_clean, try_except, bind, emit, lift.
    rewrite Hg. cbv zeta. rewrite Hm, Hs. reflexivity.
  - intros result Hr Hs. split.
    + unfold extract_content_with_agent. rewrite trace_bind.
      unfold lift at 1 2. simpl trace at 1. simpl outcome at 1.
      destruct (new_chat_model w) as [e|u]; [reflexivity|].
      rewrite trace_finally, trace_try_except, !cleanup_calls_app.
      rewrite (run_agent_short_trace _ _ _ Hr Hs), shutdown_trace_quiet.
      rewrite run_agent_outcome, Hr. cbv zeta.
      apply Nat.ltb_lt in Hs. rewrite Hs. reflexivity.
    + rewrite extract_content_with_agent_outcome. unfold agent_verdict.
      rewrite Hr. cbv zeta. apply Nat.ltb_lt in Hs. rewrite Hs. reflexivity.
  - intros v2 item result Hr Hs. apply Nat.ltb_lt in Hs.
    unfold V2.extract_content_with_agent, V2.run_agent, shutdown, finally,
      try_except, bind, emit, lift, ret, raise, trace, outcome.
    rewrite Hr. cbv zeta. rewrite Hs.
    destruct (new_chat_model (services v2)) as [e|u];
      [split; reflexivity|].
    destruct (shutdown_channel (services v2)); split; reflexivity.
Qed.

Lemma extract_content_fetch_failure (w : world) (url : str) (e : exn) :
  http_get w url = inl e ->
  extract_content uni_alnum uni_lower w url
  = ([HttpGet url], inr (false, fetch_failure e)).
Proof.
  intros H.
  unfold extract_content, fetch_and_clean, try_except, bind, emit, lift.
  rewrite H. destruct e; reflexivity.
Qed.

Lemma process_page_outcome (w : world) (page_url : str) :
  outcome (process_page uni_lower urlparse w page_url) =
  match outcome (extract_content_with_agent uni_lower w page_url) with
  | inl e => inl e
  | inr verdict =>
      match urlparse page_url with
      | inl e => inl e
      | inr parsed => inr (page_entry page_url parsed verdict)
      end
  end.
Proof.
  unfold process_page. rewrite outcome_bind.
  destruct (outcome (extract_content_with_agent uni_lower w page_url))
    as [e|[success content]]; [reflexivity|].
  rewrite outcome_bind. unfold lift at 1. simpl outcome at 1.
  destruct (urlparse page_url) as [e|parsed]; [reflexivity|].
  unfold page_entry. destruct success; reflexivity.
Qed.

(** A failure of the agent on [u] leaves the pipeline of another page as
    it was, events included. *)
Lemma process_page_sibling (w : world) (u v : str) (e : exn) :
  v <> u ->
  process_page uni_lower urlparse (agent_fails w u e) v
  = process_page uni_lower urlparse w v.
Proof.
  intros Hv.
  assert (E : str_eqb v u = false).
  { destruct (str_eqb v u) eqn:E; [|reflexivity].
    apply str_eqb_eq in E. contradiction. }
  unfold process_page, extract_content_with_agent, run_agent, agent_fails.
  simpl. rewrite E. reflexivity.
Qed.

(** Whether the pipeline of a page raises does not depend on the agent. *)
Lemma process_page_raises_alike (w : world) (u v : str) (e : exn) :
  match outcome (process_page uni_lower urlparse (agent_fails w u e) v),
        outcome (process_page uni_lower urlparse w v) with
  | inl e1, inl e2 => e1 = e2
  | inr _, inr _ => True
  | _, _ => False
  end.
Proof.
  rewrite !process_page_outcome, !extract_content_with_agent_outcome.
  simpl new_chat_model. simpl shutdown_channel.
  destruct (new_chat_model w); [reflexivity|].
  destruct (shutdown_channel w); try reflexivity;
    destruct (urlparse v); try reflexivity; exact I.
Qed.

Lemma process_page_agent_failure (w : world) (page_url : str) (e : exn)
    (parsed : parsed_url) :
  agent_run w page_url = inl e ->
  urlparse page_url = inr parsed ->
  new_chat_model w = inr tt ->
  (forall e', shutdown_channel w <> ShutdownRaises e') ->
  outcome (process_page uni_lower urlparse w page_url)
  = inr (or_else (strip_char 0x2F (path parsed)) (py "Error Page"),
         failed_page_text page_url e).
Proof.
  intros Ha Hp Hm Hs.
  rewrite process_page_outcome, extract_content_with_agent_outcome, Hm, Hp.
  unfold agent_verdict. rewrite Ha.
  destruct (shutdown_channel w) as [| |e'] eqn:E; try reflexivity.
  exfalso. exact (Hs e' eq_refl).
Qed.

(** Two batches over the same pages whose pipelines raise alike: both are
    aborted by the same exception, or both finish with one result per page,
    the same wherever the two pipelines are the same. *)
Lemma collect_alike {A : Type} (same : str -> Prop)
    (f g : str -> exn + A) (urls : list str) :
  (forall v, match f v, g v with
             | inl e1, inl e2 => e1 = e2
             | inr _, inr _ => True
             | _, _ => False
             end) ->
  (forall v, same v -> f v = g v) ->
  match collect (map f urls), collect (map g urls) with
  | inl e1, inl e2 => e1 = e2
  | inr rs1, inr rs2 =>
      List.length rs1 = List.length urls
      /\ List.length rs2 = List.length urls
      /\ forall i v, nth_error urls i = Some v -> same v ->
                     nth_error rs1 i = nth_error rs2 i
  | _, _ => False
  end.
Proof.
  intros Hraise Hsame. induction urls as [|v urls IH]; simpl.
  - repeat split.
  - pose proof (Hraise v) as Hv. pose proof (Hsame v) as Hsv.
    destruct (f v) as [e1|a1], (g v) as [e2|a2]; try contradiction; [exact Hv|].
    destruct (collect (map f urls)) as [e1|rs1],
             (collect (map g urls)) as [e2|rs2]; try contradiction; [exact IH|].
    destruct IH as (L1 & L2 & IH). simpl. repeat split; try congruence.
    intros i v' Hi Hs. destruct i as [|i]; simpl in *.
    + inversion Hi; subst v'. specialize (Hsv Hs). congruence.
    + eapply IH; eassumption.
Qed.

(** C5: an error on the fetch of a page makes its pipeline return a
    failure whose message holds the error's text -- in [extract_content] for
    an exception of [requests.get], a [RequestException] above all; in
    [process_page] for one raised by the agent run, quota exhaustion apart,
    which has a message of its own -- and the pipelines of the other pages of
    the batch are what they are without that failure: each is unchanged,
    events included, and the batch is aborted in both cases or in neither,
    with the same results for the other pages.  No page aborts the batch when
    the chat model is built, the [finally] block does not raise and the URLs
    parse. *)
Theorem fetch_failure_contained (w : world) (url : str) (e : exn) :
  let failing := agent_fails w url e in
  let batch := fun (w : world) (urls : list str) =>
    outcome (gather (map (process_page uni_lower urlparse w) urls)) in
  (http_get w url = inl e ->
   extract_content uni_alnum uni_lower w url
   = ([HttpGet url], inr (false, fetch_failure e))
   /\ contains (exn_str e) (fetch_failure e) = true
   /\ (forall m, e = RequestException m ->
       fetch_failure e = py "Error fetching the webpage: " ++ m))
  /\ (forall parsed,
        quota_hit e = false ->
        urlparse url = inr parsed ->
        new_chat_model w = inr tt ->
        (forall e', shutdown_channel w <> ShutdownRaises e') ->
        outcome (process_page uni_lower urlparse failing url)
        = inr (or_else (strip_char 0x2F (path parsed)) (py "Error Page"),
               py "Error extracting content from " ++ url ++ py ": "
               ++ py "Error during agent-based extraction: " ++ exn_str e)
        /\ contains (exn_str e)
             (py "Error extracting content from " ++ url ++ py ": "
              ++ py "Error during agent-based extraction: " ++ exn_str e)
           = true)
  /\ (forall v, v <> url ->
        process_page uni_lower urlparse failing v
        = process_page uni_lower urlparse w v)
  /\ (forall urls,
        match batch failing urls, batch w urls with
        | inl e1, inl e2 => e1 = e2
        | inr rs1, inr rs2 =>
            List.length rs1 = List.length urls
            /\ List.length rs2 = List.length urls
            /\ forall i v, nth_error urls i = Some v -> v <> url ->
                           nth_error rs1 i = nth_error rs2 i
        | _, _ => False
        end)
  /\ (forall urls,
        new_chat_model w = inr tt ->
        (forall e', shutdown_channel w <> ShutdownRaises e') ->
        (forall v, In v urls -> exists parsed, urlparse v = inr parsed) ->
        exists rs, batch failing urls = inr rs
                   /\ List.length rs = List.length urls).
Proof.
  cbv zeta. split; [|split; [|split; [|split]]].
  - intros H. split; [|split].
    + exact (extract_content_fetch_failure _ _ _ H).
    + destruct e; apply contains_end.
    + intros m ->. reflexivity.
  - intros parsed Hq Hp Hm Hs. split.
    + assert (Ha : agent_run (agent_fails w url e) url = inl e).
      { simpl. rewrite str_eqb_refl. reflexivity. }
      rewrite (process_page_agent_failure _ _ _ _ Ha Hp Hm Hs).
      unfold failed_page_text. rewrite (extraction_failure_plain _ Hq).
      reflexivity.
    + rewrite !app_assoc. apply contains_end.
  - intros v Hv. apply process_page_sibling. exact Hv.
  - intros urls. rewrite !gather_outcome, !map_map.
    apply (collect_alike (fun v => v <> url)).
    + intros v. apply process_page_raises_alike.
    + intros v Hv. rewrite process_page_sibling by exact Hv. reflexivity.
  - intros urls Hm Hs Hp. rewrite gather_outcome, map_map.
    induction urls as [|v urls IH]; simpl.
    + exists []. auto.
    + destruct (Hp v (or_introl eq_refl)) as [parsed Hv].
      destruct IH as (rs & Hrs & Hlen).
      { intros v' Hin. apply Hp. right. exact Hin. }
      rewrite process_page_outcome, extract_content_with_agent_outcome, Hv.
      simpl new_chat_model. simpl shutdown_channel. rewrite Hm.
      destruct (shutdown_channel w) as [| |e'] eqn:E;
        try (rewrite Hrs; eexists; split; [reflexivity | simpl; congruence]).
      exfalso. exact (Hs e' eq_refl).
Qed.

End Pipelines.

(** C1, as stated, fails for [extract_content_with_agent]: the stripped
    form [clean_text] gives for this agent output is empty, and the pipeline
    still calls the cleanup step on it and reports success. *)
Lemma agent_pipeline_ignores_clean_text :
  (forall uni_alnum, len (clean_text uni_alnum dollars) = 0%nat)
  /\ initial_clean_of (ExtractedList [dollars]) = dollars
  /\ len dollars = 60%nat
  /\ (forall uni_lower url,
        cleanup_calls
          (trace (extract_content_with_agent uni_lower dollar_world url))
        = [dollars]
        /\ outcome (extract_content_with_agent uni_lower dollar_world url)
           = inr (true, py "cleaned")).
Proof.
  split; [|split; [|split]].
  - intros uni_alnum. vm_compute. reflexivity.
  - vm_compute. reflexivity.
  - reflexivity.
  - intros uni_lower url. split; vm_compute; reflexivity.
Qed.

(** C1 on the example site, whose page and agent output are short, in
    the three variants. *)
Lemma short_content_rejected_witness :
  extract_content ascii_only as_is site_world example_url
  = ([HttpGet example_url], inr (false, insufficient_content))
  /\ (cleanup_calls
        (trace (extract_content_with_agent as_is site_world example_url)) = []
      /\ outcome (extract_content_with_agent as_is site_world example_url)
         = inr (false, insufficient_content))
  /\ (cleanup_calls
        (trace (V2.extract_content_with_agent as_is menu_site example_url
                  (Some (py "About")))) = []
      /\ outcome (V2.extract_content_with_agent as_is menu_site example_url
                    (Some (py "About")))
         = inr (false, insufficient_content)).
Proof.
  destruct (short_content_rejected ascii_only as_is site_world example_url)
    as (Hdirect & Hagent & Hmenu).
  split; [|split].
  - apply (Hdirect site_page (py "Hi there")).
    + reflexivity.
    + vm_compute. reflexivity.
    + vm_compute. lia.
  - apply (Hagent (ExtractedList [py "Hi"])).
    + reflexivity.
    + vm_compute. lia.
  - apply (Hmenu menu_site (Some (py "About")) (ExtractedList [py "Hi"])).
    + reflexivity.
    + vm_compute. lia.
Defined.

(** C5 on the example site: the fetch fails, a sibling page is untouched. *)
Lemma fetch_failure_contained_witness :
  extract_content ascii_only as_is offline_world example_url
  = ([HttpGet example_url],
     inr (false, py "Error fetching the webpage: " ++ timeout))
  /\ outcome (process_page as_is example_urlparse
                (agent_fails site_world example_url (RequestException timeout))
                example_url)
     = inr (py "Error Page",
            py "Error extracting content from " ++ example_url ++ py ": "
            ++ py "Error during agent-based extraction: " ++ timeout)
  /\ process_page as_is example_urlparse
       (agent_fails site_world example_url (RequestException timeout))
       (py "https://example.com/about")
     = process_page as_is example_urlparse site_world
         (py "https://example.com/about").
Proof.
  destruct (fetch_failure_contained ascii_only as_is example_urlparse
              offline_world example_url (RequestException timeout))
    as (Hv1 & _).
  destruct (fetch_failure_contained ascii_only as_is example_urlparse
              site_world example_url (RequestException timeout))
    as (_ & Hv3 & Hsib & _).
  split; [|split].
  - apply Hv1. reflexivity.
  - apply (Hv3 {| netloc := py "example.com"; path := [] |}).
    + reflexivity.
    + reflexivity.
    + reflexivity.
    + intros e'. discriminate.
  - apply Hsib. vm_compute. discriminate.
Defined.

(** ** The download file name *)

(** The host of [https://host] and [https://host/...], as the code reads
    it, when no further [//] follows. *)
Lemma url_host_https (host tail : str) :
  ~ In 0x2F host ->
  tail = [] \/ (exists rest, tail = 0x2F :: rest) ->
  contains (py "//") (host ++ tail) = false ->
  url_host (py "https://" ++ host ++ tail) = host
  /\ url_host (py "http://" ++ host ++ tail) = host.
Proof.
  intros Hh Ht Hc.
  assert (Hfield : hd [] (split (py "/") (host ++ tail)) = host).
  { destruct Ht as [->|[rest ->]].
    - rewrite app_nil_r. unfold split.
      change (py "/") with [0x2F]. rewrite split_go_single by exact Hh.
      reflexivity.
    - unfold split. change (py "/") with [0x2F].
      rewrite split_go_first_field by exact Hh. reflexivity. }
  unfold url_host. split.
  - replace (split (py "//") (py "https://" ++ host ++ tail))
      with [py "https:"; host ++ tail].
    + simpl last. exact Hfield.
    + unfold split. cbn -[contains]. rewrite split_go_no_sep by exact Hc.
      reflexivity.
  - replace (split (py "//") (py "http://" ++ host ++ tail))
      with [py "http:"; host ++ tail].
    + simpl last. exact Hfield.
    + unfold split. cbn -[contains]. rewrite split_go_no_sep by exact Hc.
      reflexivity.
Qed.

(** C8, as amended: for a URL [https://host] or [https://host/...] (or
    with [http]) that holds no further [//], the file name is [D_T.txt] in
    [streamlit.py] and [D_T_L.txt] in [streamlitV2.py] and [streamlitV3.py],
    where [T] is the timestamp, [D] is the host with every full stop replaced
    by an underscore, and [L] is the selected page label with every space
    replaced by an underscore. *)
Theorem download_file_name (host tail timestamp selected_page url : str) :
  ~ In 0x2F host ->
  tail = [] \/ (exists rest, tail = 0x2F :: rest) ->
  contains (py "//") (host ++ tail) = false ->
  url = py "https://" ++ host ++ tail \/ url = py "http://" ++ host ++ tail ->
  let D := replace_char 0x2E (py "_") host in
  let L := replace_char SPACE (py "_") selected_page in
  url_host url = host
  /\ filename_v1 url timestamp = named_as_specified D timestamp None
  /\ filename url timestamp selected_page
     = named_as_specified D timestamp (Some L)
  /\ ~ In 0x2E D
  /\ ~ In SPACE L.
Proof.
  intros Hh Ht Hc Hurl. cbv zeta.
  assert (Hhost : url_host url = host).
  { destruct (url_host_https host tail Hh Ht Hc) as [Hs Hp].
    destruct Hurl as [->| ->]; assumption. }
  split; [exact Hhost|]. split; [|split; [|split]].
  - unfold filename_v1, named_as_specified, domain. rewrite Hhost. reflexivity.
  - unfold filename, named_as_specified, domain. rewrite Hhost.
    rewrite <- !app_assoc. reflexivity.
  - apply replace_char_gone. vm_compute. intros [H|[]]. discriminate.
  - apply replace_char_gone. vm_compute. intros [H|[]]. discriminate.
Qed.

(** C8, as stated, fails: for [https://example.com] and the label
    "About Us" the file names carry [example_com] and [About_Us], not the
    domain and the label; the label is rewritten even when the domain is
    read as the code's own [domain]. *)
Lemma file_name_is_sanitised :
  let url := py "https://example.com" in
  let timestamp := py "20250101_120000" in
  url_host url = py "example.com"
  /\ filename_v1 url timestamp = py "example_com_20250101_120000.txt"
  /\ filename_v1 url timestamp
     <> named_as_specified (py "example.com") timestamp None
  /\ filename url timestamp (py "About Us")
     = py "example_com_20250101_120000_About_Us.txt"
  /\ filename url timestamp (py "About Us")
     <> named_as_specified (py "example.com") timestamp (Some (py "About Us"))
  /\ filename url timestamp (py "About Us")
     <> named_as_specified (domain url) timestamp (Some (py "About Us")).
Proof.
  cbv zeta. repeat split; try (vm_compute; reflexivity);
    vm_compute; discriminate.
Qed.

(** C8 on [https://example.com/about] and the label "About Us". *)
Lemma download_file_name_witness :
  url_host (py "https://example.com/about") = py "example.com"
  /\ filename (py "https://example.com/about") (py "20250101_120000")
       (py "About Us")
     = named_as_specified (py "example_com") (py "20250101_120000")
         (Some (py "About_Us")).
Proof.
  destruct (download_file_name (py "example.com") (py "/about")
              (py "20250101_120000") (py "About Us")
              (py "https://example.com/about")) as (H1 & _ & H3 & _).
  - vm_compute. intuition discriminate.
  - right. exists (py "about"). reflexivity.
  - vm_compute. reflexivity.
  - left. reflexivity.
  - split; [exact H1 | exact H3].
Defined.

(** * Further properties of the code *)

(** ** More on the boilerplate stripper *)

Lemma filter_length_le (A : Type) (f : A -> bool) (l : list A) :
  (List.length (filter f l) <= List.length l)%nat.
Proof.
  induction l as [|x l IH]; simpl; [lia|].
  destruct (f x); simpl; lia.
Qed.

Lemma squeeze_length (b : bool) (s : str) :
  (List.length (squeeze b s) <= List.length s)%nat.
Proof.
  revert b. induction s as [|c s IH]; intros b; simpl; [lia|].
  destruct (is_space c); [destruct b|]; simpl;
    try (pose proof (IH true)); try (pose proof (IH false)); lia.
Qed.

Lemma rstrip_by_length (p : char -> bool) (s : str) :
  (List.length (rstrip_by p s) <= List.length s)%nat.
Proof.
  unfold rstrip_by. rewrite length_rev.
  pose proof (lstrip_by_length p (rev s)) as H. rewrite length_rev in H. exact H.
Qed.

Lemma strip_length (s : str) : (List.length (strip s) <= List.length s)%nat.
Proof.
  unfold strip, strip_by.
  pose proof (rstrip_by_length is_space (lstrip_by is_space s)).
  pose proof (lstrip_by_length is_space s). lia.
Qed.

(** Trimming removes whitespace only. *)
Lemma lstrip_by_filter (p : char -> bool) (s : str) :
  filter (fun c => negb (p c)) (lstrip_by p s) = filter (fun c => negb (p c)) s.
Proof.
  induction s as [|c s IH]; simpl; [reflexivity|].
  destruct (p c) eqn:E; simpl; [exact IH|].
  rewrite E. reflexivity.
Qed.

Lemma filter_rev (A : Type) (f : A -> bool) (l : list A) :
  filter f (rev l) = rev (filter f l).
Proof.
  induction l as [|x l IH]; simpl; [reflexivity|].
  rewrite filter_app, IH. simpl. destruct (f x); simpl.
  - reflexivity.
  - rewrite app_nil_r. reflexivity.
Qed.

Lemma rstrip_by_filter (p : char -> bool) (s : str) :
  filter (fun c => negb (p c)) (rstrip_by p s) = filter (fun c => negb (p c)) s.
Proof.
  unfold rstrip_by. rewrite filter_rev, lstrip_by_filter, filter_rev.
  apply rev_involutive.
Qed.

Lemma strip_filter (s : str) :
  filter (fun c => negb (is_space c)) (strip s)
  = filter (fun c => negb (is_space c)) s.
Proof.
  unfold strip, strip_by. rewrite rstrip_by_filter, lstrip_by_filter.
  reflexivity.
Qed.

Lemma squeeze_filter (b : bool) (s : str) :
  filter (fun c => negb (is_space c)) (squeeze b s)
  = filter (fun c => negb (is_space c)) s.
Proof.
  revert b. induction s as [|c s IH]; intros b; simpl; [reflexivity|].
  destruct (is_space c) eqn:E; simpl.
  - destruct b; simpl; apply IH.
  - rewrite E. simpl. rewrite IH. reflexivity.
Qed.

Lemma filter_filter (A : Type) (f g : A -> bool) (l : list A) :
  filter f (filter g l) = filter (fun x => g x && f x) l.
Proof.
  induction l as [|x l IH]; simpl; [reflexivity|].
  destruct (g x); simpl; [|exact IH].
  destruct (f x); rewrite IH; reflexivity.
Qed.

(** The last character of a text trimmed on the right is kept. *)
Lemma rstrip_by_last (p : char -> bool) (s : str) :
  match rev (rstrip_by p s) with
  | [] => True
  | c :: _ => p c = false
  end.
Proof.
  unfold rstrip_by. rewrite rev_involutive. apply lstrip_by_head.
Qed.

Section CleanTextShape.
Variable uni_alnum : char -> bool.

(** The first character of a cleaned text is not whitespace. *)
Lemma clean_text_head (s : str) :
  match clean_text uni_alnum s with
  | [] => True
  | c :: _ => is_space c = false
  end.
Proof.
  rewrite clean_text_eq. unfold strip, strip_by.
  apply rstrip_by_head, lstrip_by_head.
Qed.

Lemma clean_text_length (s : str) :
  (len (clean_text uni_alnum s) <= len s)%nat.
Proof.
  rewrite clean_text_eq. unfold len, scrubbed.
  pose proof (strip_length (filter (allowed uni_alnum) (squeeze false s))).
  pose proof (filter_length_le _ (allowed uni_alnum) (squeeze false s)).
  pose proof (squeeze_length false s). lia.
Qed.

Lemma clean_text_visible_chars (s : str) :
  filter (fun c => negb (is_space c)) (clean_text uni_alnum s)
  = filter (visible uni_alnum) s.
Proof.
  rewrite clean_text_eq, strip_filter. unfold scrubbed.
  rewrite filter_filter.
  rewrite (filter_ext _ (fun c => negb (is_space c) && allowed uni_alnum c))
    by (intros c; apply andb_comm).
  rewrite <- filter_filter, squeeze_filter, filter_filter.
  apply filter_ext. intros c. unfold visible. apply andb_comm.
Qed.

(** X3: every character of the output of [clean_text] is in the allowed
    set (word characters, whitespace and [.,!?-]), the only whitespace it
    holds is the plain space, and it neither starts nor ends with
    whitespace: [strip] leaves it as it is. *)
Theorem clean_text_output_shape (s : str) :
  let t := clean_text uni_alnum s in
  Forall (fun c => allowed uni_alnum c = true) t
  /\ (forall c, In c t -> is_space c = true -> c = SPACE)
  /\ match t with [] => True | c :: _ => is_space c = false end
  /\ match rev t with [] => True | c :: _ => is_space c = false end
  /\ strip t = t.
Proof.
  cbv zeta. split; [apply clean_text_allowed|].
  rewrite clean_text_eq. split; [|split; [|split]].
  - intros c Hc Hs. apply strip_incl in Hc. unfold scrubbed in Hc.
    apply filter_In in Hc. destruct Hc as [Hc _].
    apply squeeze_members in Hc. destruct Hc as [Hc|[_ Hc]]; congruence.
  - unfold strip, strip_by. apply rstrip_by_head, lstrip_by_head.
  - unfold strip, strip_by. apply rstrip_by_last.
  - apply strip_idem.
Qed.

(** X4: [clean_text] never returns a text longer than its input. *)
Theorem clean_text_no_longer (s : str) :
  (len (clean_text uni_alnum s) <= len s)%nat.
Proof. exact (clean_text_length s). Qed.

(** X5: [clean_text] keeps every allowed character that is not
    whitespace, and nothing else besides spaces: the characters of its
    output other than whitespace are, in order, the allowed characters of
    the input other than whitespace. *)
Theorem clean_text_keeps_visible (s : str) :
  filter (fun c => negb (is_space c)) (clean_text uni_alnum s)
  = filter (visible uni_alnum) s.
Proof. exact (clean_text_visible_chars s). Qed.

(** X6: [clean_text] returns the empty string exactly on the texts all
    of whose characters are whitespace or outside the allowed set; the empty
    text is one of them. *)
Theorem clean_text_empty_iff (s : str) :
  clean_text uni_alnum s = []
  <-> Forall (fun c => is_space c = true \/ allowed uni_alnum c = false) s.
Proof.
  split.
  - intros H. pose proof (clean_text_visible_chars s) as Hv.
    rewrite H in Hv. simpl in Hv. apply Forall_forall. intros c Hc.
    destruct (visible uni_alnum c) eqn:E.
    + assert (Hin : In c (filter (visible uni_alnum) s))
        by (apply filter_In; auto).
      rewrite <- Hv in Hin. destruct Hin.
    + unfold visible in E. apply andb_false_iff in E.
      destruct E as [E|E]; [right; exact E|].
      left. apply negb_false_iff in E. exact E.
  - intros H.
    pose proof (clean_text_head s) as Hhd.
    destruct (clean_text uni_alnum s) as [|c t] eqn:E; [reflexivity|].
    exfalso.
    assert (Hin : In c (filter (fun c => negb (is_space c))
                          (clean_text uni_alnum s))).
    { rewrite E. simpl. rewrite Hhd. left. reflexivity. }
    rewrite clean_text_visible_chars in Hin. apply filter_In in Hin.
    destruct Hin as [Hin Hvis]. rewrite Forall_forall in H.
    unfold visible in Hvis. apply andb_true_iff in Hvis.
    destruct Hvis as [Ha Hs]. apply negb_true_iff in Hs.
    destruct (H c Hin); congruence.
Qed.

End CleanTextShape.

(** ** The agent's log lines *)

Lemma exec_lit_none (A : Type) (l : str) (prev : option char) (s : str)
    (k : option char -> str -> option A) :
  starts_with l s = false -> Re.exec (Re.Lit l) prev s k = None.
Proof.
  revert prev s. induction l as [|c l IH]; intros prev s H; [discriminate|].
  destruct s as [|d s]; simpl; [reflexivity|].
  simpl in H. destruct (c =? d); [|reflexivity].
  apply IH. exact H.
Qed.

Lemma exec_lit (A : Type) (l : str) (prev : option char) (r : str)
    (k : option char -> str -> option A) :
  Re.exec (Re.Lit l) prev (l ++ r) k = k (last_of l prev) r.
Proof.
  revert prev. induction l as [|c l IH]; intros prev; [reflexivity|].
  simpl. rewrite N.eqb_refl. apply IH.
Qed.

Lemma exec_bol (A : Type) (prev : option char) (s : str)
    (k : option char -> str -> option A) :
  Re.exec Re.Bol prev s k = if is_bol prev then k prev s else None.
Proof. destruct prev; reflexivity. Qed.

Lemma exec_cat (A : Type) (a b : Re.re) (prev : option char) (s : str)
    (k : option char -> str -> option A) :
  Re.exec (Re.Cat a b) prev s k
  = Re.exec a prev s (fun p' s' => Re.exec b p' s' k).
Proof. reflexivity. Qed.

Lemma exec_alt (A : Type) (a b : Re.re) (prev : option char) (s : str)
    (k : option char -> str -> option A) :
  Re.exec (Re.Alt a b) prev s k
  = match Re.exec a prev s k with
    | Some x => Some x
    | None => Re.exec b prev s k
    end.
Proof. reflexivity. Qed.

Lemma exec_cls (A : Type) (p : char -> bool) (prev : option char) (s : str)
    (k : option char -> str -> option A) :
  Re.exec (Re.Cls p) prev s k
  = match s with
    | c :: s' => if p c then k (Some c) s' else None
    | [] => None
    end.
Proof. reflexivity. Qed.

Lemma exec_star (A : Type) (a : Re.re) (prev : option char) (s : str)
    (k : option char -> str -> option A) :
  Re.exec (Re.Star a) prev s k
  = Re.star_loop (Re.exec a) k (List.length s) prev s.
Proof. reflexivity. Qed.

Lemma exec_eol (A : Type) (prev : option char) (s : str)
    (k : option char -> str -> option A) :
  Re.exec Re.Eol prev s k
  = match s with
    | [] => k prev s
    | c :: _ => if c =? LF then k prev s else None
    end.
Proof. reflexivity. Qed.

(** Where no line of the log can start, the pattern does not match. *)
Lemma match_at_no_log (adv : bool) (prev : option char) (s : str) :
  is_bol prev && opens_log_line s = false ->
  Re.match_at agent_log_line adv prev s = None.
Proof.
  intros H. unfold Re.match_at, agent_log_line.
  rewrite exec_cat, exec_bol.
  destruct (is_bol prev); [|reflexivity].
  simpl in H. unfold opens_log_line in H.
  apply orb_false_iff in H. destruct H as [H H3].
  apply orb_false_iff in H. destruct H as [H1 H2].
  rewrite exec_cat, !exec_alt.
  rewrite (exec_cat _ (Re.Cls log_marker)), exec_cls.
  rewrite (exec_cat _ (Re.Lit (py "Extracted the "))).
  rewrite (exec_lit_none _ _ _ _ _ H2), (exec_lit_none _ _ _ _ _ H3).
  destruct s as [|c s']; [reflexivity|]. rewrite H1. reflexivity.
Qed.

Lemma sub_go_log_free :
  forall (s : str) (fuel : nat) (adv : bool) (prev : option char),
    (List.length s < fuel)%nat ->
    log_free (is_bol prev) s = true ->
    Re.sub_go agent_log_line [] fuel adv prev s = s.
Proof.
  induction s as [|c s IH]; intros fuel adv prev Hf H.
  - destruct fuel as [|f]; [reflexivity|]. simpl.
    rewrite match_at_no_log; [reflexivity|].
    destruct (is_bol prev); reflexivity.
  - destruct fuel as [|f]; [simpl in Hf; lia|].
    simpl in H. apply andb_true_iff in H. destruct H as [H1 H2].
    apply negb_true_iff in H1.
    cbn [Re.sub_go]. rewrite (match_at_no_log _ _ _ H1).
    rewrite IH; [reflexivity | simpl in Hf; lia | exact H2].
Qed.

(** A text without a line that starts like a line of the log passes the
    substitution unchanged. *)
Lemma sub_log_free (s : str) :
  log_free true s = true -> Re.sub agent_log_line [] s = s.
Proof.
  intros H. unfold Re.sub. apply sub_go_log_free; [lia | exact H].
Qed.

(** X7: when no line of the agent's text starts with one of the marker
    characters, with "Extracted the " or with a colon, the substitution of
    [extract_content_with_agent] removes nothing: [initial_clean] is the
    agent's text, trimmed. *)
Theorem initial_clean_keeps_plain_text (result : extracted) :
  log_free true (agent_text result) = true ->
  initial_clean_of result = strip (agent_text result).
Proof.
  intros H. unfold initial_clean_of, agent_text in *.
  destruct result; rewrite sub_log_free by exact H; reflexivity.
Qed.

Lemma starts_with_split (l s : str) :
  starts_with l s = true -> s = l ++ skipn (List.length l) s.
Proof.
  revert s. induction l as [|c l IH]; intros s H; [reflexivity|].
  destruct s as [|d s]; [discriminate|]. simpl in H.
  apply andb_true_iff in H. destruct H as [Hc Hl].
  apply N.eqb_eq in Hc. subst d. simpl. f_equal. apply IH. exact Hl.
Qed.

Lemma lstrip_by_run (p : char -> bool) (l tail : str) :
  forallb p l = true ->
  match tail with [] => True | c :: _ => p c = false end ->
  lstrip_by p (l ++ tail) = tail.
Proof.
  intros Hl Ht. induction l as [|c l IH]; simpl.
  - apply lstrip_by_fixed. exact Ht.
  - simpl in Hl. apply andb_true_iff in Hl. destruct Hl as [Hc Hl].
    rewrite Hc. apply IH. exact Hl.
Qed.

Lemma last_taken_run (p : char -> bool) (l tail : str) (prev : option char) :
  forallb p l = true ->
  match tail with [] => True | c :: _ => p c = false end ->
  last_taken p prev (l ++ tail) = last_of l prev.
Proof.
  intros Hl Ht. revert prev. induction l as [|c l IH]; intros prev; simpl.
  - destruct tail as [|d tail]; [reflexivity|]. simpl. rewrite Ht. reflexivity.
  - simpl in Hl. apply andb_true_iff in Hl. destruct Hl as [Hc Hl].
    rewrite Hc. apply IH. exact Hl.
Qed.

Lemma line_end_stops (tail : str) :
  line_end tail ->
  match tail with [] => True | c :: _ => negb (c =? LF) = false end.
Proof. intros [->|(rest & -> & _)]; [exact I | reflexivity]. Qed.

(** After the body of a log line, [\s*$] matches without consuming. *)
Lemma exec_line_end (A : Type) (p : option char) (tail : str)
    (k : option char -> str -> option A) :
  line_end tail ->
  Re.exec (Re.Cat (Re.Star (Re.Cls is_space)) Re.Eol) p tail k = k p tail.
Proof.
  intros [->|(rest & -> & Hr)]; rewrite exec_cat, exec_star.
  - reflexivity.
  - destruct rest as [|c rest]; [discriminate|]. simpl in Hr.
    apply negb_true_iff in Hr.
    assert (Hc : (c =? LF) = false).
    { destruct (c =? LF) eqn:E; [|reflexivity].
      apply N.eqb_eq in E. subst c. discriminate. }
    cbn [List.length Re.star_loop]. rewrite exec_cls.
    change (is_space LF) with true. cbv iota beta.
    assert (Hlt : (List.length (c :: rest) <? S (S (List.length rest)))%nat
                  = true) by (apply Nat.ltb_lt; simpl; lia).
    rewrite Hlt, exec_cls, Hr, !exec_eol, Hc. reflexivity.
Qed.

(** The body of a log line: [.*] runs to the end of the line. *)
Lemma exec_line_body (A : Type) (l tail : str) (prev : option char)
    (k : option char -> str -> option A) :
  forallb (fun c => negb (c =? LF)) l = true ->
  line_end tail ->
  k (last_of l prev) tail <> None ->
  Re.exec (Re.Star Re.Dot) prev (l ++ tail)
    (fun p' s' =>
       Re.exec (Re.Cat (Re.Star (Re.Cls is_space)) Re.Eol) p' s' k)
  = k (last_of l prev) tail.
Proof.
  intros Hl Ht Hk. rewrite exec_star.
  pose proof (line_end_stops tail Ht) as Hstop.
  rewrite star_cls_greedy with (p := fun c => negb (c =? LF)).
  - rewrite lstrip_by_run, last_taken_run by assumption.
    apply exec_line_end. exact Ht.
  - reflexivity.
  - lia.
  - rewrite lstrip_by_run, last_taken_run by assumption.
    rewrite exec_line_end by exact Ht. exact Hk.
Qed.

Lemma match_at_log_line (adv : bool) (prev : option char) (line tail : str) :
  is_bol prev = true ->
  log_line line = true ->
  line_end tail ->
  Re.match_at agent_log_line adv prev (line ++ tail)
  = Some (last_of line prev, tail).
Proof.
  intros Hb Hline Ht. unfold log_line in Hline.
  apply andb_true_iff in Hline. destruct Hline as [Hopen Hno].
  assert (Hne : line <> []).
  { intros ->. discriminate. }
  set (k0 := fun (p : option char) (rest : str) =>
               if adv && (List.length rest =? List.length (line ++ tail))%nat
               then None else Some (p, rest)).
  assert (Hk0 : forall p, k0 p tail = Some (p, tail)).
  { intros p. unfold k0.
    assert (E : (List.length tail =? List.length (line ++ tail))%nat = false).
    { apply Nat.eqb_neq. rewrite length_app.
      destruct line; [congruence | simpl; lia]. }
    rewrite E, andb_false_r. reflexivity. }
  unfold Re.match_at, agent_log_line. fold k0.
  rewrite exec_cat, exec_bol, Hb, exec_cat, !exec_alt.
  destruct line as [|c l]; [congruence|].
  destruct (log_marker c) eqn:Hm.
  - rewrite (exec_cat _ (Re.Cls log_marker)), exec_cls.
    cbn [app]. rewrite Hm.
    simpl in Hno. apply andb_true_iff in Hno. destruct Hno as [_ Hno].
    rewrite exec_line_body; try assumption.
    + rewrite Hk0. reflexivity.
    + rewrite Hk0. discriminate.
  - rewrite (exec_cat _ (Re.Cls log_marker)), exec_cls.
    cbn [app]. rewrite Hm.
    cbv beta iota in Hopen. rewrite orb_false_l in Hopen.
    change (c :: l ++ tail) with ((c :: l) ++ tail).
    rewrite (starts_with_split _ _ Hopen) in Hno |- *.
    set (l' := skipn (List.length (py "Extracted the ")) (c :: l)) in *.
    rewrite forallb_app in Hno. apply andb_true_iff in Hno.
    destruct Hno as [_ Hno].
    rewrite <- app_assoc, (exec_cat _ (Re.Lit (py "Extracted the "))), exec_lit.
    rewrite exec_line_body; try assumption.
    + rewrite Hk0. unfold last_of. rewrite fold_left_app. reflexivity.
    + rewrite Hk0. discriminate.
Qed.

Lemma last_of_not_bol (line : str) (prev : option char) :
  line <> [] -> forallb (fun c => negb (c =? LF)) line = true ->
  is_bol (last_of line prev) = false.
Proof.
  revert prev. induction line as [|c l IH]; intros prev Hne Hno; [congruence|].
  simpl in Hno. apply andb_true_iff in Hno. destruct Hno as [Hc Hl].
  destruct l as [|d l].
  - simpl. apply negb_true_iff in Hc. exact Hc.
  - change (last_of (c :: d :: l) prev) with (last_of (d :: l) (Some c)).
    apply IH; [discriminate | exact Hl].
Qed.

Lemma sub_go_step (r : Re.re) (repl : str) (f : nat) (adv : bool)
    (prev : option char) (s : str) :
  Re.sub_go r repl (S f) adv prev s
  = match Re.match_at r adv prev s with
    | Some (p, rest) =>
        repl ++
        (if (List.length rest <? List.length s)%nat
         then Re.sub_go r repl f false p rest
         else Re.sub_go r repl f true prev s)
    | None =>
        match s with
        | [] => []
        | c :: s' => c :: Re.sub_go r repl f false (Some c) s'
        end
    end.
Proof. reflexivity. Qed.

(** A line of the log at the start of the text is removed, and a text
    behind it without such lines is kept. *)
Lemma sub_log_line (line tail : str) :
  log_line line = true ->
  line_end tail ->
  log_free false tail = true ->
  Re.sub agent_log_line [] (line ++ tail) = tail.
Proof.
  intros Hline Ht Hfree. unfold Re.sub.
  replace (2 * List.length (line ++ tail) + 2)%nat
    with (S (2 * List.length (line ++ tail) + 1)) by lia.
  rewrite sub_go_step.
  rewrite match_at_log_line by (reflexivity || assumption).
  assert (Hne : line <> []) by (intros ->; discriminate).
  assert (Hlt : (List.length tail <? List.length (line ++ tail))%nat = true).
  { apply Nat.ltb_lt. rewrite length_app.
    destruct line; [congruence | simpl; lia]. }
  rewrite Hlt. cbn [app].
  apply sub_go_log_free.
  - rewrite length_app. lia.
  - unfold log_line in Hline. apply andb_true_iff in Hline.
    rewrite last_of_not_bol by tauto. exact Hfree.
Qed.

Lemma strip_after_space (c : char) (s : str) :
  is_space c = true -> strip (c :: s) = strip s.
Proof. intros H. unfold strip, strip_by. simpl. rewrite H. reflexivity. Qed.

(** X8: a line of the agent's log -- one that starts with a marker
    character or with "Extracted the " -- is removed whole.  Alone it leaves
    the empty text; ahead of a content that starts with a character other
    than whitespace and none of whose lines starts with a marker character,
    with "Extracted the " or with a colon, in one string or as the first of
    two items, it leaves the content, trimmed. *)
Theorem initial_clean_drops_log_line (line content : str) :
  log_line line = true ->
  starts_with_text content = true ->
  log_free true content = true ->
  initial_clean_of (ExtractedStr line) = []
  /\ initial_clean_of (ExtractedStr (line ++ LF :: content)) = strip content
  /\ initial_clean_of (ExtractedList [line; content]) = strip content.
Proof.
  intros Hline Hc Hfree. unfold initial_clean_of. cbn [join].
  split; [|split].
  - rewrite <- (app_nil_r line) at 1.
    rewrite sub_log_line; [reflexivity | exact Hline | left; reflexivity
                          | reflexivity].
  - rewrite sub_log_line.
    + apply strip_after_space. reflexivity.
    + exact Hline.
    + right. exists content. auto.
    + simpl. exact Hfree.
  - change (line ++ [LF] ++ content) with (line ++ LF :: content).
    rewrite sub_log_line.
    + apply strip_after_space. reflexivity.
    + exact Hline.
    + right. exists content. auto.
    + simpl. exact Hfree.
Qed.

Lemma subseq_refl (A : Type) (l : list A) : subseq l l.
Proof. induction l; constructor; assumption. Qed.

Lemma subseq_suffix (A : Type) (a l : list A) : subseq l (a ++ l).
Proof.
  induction a as [|x a IH]; simpl; [apply subseq_refl|].
  apply subseq_skip. exact IH.
Qed.

Lemma subseq_prefix (A : Type) (l q : list A) : subseq l (l ++ q).
Proof.
  induction l as [|x l IH]; simpl; [apply subseq_nil_l|].
  apply subseq_take. exact IH.
Qed.

Lemma subseq_trans (A : Type) (l1 l2 l3 : list A) :
  subseq l1 l2 -> subseq l2 l3 -> subseq l1 l3.
Proof.
  intros H12 H23. revert l1 H12.
  induction H23 as [|x l2 l3 _ IH|x l2 l3 _ IH]; intros l1 H12.
  - exact H12.
  - apply subseq_skip. apply IH. exact H12.
  - inversion H12; subst.
    + apply subseq_skip. apply IH. assumption.
    + apply subseq_take. apply IH. assumption.
Qed.

Lemma subseq_length (A : Type) (l1 l2 : list A) :
  subseq l1 l2 -> (List.length l1 <= List.length l2)%nat.
Proof. induction 1; simpl; lia. Qed.

Lemma strip_subseq (s : str) : subseq (strip s) s.
Proof.
  unfold strip, strip_by.
  destruct (lstrip_by_suffix is_space s) as [a Ha].
  destruct (rstrip_by_prefix is_space (lstrip_by is_space s)) as [q Hq].
  apply subseq_trans with (l2 := lstrip_by is_space s).
  - rewrite Hq at 2. apply subseq_prefix.
  - rewrite Ha at 2. apply subseq_suffix.
Qed.

(** The matcher hands its continuation a suffix of the input. *)
Lemma star_loop_suffix (A : Type)
    (step : option char -> str -> (option char -> str -> option A) -> option A)
    (k : option char -> str -> option A) :
  (forall prev s k' x, step prev s k' = Some x ->
     exists p' s', k' p' s' = Some x /\ exists a, s = a ++ s') ->
  forall fuel prev s x,
    Re.star_loop step k fuel prev s = Some x ->
    exists p' s', k p' s' = Some x /\ exists a, s = a ++ s'.
Proof.
  intros Hstep. induction fuel as [|f IH]; intros prev s x H; simpl in H.
  - exists prev, s. split; [exact H | exists []; reflexivity].
  - destruct (step prev s _) as [y|] eqn:E.
    + inversion H; subst y. apply Hstep in E.
      destruct E as (p1 & s1 & E & a1 & Ha1).
      destruct (List.length s1 <? List.length s)%nat; [|discriminate].
      apply IH in E. destruct E as (p2 & s2 & E & a2 & Ha2).
      exists p2, s2. split; [exact E|].
      exists (a1 ++ a2). rewrite <- app_assoc, <- Ha2. exact Ha1.
    + exists prev, s. split; [exact H | exists []; reflexivity].
Qed.

Lemma exec_suffix (A : Type) (r : Re.re) :
  forall (prev : option char) (s : str) (k : option char -> str -> option A)
         (x : A),
    Re.exec r prev s k = Some x ->
    exists p' s', k p' s' = Some x /\ exists a, s = a ++ s'.
Proof.
  induction r as [|p|a IHa b IHb|a IHa b IHb|a IHa| |]; intros prev s k x H;
    simpl in H.
  - exists prev, s. split; [exact H | exists []; reflexivity].
  - destruct s as [|c s']; [discriminate|].
    destruct (p c); [|discriminate].
    exists (Some c), s'. split; [exact H | exists [c]; reflexivity].
  - apply IHa in H. destruct H as (p1 & s1 & H & a1 & Ha1).
    apply IHb in H. destruct H as (p2 & s2 & H & a2 & Ha2).
    exists p2, s2. split; [exact H|].
    exists (a1 ++ a2). rewrite <- app_assoc, <- Ha2. exact Ha1.
  - destruct (Re.exec a prev s k) as [y|] eqn:E.
    + inversion H; subst y. apply IHa in E. exact E.
    + apply IHb in H. exact H.
  - eapply star_loop_suffix; [|exact H]. exact IHa.
  - destruct prev as [c|].
    + destruct (c =? LF); [|discriminate].
      exists (Some c), s. split; [exact H | exists []; reflexivity].
    + exists None, s. split; [exact H | exists []; reflexivity].
  - destruct s as [|c s'].
    + exists prev, []. split; [exact H | exists []; reflexivity].
    + destruct (c =? LF); [|discriminate].
      exists prev, (c :: s'). split; [exact H | exists []; reflexivity].
Qed.

Lemma match_at_suffix (r : Re.re) (adv : bool) (prev : option char)
    (s : str) (p : option char) (rest : str) :
  Re.match_at r adv prev s = Some (p, rest) -> exists a, s = a ++ rest.
Proof.
  unfold Re.match_at. intros H. apply exec_suffix in H.
  destruct H as (p' & s' & H & a & Ha).
  destruct (adv && _); [discriminate|]. inversion H; subst. exists a. reflexivity.
Qed.

(** A substitution by the empty string only removes characters. *)
Lemma sub_go_delete_subseq (r : Re.re) :
  forall (fuel : nat) (adv : bool) (prev : option char) (s : str),
    subseq (Re.sub_go r [] fuel adv prev s) s.
Proof.
  induction fuel as [|f IH]; intros adv prev s.
  - apply subseq_refl.
  - rewrite sub_go_step.
    destruct (Re.match_at r adv prev s) as [[p rest]|] eqn:E.
    + cbn [app]. destruct (List.length rest <? List.length s)%nat; [|apply IH].
      apply match_at_suffix in E. destruct E as [a ->].
      apply subseq_trans with (l2 := rest); [apply IH | apply subseq_suffix].
    + destruct s as [|c s']; [constructor|].
      apply subseq_take. apply IH.
Qed.

Lemma initial_clean_subseq (result : extracted) :
  subseq (initial_clean_of result) (agent_text result).
Proof.
  assert (H : forall s, subseq (strip (Re.sub agent_log_line [] s)) s).
  { intros s. eapply subseq_trans; [apply strip_subseq|].
    apply sub_go_delete_subseq. }
  unfold initial_clean_of, agent_text. destruct result; apply H.
Qed.

(** X9: the first cleaning of [extract_content_with_agent] only removes
    characters: [initial_clean] is the agent's text with some characters
    left out, the others in their order, and so is never longer. *)
Theorem initial_clean_only_removes (result : extracted) :
  subseq (initial_clean_of result) (agent_text result)
  /\ (len (initial_clean_of result) <= len (agent_text result))%nat.
Proof.
  split; [apply initial_clean_subseq|].
  apply subseq_length, initial_clean_subseq.
Qed.

(** ** The direct pipeline *)

(** Induction on a tree whose children are a list. *)
Lemma node_list_ind (P : node -> Prop) :
  (forall s, P (Text s)) ->
  (forall cls s, P (Special cls s)) ->
  (forall nm attrs cs, Forall P cs -> P (Elem nm attrs cs)) ->
  forall n, P n.
Proof.
  intros HT HS HE. fix IH 1. intros [s|cls s|nm attrs cs];
    [apply HT | apply HS |].
  apply HE. induction cs as [|c cs IHcs]; constructor; [apply IH | exact IHcs].
Qed.

Lemma all_nodes_app (l1 l2 : soup) :
  all_nodes (l1 ++ l2) = all_nodes l1 ++ all_nodes l2.
Proof. unfold all_nodes. apply flat_map_app. Qed.

Lemma all_nodes_flat_map (f : node -> list node) (cs : list node) :
  all_nodes (flat_map f cs) = flat_map (fun c => all_nodes (f c)) cs.
Proof.
  induction cs as [|c cs IH]; simpl; [reflexivity|].
  rewrite all_nodes_app, IH. reflexivity.
Qed.

Lemma all_nodes_single (n : node) : all_nodes [n] = n :: descendants n.
Proof. unfold all_nodes. simpl. rewrite app_nil_r. reflexivity. Qed.

Lemma descendants_elem (nm : str) (attrs : list (str * str)) (cs : list node) :
  descendants (Elem nm attrs cs) = all_nodes cs.
Proof. reflexivity. Qed.

(** What [decompose_all] leaves holds no tag with one of the names. *)
Lemma decompose_all_outside (names : list str) (n : node) :
  Forall (fun m => outside names m = true) (all_nodes (decompose_all names n)).
Proof.
  induction n as [s|cls s|nm attrs cs IH] using node_list_ind; simpl.
  - repeat constructor.
  - repeat constructor.
  - destruct (existsb (str_eqb nm) names) eqn:E; [constructor|].
    rewrite all_nodes_single, descendants_elem. constructor.
    + simpl. rewrite E. reflexivity.
    + rewrite all_nodes_flat_map. apply Forall_flat_map.
      exact IH.
Qed.

Lemma decompose_all_fixed (names : list str) (n : node) :
  Forall (fun m => outside names m = true) (all_nodes [n]) ->
  decompose_all names n = [n].
Proof.
  induction n as [s|cls s|nm attrs cs IH] using node_list_ind; intros H;
    [reflexivity | reflexivity |].
  rewrite all_nodes_single, descendants_elem in H.
  inversion H as [|? ? Hhd Htl]; subst. simpl in Hhd.
  apply negb_true_iff in Hhd. simpl. rewrite Hhd. do 2 f_equal.
  clear Hhd H. induction cs as [|c cs IHcs]; [reflexivity|].
  inversion IH as [|? ? Hc Hcs]; subst.
  change (all_nodes (c :: cs)) with (all_nodes ([c] ++ cs)) in Htl.
  rewrite all_nodes_app in Htl. apply Forall_app in Htl.
  destruct Htl as [Hl Hr]. simpl. rewrite (Hc Hl). simpl. f_equal.
  apply IHcs; assumption.
Qed.

Lemma flat_map_fixed (names : list str) (page : soup) :
  Forall (fun m => outside names m = true) (all_nodes page) ->
  flat_map (decompose_all names) page = page.
Proof.
  induction page as [|n page IH]; intros H; [reflexivity|].
  change (all_nodes (n :: page)) with (all_nodes ([n] ++ page)) in H.
  rewrite all_nodes_app in H. apply Forall_app in H. destruct H as [Hn Hp].
  simpl. rewrite (decompose_all_fixed _ _ Hn), (IH Hp). reflexivity.
Qed.

Lemma outside_no_name (names : list str) (nm : str) (l : list node) :
  In nm names ->
  Forall (fun m => outside names m = true) l ->
  filter (has_name nm) l = [].
Proof.
  intros Hin H. induction H as [|m l Hm _ IH]; [reflexivity|].
  simpl. rewrite IH.
  destruct m as [s|cls s|nm' attrs cs]; [reflexivity | reflexivity |].
  simpl. destruct (str_eqb nm' nm) eqn:E; [|reflexivity].
  apply str_eqb_eq in E. subst nm'. simpl in Hm. apply negb_true_iff in Hm.
  assert (existsb (str_eqb nm) names = true) as Hex.
  { apply existsb_exists. exists nm. split; [exact Hin | apply str_eqb_refl]. }
  congruence.
Qed.

Lemma decompose_outside (page : soup) :
  Forall (fun m => outside removed_tags m = true) (all_nodes (decompose page)).
Proof.
  unfold decompose. fold removed_tags. rewrite all_nodes_flat_map.
  apply Forall_flat_map. apply Forall_forall. intros n _.
  apply decompose_all_outside.
Qed.

(** X10: after the removal of scripts, styles and page furniture the page
    holds no [script], [style], [nav], [footer] or [iframe] element at any
    depth; removing again changes nothing, and a page without such elements
    is left as it is. *)
Theorem decompose_removes (page : soup) :
  Forall (fun nm => find_all nm (decompose page) = []) removed_tags
  /\ Forall (fun m => outside removed_tags m = true) (all_nodes (decompose page))
  /\ decompose (decompose page) = decompose page
  /\ (Forall (fun m => outside removed_tags m = true) (all_nodes page) ->
      decompose page = page).
Proof.
  pose proof (decompose_outside page) as H.
  split; [|split; [exact H | split]].
  - apply Forall_forall. intros nm Hnm. unfold find_all.
    apply outside_no_name with (names := removed_tags); assumption.
  - unfold decompose at 1. fold removed_tags. apply flat_map_fixed. exact H.
  - intros Hp. unfold decompose. fold removed_tags. apply flat_map_fixed. exact Hp.
Qed.

Section DirectPipeline.
Variable uni_alnum : char -> bool.
Variable uni_lower : str -> str.

Lemma ask_genai_trace (w : world) (text : str) :
  trace (ask_genai uni_lower w text) =
  match api_key w with
  | None => []
  | Some _ => [GenerateContent (prompt text)]
  end.
Proof.
  unfold ask_genai, environ_api_key, trace, bind, lift, emit.
  destruct (api_key w); simpl; [|reflexivity].
  destruct (generate_content w (prompt text)) as [e|t]; simpl; [reflexivity|].
  destruct (contains refusal_marker (lower uni_lower t)); reflexivity.
Qed.

Lemma clean_with_genai_v1_cases (w : world) (text : str) :
  clean_with_genai_v1 uni_lower w text
  = (CleanWithGenai text :: trace (ask_genai uni_lower w text),
     inr (cleaned_v1 uni_lower w text)).
Proof.
  unfold clean_with_genai_v1, cleaned_v1.
  rewrite (io_eta (ask_genai uni_lower w text)).
  destruct (outcome (ask_genai uni_lower w text)) as [e|s]; simpl;
    rewrite ?app_nil_r; reflexivity.
Qed.

(** [extract_content] by cases on what it meets. *)
Lemma extract_content_cases (w : world) (url : str) :
  extract_content uni_alnum uni_lower w url =
  match http_get w url with
  | inl e => ([HttpGet url], inr (false, fetch_failure e))
  | inr response =>
      match main_content_of (decompose response) with
      | inl e => ([HttpGet url], inr (false, fetch_failure e))
      | inr main_content =>
          let cleaned_text := clean_text uni_alnum main_content in
          if (len cleaned_text <? MIN_CONTENT_LENGTH)%nat
          then ([HttpGet url], inr (false, insufficient_content))
          else (HttpGet url :: CleanWithGenai cleaned_text
                  :: trace (ask_genai uni_lower w cleaned_text),
                inr (true, cleaned_v1 uni_lower w cleaned_text))
      end
  end.
Proof.
  unfold extract_content, fetch_and_clean, try_except, bind, emit, lift, ret.
  destruct (http_get w url) as [e|response]; [destruct e; reflexivity|].
  cbv zeta.
  destruct (main_content_of (decompose response)) as [e|mc];
    [destruct e; reflexivity|].
  destruct (len (clean_text uni_alnum mc) <? MIN_CONTENT_LENGTH)%nat;
    [reflexivity|].
  rewrite clean_with_genai_v1_cases. simpl. rewrite app_nil_r. reflexivity.
Qed.

Lemma fetch_failure_error (e : exn) :
  starts_with (py "Error") (fetch_failure e) = true.
Proof. destruct e; reflexivity. Qed.

(** [extract_content] by what it returns and what it has done. *)
Lemma extract_content_shape (w : world) (url : str) :
  exists (success : bool) (text : str) (rest : list event),
    extract_content uni_alnum uni_lower w url
    = (HttpGet url :: rest, inr (success, text))
    /\ http_gets rest = []
    /\ agent_runs rest = []
    /\ (success = false ->
        rest = [] /\ starts_with (py "Error") text = true)
    /\ (success = true ->
        exists response main_content,
          http_get w url = inr response
          /\ main_content_of (decompose response) = inr main_content
          /\ (MIN_CONTENT_LENGTH <= len (clean_text uni_alnum main_content))%nat
          /\ cleanup_calls rest = [clean_text uni_alnum main_content]
          /\ text = cleaned_v1 uni_lower w (clean_text uni_alnum main_content)).
Proof.
  rewrite extract_content_cases.
  destruct (http_get w url) as [e|response] eqn:Eg.
  { exists false, (fetch_failure e), []. split; [reflexivity|].
    split; [reflexivity|]. split; [reflexivity|].
    split; [|discriminate]. intros _. split; [reflexivity|].
    apply fetch_failure_error. }
  destruct (main_content_of (decompose response)) as [e|mc] eqn:Em.
  { exists false, (fetch_failure e), []. split; [reflexivity|].
    split; [reflexivity|]. split; [reflexivity|].
    split; [|discriminate]. intros _. split; [reflexivity|].
    apply fetch_failure_error. }
  cbv zeta.
  destruct (len (clean_text uni_alnum mc) <? MIN_CONTENT_LENGTH)%nat eqn:El.
  { exists false, insufficient_content, []. split; [reflexivity|].
    split; [reflexivity|]. split; [reflexivity|].
    split; [|discriminate]. intros _. split; reflexivity. }
  eexists true, _, _. split; [reflexivity|].
  split; [rewrite ask_genai_trace; destruct (api_key w); reflexivity|].
  split; [rewrite ask_genai_trace; destruct (api_key w); reflexivity|].
  split; [discriminate|].
  intros _. exists response, mc.
  split; [reflexivity|]. split; [exact Em|]. split; [|split].
  - apply Nat.ltb_ge. exact El.
  - simpl. rewrite ask_genai_trace. destruct (api_key w); reflexivity.
  - reflexivity.
Qed.

(** X11: [extract_content] never raises; it makes exactly one page
    request, first -- what follows holds no page request and no agent run.
    When it reports failure it has done nothing else and its text starts with
    "Error"; when it reports success the page was fetched, its main content
    cleaned to at least [MIN_CONTENT_LENGTH] characters, the model cleanup
    called once with that cleaned text, and the text returned is the model's
    answer, or its fallback. *)
Theorem extract_content_total (w : world) (url : str) :
  exists (success : bool) (text : str) (rest : list event),
    extract_content uni_alnum uni_lower w url
    = (HttpGet url :: rest, inr (success, text))
    /\ http_gets rest = []
    /\ agent_runs rest = []
    /\ (success = false ->
        rest = [] /\ starts_with (py "Error") text = true)
    /\ (success = true ->
        exists response main_content,
          http_get w url = inr response
          /\ main_content_of (decompose response) = inr main_content
          /\ (MIN_CONTENT_LENGTH <= len (clean_text uni_alnum main_content))%nat
          /\ cleanup_calls rest = [clean_text uni_alnum main_content]
          /\ text = cleaned_v1 uni_lower w (clean_text uni_alnum main_content)).
Proof.
  exact (extract_content_shape w url).
Qed.

End DirectPipeline.

Lemma select_by_tag (nm : str) (page : soup) :
  select_one (ByTag nm) page = find nm page.
Proof.
  unfold select_one, find, find_all.
  rewrite (filter_ext (selects (ByTag nm)) (has_name nm)); [reflexivity|].
  intros [s|cls s|nm' attrs cs]; reflexivity.
Qed.

Lemma first_selected_none (sels : list selector) (page : soup) :
  Forall (fun sel => select_one sel page = None) sels ->
  first_selected sels page = None.
Proof.
  induction 1 as [|sel sels H _ IH]; simpl; [reflexivity|].
  rewrite H. exact IH.
Qed.

Lemma first_selected_at (pre post : list selector) (sel : selector)
    (page : soup) (n : node) :
  Forall (fun s => select_one s page = None) pre ->
  select_one sel page = Some n ->
  first_selected (pre ++ sel :: post) page = Some (get_text_lines n).
Proof.
  intros Hpre Hsel. induction Hpre as [|s pre H _ IH]; simpl.
  - rewrite Hsel. reflexivity.
  - rewrite H. exact IH.
Qed.

Section MainContent.
Variable uni_alnum : char -> bool.
Variable uni_lower : str -> str.

(** X12: the content selectors are tried in the order of the list and
    the first one that matches decides: the main content is the text of the
    element it selects, unless that text is empty, in which case it is the
    text of the page's body (an error when there is no body).  Selectors
    later in the list are not looked at. *)
Theorem main_content_priority (page : soup) (pre post : list selector)
    (sel : selector) (n : node) :
  content_selectors = pre ++ sel :: post ->
  Forall (fun s => select_one s page = None) pre ->
  select_one sel page = Some n ->
  main_content_of page
  = if truthy (get_text_lines n) then inr (get_text_lines n)
    else body_text page.
Proof.
  intros Hsels Hpre Hsel. unfold main_content_of. rewrite Hsels.
  rewrite (first_selected_at pre post sel page n Hpre Hsel).
  destruct (get_text_lines n); reflexivity.
Qed.

Lemma main_content_nothing_selected (page : soup) :
  Forall (fun sel => select_one sel page = None) content_selectors ->
  main_content_of page = inl (OtherException no_body_message).
Proof.
  intros H. unfold main_content_of.
  rewrite (first_selected_none _ _ H).
  assert (Hb : find (py "body") page = None).
  { rewrite <- select_by_tag. rewrite Forall_forall in H. apply H.
    unfold content_selectors. simpl. tauto. }
  rewrite Hb. reflexivity.
Qed.

(** X13: a page that was fetched but on which no content selector
    matches -- so one without a [body] -- makes [extract_content] fail with
    the attribute error of [soup.body.get_text], reported as an "Error: "
    text after the single page request and without any call of the model. *)
Theorem page_without_container_fails (w : world) (url : str) (response : soup) :
  http_get w url = inr response ->
  Forall (fun sel => select_one sel (decompose response) = None)
    content_selectors ->
  extract_content uni_alnum uni_lower w url
  = ([HttpGet url], inr (false, py "Error: " ++ no_body_message)).
Proof.
  intros Hg Hnone. rewrite extract_content_cases, Hg.
  rewrite (main_content_nothing_selected _ Hnone). reflexivity.
Qed.

End MainContent.

(** X12 on a page whose [<main>] is empty: the [<article>] is not looked at,
    the text is that of the body. *)
Lemma main_content_priority_witness :
  main_content_of hollow_page = inr (py "Story").
Proof.
  rewrite (main_content_priority hollow_page [] (skipn 1 content_selectors)
             (ByTag (py "main")) (Elem (py "main") [] [])).
  - vm_compute. reflexivity.
  - reflexivity.
  - constructor.
  - vm_compute. reflexivity.
Defined.

(** X13 on a fragment without a [<body>]. *)
Lemma page_without_container_fails_witness :
  extract_content ascii_only as_is fragment_world example_url
  = ([HttpGet example_url], inr (false, py "Error: " ++ no_body_message)).
Proof.
  apply (page_without_container_fails ascii_only as_is fragment_world
           example_url fragment_page).
  - reflexivity.
  - vm_compute. repeat constructor.
Defined.

(** ** The agent pipeline *)

Lemma agent_runs_app (a b : list event) :
  agent_runs (a ++ b) = agent_runs a ++ agent_runs b.
Proof.
  induction a as [|ev a IH]; simpl; [reflexivity|].
  destruct ev; simpl; rewrite IH; reflexivity.
Qed.

Lemma http_gets_app (a b : list event) :
  http_gets (a ++ b) = http_gets a ++ http_gets b.
Proof.
  induction a as [|ev a IH]; simpl; [reflexivity|].
  destruct ev; simpl; rewrite IH; reflexivity.
Qed.

Lemma extraction_failure_error (e : exn) :
  starts_with (py "Error") (extraction_failure e) = true.
Proof.
  destruct e as [m|m|m]; try reflexivity.
  simpl. destruct (rate_limited m); reflexivity.
Qed.

Lemma errors_shown_app (a b : list event) :
  errors_shown (a ++ b) = errors_shown a ++ errors_shown b.
Proof.
  induction a as [|ev a IH]; simpl; [reflexivity|].
  destruct ev; simpl; rewrite IH; reflexivity.
Qed.

Lemma backstage_none (t : list event) :
  forallb backstage t = true ->
  agent_runs t = [] /\ http_gets t = [] /\ errors_shown t = [].
Proof.
  induction t as [|ev t IH]; simpl; [auto|].
  intros H. apply andb_true_iff in H. destruct H as [Hev Ht].
  destruct ev; simpl in *; try discriminate; auto.
Qed.

Lemma shutdown_backstage (w : world) :
  forallb backstage (trace (shutdown w)) = true.
Proof. unfold shutdown. destruct (shutdown_channel w); reflexivity. Qed.

Lemma agent_failed_backstage (e : exn) :
  forallb backstage (trace (agent_failed e)) = true.
Proof.
  destruct e as [m|m|m]; try reflexivity.
  simpl. destruct (rate_limited m); reflexivity.
Qed.

Section Agent.
Variable uni_alnum : char -> bool.
Variable uni_lower : str -> str.
Variable urlparse : str -> exn + parsed_url.

Lemma cleaning_failed_cases (e : exn) :
  cleaning_failed e
  = (match e with
     | ResourceExhausted m =>
         if rate_limited m
         then [StWarning
                 (py "Gemini API rate limit encountered during cleaning. Please wait a moment and try again. Error: "
                  ++ m)]
         else []
     | _ => []
     end, inr (cleaning_failure e)).
Proof.
  destruct e as [m|m|m]; try reflexivity.
  simpl. destruct (rate_limited m); reflexivity.
Qed.

(** X14: the model cleanup of V3 sends the model what that of V1
    sends: one prompt built from the text when an API key is set, none
    otherwise.  V1's shows no warning; V3's shows one exactly when the model
    call fails with a resource-exhausted error whose message has the rate
    limit marks.  Neither of the two runs the agent or fetches a page. *)
Theorem clean_with_genai_requests (w : world) (text : str) :
  let t3 := trace (clean_with_genai uni_lower w text) in
  let t1 := trace (clean_with_genai_v1 uni_lower w text) in
  prompts_sent t3 = prompts_sent t1
  /\ prompts_sent t3
     = match api_key w with Some _ => [prompt text] | None => [] end
  /\ warnings t1 = []
  /\ (warnings t3 <> [] <->
      exists key m, api_key w = Some key
        /\ generate_content w (prompt text) = inl (ResourceExhausted m)
        /\ rate_limited m = true)
  /\ agent_runs t3 = [] /\ http_gets t3 = []
  /\ agent_runs t1 = [] /\ http_gets t1 = [].
Proof.
  cbv zeta.
  rewrite clean_with_genai_v1_cases.
  unfold clean_with_genai.
  unfold bind at 1. unfold emit at 1.
  rewrite (io_eta (ask_genai uni_lower w text)).
  rewrite ask_genai_trace, ask_genai_outcome.
  destruct (api_key w) as [key|].
  - destruct (generate_content w (prompt text)) as [e|r] eqn:Eg.
    + unfold try_except. rewrite cleaning_failed_cases.
      destruct e as [m|m|m]; simpl.
      * repeat split; try reflexivity; try (intros H; congruence).
        intros (k & m' & _ & H & _). discriminate.
      * destruct (rate_limited m) eqn:Er; simpl.
        -- repeat split; try reflexivity; try discriminate.
           intros _. exists key, m. auto.
        -- repeat split; try reflexivity; try (intros H; congruence).
           intros (k & m' & _ & H & Hr). inversion H; subst. congruence.
      * repeat split; try reflexivity; try (intros H; congruence).
        intros (k & m' & _ & H & _). discriminate.
    + simpl. repeat split; try reflexivity; try (intros H; congruence).
      intros (k & m' & _ & H & _). discriminate.
  - simpl. repeat split; try reflexivity; try (intros H; congruence).
    intros (k & m' & H & _). discriminate.
Qed.

Lemma run_agent_trace_cases (w : world) (url : str) :
  trace (run_agent uni_lower w url) =
  AgentRun url ::
  match agent_run w url with
  | inl _ => []
  | inr result =>
      if (len (initial_clean_of result) <? MIN_CONTENT_LENGTH)%nat
      then []
      else trace (clean_with_genai uni_lower w (initial_clean_of result))
  end.
Proof.
  unfold run_agent, trace, bind, emit, lift, ret.
  destruct (agent_run w url) as [e|result]; simpl; [reflexivity|].
  destruct (len (initial_clean_of result) <? MIN_CONTENT_LENGTH)%nat;
    [reflexivity|].
  destruct (clean_with_genai uni_lower w (initial_clean_of result))
    as [t [e|v]]; simpl; rewrite ?app_nil_r; reflexivity.
Qed.

(** The events of [extract_content_with_agent]: those of the [try]
    statement, then those of the [finally] block. *)
Lemma extract_content_with_agent_trace (w : world) (url : str) :
  trace (extract_content_with_agent uni_lower w url) =
  match new_chat_model w with
  | inl _ => []
  | inr _ =>
      trace (try_except (run_agent uni_lower w url) agent_failed)
      ++ trace (shutdown w)
  end.
Proof.
  unfold extract_content_with_agent. rewrite trace_bind.
  unfold lift at 1 2. simpl trace at 1. simpl outcome at 1.
  destruct (new_chat_model w); [reflexivity|].
  rewrite trace_finally. reflexivity.
Qed.

Lemma clean_with_genai_backstage (w : world) (text : str) :
  forallb backstage (trace (clean_with_genai uni_lower w text)) = true.
Proof.
  unfold clean_with_genai, ask_genai, environ_api_key, trace, try_except,
    bind, emit, lift, ret.
  destruct (api_key w); simpl.
  - destruct (generate_content w (prompt text)) as [e|r]; simpl.
    + destruct e as [m|m|m]; simpl; try reflexivity.
      destruct (rate_limited m); reflexivity.
    + destruct (contains refusal_marker (lower uni_lower r)); reflexivity.
  - reflexivity.
Qed.

(** The events of the agent pipeline: the agent run, then events behind
    the scenes. *)
Lemma extract_content_with_agent_shape (w : world) (url : str) :
  match new_chat_model w with
  | inl _ => trace (extract_content_with_agent uni_lower w url) = []
  | inr _ =>
      exists body,
        trace (extract_content_with_agent uni_lower w url) = AgentRun url :: body
        /\ forallb backstage body = true
  end.
Proof.
  rewrite extract_content_with_agent_trace.
  destruct (new_chat_model w); [reflexivity|].
  rewrite trace_try_except, run_agent_trace_cases. simpl.
  eexists. split; [reflexivity|].
  rewrite !forallb_app, shutdown_backstage, andb_true_r.
  apply andb_true_iff. split.
  - destruct (agent_run w url) as [e|result]; [reflexivity|].
    destruct (len (initial_clean_of result) <? MIN_CONTENT_LENGTH)%nat;
      [reflexivity|].
    apply clean_with_genai_backstage.
  - destruct (outcome (run_agent uni_lower w url)) as [e|v]; [|reflexivity].
    apply agent_failed_backstage.
Qed.

Lemma extract_content_with_agent_runs (w : world) (url : str) :
  agent_runs (trace (extract_content_with_agent uni_lower w url))
  = match new_chat_model w with inl _ => [] | inr _ => [url] end
  /\ http_gets (trace (extract_content_with_agent uni_lower w url)) = [].
Proof.
  pose proof (extract_content_with_agent_shape w url) as H.
  destruct (new_chat_model w).
  - rewrite H. split; reflexivity.
  - destruct H as (body & -> & Hb).
    destruct (backstage_none _ Hb) as (Ha & Hh & _).
    simpl. rewrite Ha, Hh. split; reflexivity.
Qed.

Lemma agent_verdict_error (w : world) (url : str) :
  fst (agent_verdict uni_lower w url) = false ->
  starts_with (py "Error") (snd (agent_verdict uni_lower w url)) = true.
Proof.
  unfold agent_verdict. destruct (agent_run w url) as [e|result].
  - intros _. apply extraction_failure_error.
  - cbv zeta.
    destruct (len (initial_clean_of result) <? MIN_CONTENT_LENGTH)%nat;
      [reflexivity | discriminate].
Qed.

(** X15: [extract_content_with_agent] raises exactly when the chat
    model cannot be built (before the [try]) or when the channel shutdown of
    the [finally] block raises something other than an attribute error.  In
    every other case it returns, a failure text starts with "Error", and an
    exception of the agent run is turned into the failure text of the
    handler. *)
Theorem agent_pipeline_raises_outside_try (w : world) (url : str) :
  let run := extract_content_with_agent uni_lower w url in
  (forall e, outcome run = inl e <->
     new_chat_model w = inl e
     \/ ((exists u, new_chat_model w = inr u)
         /\ shutdown_channel w = ShutdownRaises e))
  /\ (forall text, outcome run = inr (false, text) ->
        starts_with (py "Error") text = true)
  /\ (forall e u, agent_run w url = inl e -> new_chat_model w = inr u ->
        (forall e', shutdown_channel w <> ShutdownRaises e') ->
        outcome run = inr (false, extraction_failure e)).
Proof.
  cbv zeta. rewrite extract_content_with_agent_outcome.
  split; [|split].
  - intros e. destruct (new_chat_model w) as [e0|u].
    + split.
      * intros H. left. inversion H. reflexivity.
      * intros [H|[[u Hu] _]]; [inversion H; reflexivity | discriminate].
    + destruct (shutdown_channel w) as [| |e1]; split;
        try discriminate;
        try (intros [H|[_ H]]; discriminate).
      * intros H. right. split; [exists u; reflexivity|].
        inversion H. reflexivity.
      * intros [H|[_ H]]; [discriminate|]. inversion H. reflexivity.
  - intros text. destruct (new_chat_model w); [discriminate|].
    pose proof (agent_verdict_error w url) as Hv.
    destruct (shutdown_channel w); try discriminate;
      intros H; inversion H as [Hv']; rewrite Hv' in Hv; apply Hv; reflexivity.
  - intros e u Ha ->.  intros Hs. unfold agent_verdict. rewrite Ha.
    destruct (shutdown_channel w) as [| |e1] eqn:E; try reflexivity.
    exfalso. exact (Hs e1 eq_refl).
Qed.

(** X16: when the chat model cannot be built,
    [extract_content_with_agent] does nothing at all.  Otherwise it runs the
    agent exactly once, on the given address and first, fetches no page
    itself, and ends with the channel shutdown of the [finally] block, whose
    ignored attribute error is printed last. *)
Theorem agent_pipeline_events (w : world) (url : str) :
  let t := trace (extract_content_with_agent uni_lower w url) in
  (forall e, new_chat_model w = inl e -> t = [])
  /\ (forall u, new_chat_model w = inr u ->
        (exists body, t = AgentRun url :: body ++ trace (shutdown w))
        /\ agent_runs t = [url]
        /\ http_gets t = []
        /\ (shutdown_channel w = ShutdownAttributeError ->
            exists before,
              t = before ++
                  [Printed (py "Warning: Ignored AttributeError: module 'grpc.aio' has no attribute 'shutdown_channel'")])).
Proof.
  cbv zeta.
  destruct (extract_content_with_agent_runs w url) as [Ha Hh].
  rewrite extract_content_with_agent_trace in *.
  split.
  - intros e ->. reflexivity.
  - intros u Hu. rewrite Hu in *. split; [|split; [exact Ha | split; [exact Hh|]]].
    + rewrite trace_try_except, run_agent_trace_cases.
      simpl. eexists. reflexivity.
    + intros Hs. unfold shutdown. rewrite Hs. eexists. reflexivity.
Qed.

(** X17: when the model call of the cleanup raises on a text that is
    long enough, both pipelines report success, and the page's content is the
    error text of the cleanup: [extract_content] returns it with [True], and
    [extract_content_with_agent] and [process_page] file it as the page's
    content. *)
Theorem cleaning_error_passes_as_content (w : world) (url : str) (e : exn) :
  (forall response main_content,
     http_get w url = inr response ->
     main_content_of (decompose response) = inr main_content ->
     (MIN_CONTENT_LENGTH <= len (clean_text uni_alnum main_content))%nat ->
     outcome (ask_genai uni_lower w (clean_text uni_alnum main_content))
     = inl e ->
     outcome (extract_content uni_alnum uni_lower w url)
     = inr (true, cleaning_error ++ exn_str e))
  /\ (forall result parsed,
        agent_run w url = inr result ->
        (MIN_CONTENT_LENGTH <= len (initial_clean_of result))%nat ->
        outcome (ask_genai uni_lower w (initial_clean_of result)) = inl e ->
        new_chat_model w = inr tt ->
        (forall e', shutdown_channel w <> ShutdownRaises e') ->
        urlparse url = inr parsed ->
        outcome (extract_content_with_agent uni_lower w url)
        = inr (true, cleaning_failure e)
        /\ exists page_title,
             outcome (process_page uni_lower urlparse w url)
             = inr (page_title, cleaning_failure e)).
Proof.
  split.
  - intros response mc Hg Hm Hl He.
    rewrite extract_content_cases, Hg, Hm. cbv zeta.
    apply Nat.ltb_ge in Hl. rewrite Hl. unfold cleaned_v1, outcome at 1.
    simpl. rewrite He. reflexivity.
  - intros result parsed Ha Hl He Hm Hs Hp.
    assert (Hv : agent_verdict uni_lower w url = (true, cleaning_failure e)).
    { unfold agent_verdict. rewrite Ha. cbv zeta.
      apply Nat.ltb_ge in Hl. rewrite Hl. unfold cleaned. rewrite He.
      reflexivity. }
    assert (Ho : outcome (extract_content_with_agent uni_lower w url)
                 = inr (true, cleaning_failure e)).
    { rewrite extract_content_with_agent_outcome, Hm, Hv.
      destruct (shutdown_channel w) as [| |e1] eqn:E; try reflexivity.
      exfalso. exact (Hs e1 eq_refl). }
    split; [exact Ho|].
    rewrite process_page_outcome, Ho, Hp. simpl. eexists. reflexivity.
Qed.

(** X18: a raw text shorter than [MIN_CONTENT_LENGTH] is always
    rejected, whatever the cleaning does to it: the direct pipeline returns
    the insufficient-content failure after its single page request, and the
    agent pipeline never calls the model cleanup and returns the
    insufficient-content failure, unless building the chat model or the
    [finally] block raises. *)
Theorem short_raw_text_rejected (w : world) (url : str) :
  (forall response main_content,
     http_get w url = inr response ->
     main_content_of (decompose response) = inr main_content ->
     (len main_content < MIN_CONTENT_LENGTH)%nat ->
     extract_content uni_alnum uni_lower w url
     = ([HttpGet url], inr (false, insufficient_content)))
  /\ (forall result,
        agent_run w url = inr result ->
        (len (agent_text result) < MIN_CONTENT_LENGTH)%nat ->
        cleanup_calls (trace (extract_content_with_agent uni_lower w url)) = []
        /\ outcome (extract_content_with_agent uni_lower w url)
           = match new_chat_model w with
             | inl e => inl e
             | inr _ =>
                 match shutdown_channel w with
                 | ShutdownRaises e => inl e
                 | _ => inr (false, insufficient_content)
                 end
             end).
Proof.
  split.
  - intros response mc Hg Hm Hl.
    rewrite extract_content_cases, Hg, Hm. cbv zeta.
    pose proof (clean_text_length uni_alnum mc) as Hle.
    assert (E : (len (clean_text uni_alnum mc) <? MIN_CONTENT_LENGTH)%nat = true)
      by (apply Nat.ltb_lt; lia).
    rewrite E. reflexivity.
  - intros result Ha Hl.
    pose proof (initial_clean_subseq result) as Hle.
    apply subseq_length in Hle.
    fold (len (initial_clean_of result)) (len (agent_text result)) in Hle.
    assert (Hs : (len (initial_clean_of result) < MIN_CONTENT_LENGTH)%nat) by lia.
    split.
    + rewrite extract_content_with_agent_trace.
      destruct (new_chat_model w); [reflexivity|].
      rewrite trace_try_except, !cleanup_calls_app.
      rewrite (run_agent_short_trace _ _ _ _ Ha Hs), shutdown_trace_quiet.
      rewrite run_agent_outcome, Ha. cbv zeta.
      apply Nat.ltb_lt in Hs. rewrite Hs. reflexivity.
    + rewrite extract_content_with_agent_outcome. unfold agent_verdict.
      rewrite Ha. cbv zeta. apply Nat.ltb_lt in Hs. rewrite Hs. reflexivity.
Qed.

End Agent.

(** ** Link discovery in closed form *)

Section LinkLoop.
Variable urljoin : str -> str -> exn + str.
Variable urlparse : str -> exn + parsed_url.



End LinkLoop.


(** ** The batch of pages *)

Lemma str_eqb_neq (a b : str) : a <> b -> str_eqb a b = false.
Proof.
  intros H. destruct (str_eqb a b) eqn:E; [|reflexivity].
  apply str_eqb_eq in E. contradiction.
Qed.

Lemma dict_get_set (d : list (str * str)) (k v k' : str) :
  dict_get (dict_set d k v) k'
  = if str_eqb k k' then Some v else dict_get d k'.
Proof.
  induction d as [|[k0 v0] d IH]; simpl; [reflexivity|].
  destruct (str_eqb k0 k) eqn:E; simpl.
  - apply str_eqb_eq in E. subst k0.
    destruct (str_eqb k k'); reflexivity.
  - rewrite IH. destruct (str_eqb k0 k') eqn:E'; [|reflexivity].
    apply str_eqb_eq in E'. subst k0.
    rewrite str_eqb_neq; [reflexivity|].
    intros ->. rewrite str_eqb_refl in E. discriminate.
Qed.

Lemma dict_set_keys (d : list (str * str)) (k v : str) :
  map fst (dict_set d k v)
  = if existsb (fun k0 => str_eqb k0 k) (map fst d)
    then map fst d else map fst d ++ [k].
Proof.
  induction d as [|[k0 v0] d IH]; simpl; [reflexivity|].
  destruct (str_eqb k0 k); simpl; [reflexivity|].
  rewrite IH. destruct (existsb _ (map fst d)); reflexivity.
Qed.

Lemma find_app_first (A : Type) (p : A -> bool) (l1 l2 : list A) :
  List.find p (l1 ++ l2)
  = match List.find p l1 with
    | Some x => Some x
    | None => List.find p l2
    end.
Proof.
  induction l1 as [|x l1 IH]; simpl; [reflexivity|].
  destruct (p x); [reflexivity | exact IH].
Qed.

(** Filing pairs in order: a key reads the value filed last under it. *)
Lemma fold_file_get (items : list (str * str)) :
  forall (d : list (str * str)) (k : str),
    dict_get (fold_left file_under items d) k
    = match List.find (fun lc => str_eqb (fst lc) k) (rev items) with
      | Some lc => Some (snd lc)
      | None => dict_get d k
      end.
Proof.
  induction items as [|[k0 v0] items IH]; intros d k; simpl; [reflexivity|].
  rewrite IH, find_app_first.
  destruct (List.find _ (rev items)); [reflexivity|].
  simpl. unfold file_under. simpl. rewrite dict_get_set.
  destruct (str_eqb k0 k); reflexivity.
Qed.

(** The keys after filing: the old ones, then the new ones in the order
    in which they first came. *)
Lemma fold_file_keys (items : list (str * str)) :
  forall d : list (str * str),
    map fst (fold_left file_under items d)
    = map fst d ++ unique_from (map fst d) (map fst items).
Proof.
  induction items as [|[k0 v0] items IH]; intros d; simpl.
  - rewrite app_nil_r. reflexivity.
  - rewrite IH. unfold file_under. simpl. rewrite dict_set_keys.
    destruct (existsb _ (map fst d)); [reflexivity|].
    rewrite <- app_assoc. reflexivity.
Qed.

Lemma combine_map_snd (A B C : Type) (f : B -> C) (l : list A) (r : list B) :
  combine l (map f r) = map (fun p => (fst p, f (snd p))) (combine l r).
Proof.
  revert r. induction l as [|x l IH]; intros [|y r]; simpl; try reflexivity.
  rewrite IH. reflexivity.
Qed.

Lemma fold_left_map (A B C : Type) (g : A -> C -> A) (h : B -> C)
    (l : list B) (a : A) :
  fold_left g (map h l) a = fold_left (fun a x => g a (h x)) l a.
Proof.
  revert a. induction l as [|x l IH]; intros a; simpl; [reflexivity|].
  apply IH.
Qed.

Lemma map_fst_combine (A B : Type) (l : list A) (r : list B) :
  List.length l = List.length r -> map fst (combine l r) = l.
Proof.
  revert r. induction l as [|x l IH]; intros [|y r] H; simpl in *;
    try reflexivity; try discriminate.
  rewrite IH by lia. reflexivity.
Qed.

Lemma collect_inr (A : Type) (rs : list (exn + A)) (l : list A) :
  collect rs = inr l -> rs = map inr l.
Proof.
  revert l. induction rs as [|[e|a] rs IH]; intros l H; simpl in H.
  - inversion H. reflexivity.
  - discriminate.
  - destruct (collect rs) as [e|l']; [discriminate|].
    inversion H; subst. simpl. rewrite (IH l' eq_refl). reflexivity.
Qed.

Section Batch.
Variable uni_lower : str -> str.
Variable urljoin : str -> str -> exn + str.
Variable urlparse : str -> exn + parsed_url.

Lemma run_batch_outcome (w : world) (page_urls page_texts : list str) :
  outcome (run_batch uni_lower urlparse w page_urls page_texts) =
  match collect (map (fun u => outcome (process_page uni_lower urlparse w u))
                   page_urls) with
  | inl e => inl e
  | inr results =>
      inr (fold_left file_under (combine page_texts (map snd results)) [])
  end.
Proof.
  unfold run_batch. rewrite outcome_bind, gather_outcome, map_map.
  destruct (collect _) as [e|results]; [reflexivity|].
  simpl. f_equal. rewrite combine_map_snd, fold_left_map. reflexivity.
Qed.

Lemma extract_pages_outcome (w : world) (url : str) (explore_pages : bool)
    (max_pages : Z) :
  outcome (extract_pages uni_lower urljoin urlparse w url explore_pages
             max_pages) =
  match (if explore_pages
         then outcome (find_linked_pages urljoin urlparse w (with_scheme url)
                         max_pages)
         else inr []) with
  | inl e => inl e
  | inr linked_pages =>
      outcome (run_batch uni_lower urlparse w
                 (with_scheme url :: map link_url linked_pages)
                 (py "Home" :: map link_text linked_pages))
  end.
Proof.
  unfold extract_pages. cbv zeta. rewrite outcome_bind.
  assert (Hend : forall d : list (str * str),
            outcome (match d with
                     | _ :: _ => ret d
                     | [] =>
                         emit (StError (py "No content extracted from the page.")) ;;;
                         ret d
                     end) = inr d).
  { intros [|x d]; reflexivity. }
  destruct explore_pages.
  - rewrite outcome_bind.
    destruct (outcome (find_linked_pages urljoin urlparse w (with_scheme url)
                         max_pages)) as [e|[|l ls]]; [reflexivity| |].
    + rewrite outcome_bind. simpl outcome at 2.
      destruct (outcome (run_batch _ _ _ _ _)) as [e|d]; [reflexivity|].
      apply Hend.
    + destruct (outcome (run_batch _ _ _ _ _)) as [e|d]; [reflexivity|].
      apply Hend.
  - destruct (outcome (run_batch _ _ _ _ _)) as [e|d]; [reflexivity|].
    apply Hend.
Qed.

(** X20: when a click with exploration returns, every page of the
    batch -- the page itself and each linked page -- was processed, the keys
    of [all_pages_info] are the distinct labels in the order in which they
    first came, "Home" first, and a label reads the content of the last page
    that bears it: of two linked pages with one link text only the later one
    is kept. *)
Theorem pages_filed_by_label (w : world) (url : str) (max_pages : Z)
    (linked_pages : list link) (all_pages_info : list (str * str)) :
  outcome (find_linked_pages urljoin urlparse w (with_scheme url) max_pages)
  = inr linked_pages ->
  outcome (extract_pages uni_lower urljoin urlparse w url true max_pages)
  = inr all_pages_info ->
  let page_urls := with_scheme url :: map link_url linked_pages in
  let page_texts := py "Home" :: map link_text linked_pages in
  exists contents : list str,
    Forall2 (fun page_url content =>
               exists page_title,
                 outcome (process_page uni_lower urlparse w page_url)
                 = inr (page_title, content))
      page_urls contents
    /\ map fst all_pages_info = unique page_texts
    /\ forall label,
         dict_get all_pages_info label = last_under page_texts contents label.
Proof.
  intros Hl Hd. cbv zeta. rewrite extract_pages_outcome, Hl in Hd.
  rewrite run_batch_outcome in Hd.
  set (page_urls := with_scheme url :: map link_url linked_pages) in *.
  set (page_texts := py "Home" :: map link_text linked_pages) in *.
  assert (Hlens : List.length page_texts = List.length page_urls).
  { unfold page_texts, page_urls. simpl. rewrite !length_map. reflexivity. }
  clearbody page_urls page_texts.
  destruct (collect _) as [e|results] eqn:Ec; [discriminate|].
  inversion Hd; subst all_pages_info. clear Hd.
  apply collect_inr in Ec.
  assert (Hlen : List.length page_texts = List.length (map snd results)).
  { rewrite length_map, Hlens.
    rewrite <- (length_map (fun u => outcome (process_page uni_lower urlparse w u))),
      Ec, length_map. reflexivity. }
  exists (map snd results). split; [|split].
  - clear Hlen Hlens. revert results Ec.
    induction page_urls as [|u us IH]; intros [|[t c] rs] Ec; simpl in Ec;
      try discriminate; [constructor|].
    inversion Ec as [[Hu Hus]]. constructor.
    + exists t. exact Hu.
    + apply IH. exact Hus.
  - rewrite fold_file_keys, map_fst_combine by exact Hlen. reflexivity.
  - intros label. rewrite fold_file_get. unfold last_under.
    destruct (List.find _ _); reflexivity.
Qed.

End Batch.

Section BatchEvents.
Variable uni_lower : str -> str.
Variable urljoin : str -> str -> exn + str.
Variable urlparse : str -> exn + parsed_url.

Lemma process_page_trace (w : world) (page_url : str) :
  trace (process_page uni_lower urlparse w page_url)
  = trace (extract_content_with_agent uni_lower w page_url).
Proof.
  unfold process_page. rewrite trace_bind.
  destruct (outcome (extract_content_with_agent uni_lower w page_url))
    as [e|[success content]]; [apply app_nil_r|].
  rewrite trace_bind. unfold lift at 1 2. simpl trace at 2. simpl outcome at 1.
  destruct (urlparse page_url) as [e|parsed]; [apply app_nil_r|].
  destruct success; apply app_nil_r.
Qed.

Lemma process_page_needs_model (w : world) (page_url : str) (e : exn) :
  new_chat_model w = inl e ->
  outcome (process_page uni_lower urlparse w page_url) = inl e.
Proof.
  intros H. rewrite process_page_outcome, extract_content_with_agent_outcome, H.
  reflexivity.
Qed.

(** The events of a batch: unless the chat model cannot be built, the
    agent runs on every page of the batch, in order. *)
Lemma gather_pages_events (w : world) (page_urls : list str) :
  let batch := gather (map (process_page uni_lower urlparse w) page_urls) in
  agent_runs (trace batch)
  = match new_chat_model w with inl _ => [] | inr _ => page_urls end
  /\ http_gets (trace batch) = []
  /\ errors_shown (trace batch) = [].
Proof.
  cbv zeta. induction page_urls as [|u us IH].
  - simpl. destruct (new_chat_model w); repeat split; reflexivity.
  - destruct IH as (Hk & Hh & He).
    cbn [map]. rewrite gather_cons. cbn [trace fst].
    fold (trace (process_page uni_lower urlparse w u)).
    fold (trace (gather (map (process_page uni_lower urlparse w) us))).
    rewrite process_page_trace.
    rewrite agent_runs_app, http_gets_app, errors_shown_app, Hk, Hh, He.
    pose proof (extract_content_with_agent_shape uni_lower w u) as Hshape.
    destruct (new_chat_model w) as [e|m] eqn:Em.
    + rewrite Hshape. repeat split; reflexivity.
    + destruct Hshape as (body & -> & Hbody).
      destruct (backstage_none _ Hbody) as (Ba & Bh & Be).
      cbn [agent_runs http_gets errors_shown]. rewrite Ba, Bh, Be.
      repeat split; reflexivity.
Qed.

Lemma find_linked_pages_trace (w : world) (url : str) (max_pages : Z) :
  exists rest,
    trace (find_linked_pages urljoin urlparse w url max_pages)
    = HttpGet url :: rest
    /\ forallb backstage rest = true.
Proof.
  unfold find_linked_pages. rewrite trace_try_except, discover_links_trace.
  destruct (outcome (discover_links urljoin urlparse w url max_pages))
    as [e|ls].
  - destruct e; eexists; split; reflexivity.
  - eexists. split; reflexivity.
Qed.

Lemma find_linked_pages_returns (w : world) (url : str) (max_pages : Z) :
  exists ls,
    outcome (find_linked_pages urljoin urlparse w url max_pages) = inr ls
    /\ ((1 <= max_pages)%Z -> (Z.of_nat (List.length ls) <= max_pages)%Z).
Proof.
  rewrite find_linked_pages_cases.
  destruct (http_get w url) as [e|page];
    [exists []; split; [reflexivity | simpl; lia]|].
  destruct (urlparse url) as [e|base];
    [exists []; split; [reflexivity | simpl; lia]|].
  destruct (link_loop urljoin urlparse url (netloc base) max_pages
              (nav_links page) []) as [e|ls] eqn:El;
    [exists []; split; [reflexivity | simpl; lia]|].
  exists ls. split; [reflexivity|]. intros Hmax.
  apply link_loop_spec in El.
  destruct El as (new & picked & _ & _ & _ & _ & _ & Hlen).
  apply Hlen. simpl. lia.
Qed.

Lemma run_batch_trace (w : world) (page_urls page_texts : list str) :
  trace (run_batch uni_lower urlparse w page_urls page_texts)
  = trace (gather (map (process_page uni_lower urlparse w) page_urls)).
Proof.
  unfold run_batch. rewrite trace_bind.
  destruct (outcome (gather _)); apply app_nil_r.
Qed.

Lemma run_batch_nonempty (w : world) (page_urls page_texts : list str)
    (u t : str) (d : list (str * str)) :
  outcome (run_batch uni_lower urlparse w (u :: page_urls) (t :: page_texts))
  = inr d ->
  exists content rest, d = (t, content) :: rest.
Proof.
  rewrite run_batch_outcome. cbn [map collect].
  destruct (outcome (process_page uni_lower urlparse w u)) as [e|[title c]];
    [discriminate|].
  destruct (collect _) as [e|results]; [discriminate|].
  intros H. inversion H. clear H. cbn [map combine fold_left].
  unfold file_under at 2. cbn [dict_set fst snd].
  generalize (combine page_texts (map snd results)).
  assert (Hkeep : forall items c0 d0,
            exists content rest,
              fold_left file_under items ((t, c0) :: d0) = (t, content) :: rest).
  { induction items as [|[k v] items IH]; intros c0 d0; simpl.
    - exists c0, d0. reflexivity.
    - unfold file_under at 2. simpl. destruct (str_eqb t k); apply IH. }
  intros items. apply Hkeep.
Qed.

(** The events of a click on the extraction button. *)
Lemma extract_pages_trace (w : world) (url : str) (explore_pages : bool)
    (max_pages : Z) :
  exists (discovery : list event) (linked_pages : list link),
    (if explore_pages
     then outcome (find_linked_pages urljoin urlparse w (with_scheme url)
                     max_pages) = inr linked_pages
          /\ exists rest, discovery = HttpGet (with_scheme url) :: rest
                          /\ forallb backstage rest = true
     else linked_pages = [] /\ discovery = [])
    /\ trace (extract_pages uni_lower urljoin urlparse w url explore_pages
                max_pages)
       = discovery
         ++ trace (gather (map (process_page uni_lower urlparse w)
                             (with_scheme url :: map link_url linked_pages))).
Proof.
  unfold extract_pages. cbv zeta. rewrite trace_bind.
  assert (Hend : forall d0 : list (str * str),
            d0 <> [] ->
            trace (match d0 with
                   | _ :: _ => ret d0
                   | [] =>
                       emit (StError (py "No content extracted from the page.")) ;;;
                       ret d0
                   end) = []).
  { intros [|x d0] H; [congruence | reflexivity]. }
  assert (Htail : forall urls texts,
            trace (run_batch uni_lower urlparse w (with_scheme url :: urls)
                     (py "Home" :: texts))
            ++ match outcome (run_batch uni_lower urlparse w
                                (with_scheme url :: urls) (py "Home" :: texts)) with
               | inl _ => []
               | inr a =>
                   trace (match a with
                          | _ :: _ => ret a
                          | [] =>
                              emit (StError (py "No content extracted from the page.")) ;;;
                              ret a
                          end)
               end
            = trace (gather (map (process_page uni_lower urlparse w)
                               (with_scheme url :: urls)))).
  { intros urls texts. rewrite run_batch_trace.
    destruct (outcome (run_batch _ _ _ _ _)) as [e|d0] eqn:Eo;
      [apply app_nil_r|].
    apply run_batch_nonempty in Eo. destruct Eo as (c & rest & ->).
    apply app_nil_r. }
  destruct explore_pages.
  - destruct (find_linked_pages_returns w (with_scheme url) max_pages)
      as (ls & Hls & _).
    destruct (find_linked_pages_trace w (with_scheme url) max_pages)
      as (rest & Ht & Hq).
    rewrite trace_bind, outcome_bind, Hls, Ht.
    destruct ls as [|l ls].
    + exists (HttpGet (with_scheme url) :: rest ++ [StWarning no_linked_pages]), [].
      split.
      * split; [reflexivity|]. eexists. split; [reflexivity|].
        rewrite forallb_app, Hq. reflexivity.
      * rewrite trace_bind, outcome_bind.
        change (trace (emit (StWarning no_linked_pages)))
          with [StWarning no_linked_pages].
        change (outcome (emit (StWarning no_linked_pages)))
          with (@inr exn unit tt).
        cbv beta iota. change (map link_url []) with (@nil str).
        rewrite <- (Htail [] []).
        cbn [app]. rewrite <- !app_assoc. reflexivity.
    + exists (HttpGet (with_scheme url) :: rest), (l :: ls). split.
      * split; [reflexivity|]. eexists. split; [reflexivity | exact Hq].
      * rewrite <- (Htail (map link_url (l :: ls)) (map link_text (l :: ls))).
        cbn [app]. rewrite <- !app_assoc. reflexivity.
  - exists [], []. split; [split; reflexivity|]. apply (Htail [] []).
Qed.

(** X21: the error "No content extracted from the page." of [main] is
    never shown: a click shows no [st.error] at all, and when the batch
    returns, [all_pages_info] holds an entry, its first, under "Home". *)
Theorem no_content_error_unreachable (w : world) (url : str)
    (explore_pages : bool) (max_pages : Z) :
  let click :=
    extract_pages uni_lower urljoin urlparse w url explore_pages max_pages in
  errors_shown (trace click) = []
  /\ (forall all_pages_info, outcome click = inr all_pages_info ->
        exists content rest, all_pages_info = (py "Home", content) :: rest).
Proof.
  cbv zeta. split.
  - destruct (extract_pages_trace w url explore_pages max_pages)
      as (discovery & linked & Hd & ->).
    rewrite errors_shown_app.
    destruct (gather_pages_events w (with_scheme url :: map link_url linked))
      as (_ & _ & He).
    cbv zeta in He. rewrite He, app_nil_r.
    destruct explore_pages.
    + destruct Hd as (_ & rest & -> & Hq).
      destruct (backstage_none _ Hq) as (_ & _ & Hr). exact Hr.
    + destruct Hd as [_ ->]. reflexivity.
  - intros d. rewrite extract_pages_outcome.
    destruct (if explore_pages then _ else _) as [e|linked]; [discriminate|].
    apply run_batch_nonempty.
Qed.

(** X22: a click runs the agent on at most [1 + max_pages] pages, on
    at most one without exploration, and fetches a page itself only for the
    discovery of links: the given page, once.  When the click returns, the
    agent has run exactly once on each page of the batch, in order: the page
    itself, then the linked pages. *)
Theorem pages_processed (w : world) (url : str) (explore_pages : bool)
    (max_pages : Z) :
  (1 <= max_pages)%Z ->
  let click :=
    extract_pages uni_lower urljoin urlparse w url explore_pages max_pages in
  (List.length (agent_runs (trace click)) <= 1 + Z.to_nat max_pages)%nat
  /\ http_gets (trace click)
     = (if explore_pages then [with_scheme url] else [])
  /\ (explore_pages = false ->
      (List.length (agent_runs (trace click)) <= 1)%nat)
  /\ (forall all_pages_info, outcome click = inr all_pages_info ->
        exists linked_pages,
          (if explore_pages
           then outcome (find_linked_pages urljoin urlparse w (with_scheme url)
                           max_pages) = inr linked_pages
           else linked_pages = [])
          /\ agent_runs (trace click)
             = with_scheme url :: map link_url linked_pages).
Proof.
  intros Hmax. cbv zeta.
  destruct (extract_pages_trace w url explore_pages max_pages)
    as (discovery & linked & Hd & Ht).
  rewrite Ht, agent_runs_app, http_gets_app.
  destruct (gather_pages_events w (with_scheme url :: map link_url linked))
    as (Hk & Hh & _).
  cbv zeta in Hk, Hh. rewrite Hh, app_nil_r.
  assert (Hlinked : (List.length linked <= Z.to_nat max_pages)%nat
                    /\ (explore_pages = false -> linked = [])).
  { destruct explore_pages.
    - destruct Hd as (Hl & _).
      destruct (find_linked_pages_returns w (with_scheme url) max_pages)
        as (ls & Hls & Hlen).
      rewrite Hl in Hls. inversion Hls; subst ls.
      split; [specialize (Hlen Hmax); lia | discriminate].
    - destruct Hd as [-> _]. split; [simpl; lia | reflexivity]. }
  assert (Hdisc : agent_runs discovery = []
                  /\ http_gets discovery
                     = if explore_pages then [with_scheme url] else []).
  { destruct explore_pages.
    - destruct Hd as (_ & rest & -> & Hq).
      destruct (backstage_none _ Hq) as (Ha & Hg & _).
      simpl. rewrite Ha, Hg. split; reflexivity.
    - destruct Hd as [_ ->]. split; reflexivity. }
  destruct Hdisc as [Hda Hdh]. rewrite Hda, Hdh. cbn [app].
  destruct Hlinked as [Hlen Hnone].
  assert (Hruns : (List.length (agent_runs
                     (trace (gather (map (process_page uni_lower urlparse w)
                                       (with_scheme url :: map link_url linked)))))
                   <= 1 + List.length linked)%nat).
  { rewrite Hk. destruct (new_chat_model w); [simpl; lia|].
    cbn [List.length]. rewrite length_map. lia. }
  split; [lia|]. split; [reflexivity|]. split.
  - intros He. rewrite (Hnone He) in Hruns |- *. simpl in Hruns. exact Hruns.
  - intros d Ho. exists linked. split.
    + destruct explore_pages; [exact (proj1 Hd) | exact (proj1 Hd)].
    + rewrite extract_pages_outcome in Ho.
      assert (Hsel : (if explore_pages
                      then outcome (find_linked_pages urljoin urlparse w
                                      (with_scheme url) max_pages)
                      else inr []) = inr linked).
      { destruct explore_pages; [exact (proj1 Hd)|].
        destruct Hd as [-> _]. reflexivity. }
      rewrite Hsel, run_batch_outcome in Ho. cbn [map collect] in Ho.
      rewrite Hk. destruct (new_chat_model w) as [e|m] eqn:Em; [|reflexivity].
      rewrite (process_page_needs_model _ _ _ Em) in Ho. discriminate.
Qed.

(** C10: when the fetch of the base page fails, and whenever anything else
    raises inside the [try] of [find_linked_pages], the function returns the
    empty list and only prints to the console.  [main] then shows the warning
    it shows for a page without links, which names no error, and processes
    the main page alone: what follows the warning is [process_page] on the
    page itself and nothing else, the agent runs on that page only, and the
    result holds that page's content under "Home" -- exactly as with
    "Explore Linked Pages" unchecked. *)
Theorem discovery_failure_is_silent (w : world) (url : str) (max_pages : Z) :
  let found := find_linked_pages urljoin urlparse w (with_scheme url) max_pages in
  let alone := extract_pages uni_lower urljoin urlparse w url false max_pages in
  let explored := extract_pages uni_lower urljoin urlparse w url true max_pages in
  let main_page := process_page uni_lower urlparse w (with_scheme url) in
  (forall e, http_get w (with_scheme url) = inl e ->
     outcome (discover_links urljoin urlparse w (with_scheme url) max_pages)
     = inl e)
  /\ (forall e,
        outcome (discover_links urljoin urlparse w (with_scheme url) max_pages)
        = inl e ->
        outcome found = inr []
        /\ trace found
           = [HttpGet (with_scheme url);
              Printed (discovery_report (with_scheme url) e)]
        /\ Forall unseen (trace found)
        /\ trace explored
           = trace found ++ StWarning no_linked_pages :: trace alone
        /\ outcome explored = outcome alone
        /\ trace explored
           = trace found ++ StWarning no_linked_pages :: trace main_page
        /\ outcome explored
           = match outcome main_page with
             | inl e' => inl e'
             | inr (_, content) => inr [(py "Home", content)]
             end
        /\ agent_runs (trace explored)
           = match new_chat_model w with
             | inl _ => []
             | inr _ => [with_scheme url]
             end).
Proof.
  cbv zeta.
  assert (Halone_trace :
            trace (extract_pages uni_lower urljoin urlparse w url false max_pages)
            = trace (process_page uni_lower urlparse w (with_scheme url))).
  { destruct (extract_pages_trace w url false max_pages)
      as (discovery & linked & [-> ->] & ->).
    cbn [map app]. rewrite gather_trace. cbn [map List.concat].
    apply app_nil_r. }
  assert (Halone_outcome :
            outcome (extract_pages uni_lower urljoin urlparse w url false
                       max_pages)
            = match outcome (process_page uni_lower urlparse w (with_scheme url))
              with
              | inl e' => inl e'
              | inr (_, content) => inr [(py "Home", content)]
              end).
  { rewrite extract_pages_outcome, run_batch_outcome. cbn [map collect].
    destruct (outcome (process_page uni_lower urlparse w (with_scheme url)))
      as [e'|[page_title content]]; reflexivity. }
  assert (Hexplored :
            forall e,
              outcome (discover_links urljoin urlparse w (with_scheme url)
                         max_pages) = inl e ->
              extract_pages uni_lower urljoin urlparse w url true max_pages
              = (trace (find_linked_pages urljoin urlparse w (with_scheme url)
                          max_pages)
                 ++ StWarning no_linked_pages
                    :: trace (extract_pages uni_lower urljoin urlparse w url
                                false max_pages),
                 outcome (extract_pages uni_lower urljoin urlparse w url false
                            max_pages))).
  { intros e H. unfold extract_pages. cbv zeta.
    rewrite (find_linked_pages_failure urljoin urlparse _ _ _ _ H).
    set (single := run_batch uni_lower urlparse w [with_scheme url] [py "Home"]).
    rewrite (io_eta single). simpl.
    destruct (outcome single) as [e1|d]; simpl; [reflexivity|].
    destruct d; simpl; rewrite ?app_nil_r; reflexivity. }
  split.
  - intros e He. apply discover_links_fetch_failure. exact He.
  - intros e H. rewrite (Hexplored e H). cbn [trace outcome fst snd].
    fold (trace (find_linked_pages urljoin urlparse w (with_scheme url)
                   max_pages)).
    fold (outcome (find_linked_pages urljoin urlparse w (with_scheme url)
                     max_pages)).
    fold (trace (extract_pages uni_lower urljoin urlparse w url false max_pages)).
    fold (outcome (extract_pages uni_lower urljoin urlparse w url false
                     max_pages)).
    rewrite Halone_trace, Halone_outcome.
    rewrite (find_linked_pages_failure urljoin urlparse _ _ _ _ H).
    cbn [trace outcome fst snd].
    split; [reflexivity|]. split; [reflexivity|].
    split; [repeat constructor|].
    split; [reflexivity|]. split; [reflexivity|].
    split; [reflexivity|]. split; [reflexivity|].
    cbn [app agent_runs]. rewrite process_page_trace.
    destruct (extract_content_with_agent_runs uni_lower w (with_scheme url))
      as [Ha _].
    exact Ha.
Qed.

End BatchEvents.

(** C10 on the example site with the network down: the agent runs on the
    main page alone, whose content, here a failure text, is filed under
    "Home". *)
Lemma discovery_failure_is_silent_witness :
  outcome (find_linked_pages example_urljoin example_urlparse offline_world
             (with_scheme (py "example.com")) 3) = inr []
  /\ outcome (extract_pages as_is example_urljoin example_urlparse
                offline_world (py "example.com") true 3)
     = outcome (extract_pages as_is example_urljoin example_urlparse
                  offline_world (py "example.com") false 3)
  /\ agent_runs
       (trace (extract_pages as_is example_urljoin example_urlparse
                 offline_world (py "example.com") true 3))
     = [py "https://example.com"]
  /\ outcome (extract_pages as_is example_urljoin example_urlparse
                offline_world (py "example.com") true 3)
     = inr [(py "Home",
             py "Error extracting content from https://example.com: Error during agent-based extraction: Connection timed out")].
Proof.
  destruct (discovery_failure_is_silent as_is example_urljoin example_urlparse
              offline_world (py "example.com") 3) as [Hfetch Hsilent].
  destruct (Hsilent (RequestException timeout))
    as (H1 & _ & _ & _ & H5 & _ & H7 & H8).
  - apply Hfetch. reflexivity.
  - split; [exact H1|]. split; [exact H5|]. split.
    + rewrite H8. vm_compute. reflexivity.
    + rewrite H7. vm_compute. reflexivity.
Defined.

(** ** The file name *)

(** The first field of a split holds no separator. *)
Lemma split_go_first_free (c : char) (s cur : str) :
  ~ In c cur -> ~ In c (hd [] (split_go [c] O cur s)).
Proof.
  revert cur. induction s as [|d s IH]; intros cur Hcur; simpl.
  - intros H. apply in_rev in H. exact (Hcur H).
  - destruct (c =? d) eqn:E; simpl.
    + intros H. apply in_rev in H. exact (Hcur H).
    + apply IH. intros [H|H]; [|exact (Hcur H)].
      subst d. rewrite N.eqb_refl in E. discriminate.
Qed.

Lemma replace_char_keeps_out (a x : char) (b s : str) :
  ~ In x b -> ~ In x s -> ~ In x (replace_char a b s).
Proof.
  intros Hb Hs Hin. unfold replace_char in Hin. apply in_flat_map in Hin.
  destruct Hin as (c & Hc & Hx). destruct (c =? a).
  - exact (Hb Hx).
  - destruct Hx as [Hx|[]]. subst c. exact (Hs Hc).
Qed.

(** X23: the host part taken for the download's file name holds no
    slash, and the [domain] made of it holds neither a slash nor a dot,
    whatever the URL. *)
Theorem domain_holds_no_separator (url : str) :
  ~ In 0x2F (url_host url)
  /\ ~ In 0x2F (domain url)
  /\ ~ In 0x2E (domain url).
Proof.
  assert (Hhost : ~ In 0x2F (url_host url)).
  { unfold url_host, split. change (py "/") with [0x2F].
    apply split_go_first_free. simpl. tauto. }
  split; [exact Hhost|]. split.
  - unfold domain. apply replace_char_keeps_out; [|exact Hhost].
    vm_compute. intros [H|[]]. discriminate.
  - unfold domain. apply replace_char_gone.
    vm_compute. intros [H|[]]. discriminate.
Qed.

(** ** The menu variant *)

Lemma existsb_str_In (seen : list str) (x : str) :
  existsb (fun k => str_eqb k x) seen = true <-> In x seen.
Proof.
  rewrite existsb_exists. split.
  - intros (k & Hk & E). apply str_eqb_eq in E. subst k. exact Hk.
  - intros H. exists x. split; [exact H | apply str_eqb_refl].
Qed.

Lemma existsb_str_not_In (seen : list str) (x : str) :
  existsb (fun k => str_eqb k x) seen = false <-> ~ In x seen.
Proof.
  rewrite <- existsb_str_In. destruct (existsb _ seen); split; intros H;
    try discriminate; try reflexivity; try congruence.
Qed.

Lemma str_eq_dec (a b : str) : a = b \/ a <> b.
Proof.
  destruct (str_eqb a b) eqn:E.
  - left. apply str_eqb_eq. exact E.
  - right. intros H. apply str_eqb_eq in H. congruence.
Qed.

Lemma unique_from_In (l : list str) :
  forall (seen : list str) (x : str),
    In x (unique_from seen l) <-> In x l /\ ~ In x seen.
Proof.
  induction l as [|x0 l IH]; intros seen x; simpl; [tauto|].
  destruct (existsb _ seen) eqn:E.
  - apply existsb_str_In in E. rewrite IH. split.
    + intros [H1 H2]. auto.
    + intros [[H|H] Hs]; [subst; contradiction | auto].
  - apply existsb_str_not_In in E. simpl. rewrite IH. split.
    + intros [H|[H1 H2]].
      * subst. auto.
      * split; [auto|]. intros Hs. apply H2. apply in_or_app. auto.
    + intros [[H|H] Hs]; [auto|].
      destruct (str_eq_dec x0 x) as [Hx|Hx]; [auto|].
      right. split; [exact H|]. intros Hin. apply in_app_or in Hin.
      destruct Hin as [Hin|[Hin|[]]]; [exact (Hs Hin) | exact (Hx Hin)].
Qed.

Lemma unique_from_NoDup (l : list str) :
  forall seen : list str, NoDup (unique_from seen l).
Proof.
  induction l as [|x0 l IH]; intros seen; simpl; [constructor|].
  destruct (existsb _ seen); [apply IH|].
  constructor; [|apply IH].
  intros H. apply unique_from_In in H. destruct H as [_ H].
  apply H. apply in_or_app. right. left. reflexivity.
Qed.

Lemma unique_In (l : list str) (x : str) : In x (unique l) <-> In x l.
Proof. unfold unique. rewrite unique_from_In. simpl. tauto. Qed.

Lemma all_texts_stripped (menu_items : list pyvalue) :
  forall texts, V2.all_texts menu_items = inr texts ->
                Forall (fun t => strip t = t) texts.
Proof.
  induction menu_items as [|sublist rest IH]; intros texts H; simpl in H.
  - inversion H. constructor.
  - destruct (V2.iterate sublist) as [e|items]; [discriminate|].
    destruct (V2.all_texts rest) as [e|more]; [discriminate|].
    inversion H. apply Forall_app. split; [|apply IH; reflexivity].
    apply Forall_forall. intros t Ht. apply in_flat_map in Ht.
    destruct Ht as (v & _ & Hv).
    destruct v as [s|l|ty]; [|destruct Hv|destruct Hv].
    destruct Hv as [<-|[]]. apply strip_idem.
Qed.

(** The items are distinct and stripped. *)
Lemma menu_items_distinct_and_stripped (menu_items : pyvalue)
    (items : list str) :
  V2.menu_items_of menu_items = inr items ->
  NoDup items /\ Forall (fun item => strip item = item) items.
Proof.
  destruct menu_items as [s|sublists|ty]; simpl; intros H.
  - inversion H. split; [apply unique_from_NoDup|].
    apply Forall_forall. intros x Hx. apply (proj1 (unique_In _ _)) in Hx.
    apply in_map_iff in Hx. destruct Hx as (line & <- & _). apply strip_idem.
  - destruct (V2.all_texts sublists) as [e|texts] eqn:E; [discriminate|].
    inversion H. split; [apply unique_from_NoDup|].
    apply Forall_forall. intros x Hx. apply (proj1 (unique_In _ _)) in Hx.
    pose proof (all_texts_stripped _ _ E) as Hs.
    rewrite Forall_forall in Hs. exact (Hs x Hx).
  - inversion H. split; constructor.
Qed.

Lemma all_texts_of_strings (texts : list str) :
  V2.all_texts (map PyStr texts)
  = inr (map (fun c => strip [c]) (List.concat texts)).
Proof.
  induction texts as [|s texts IH]; [reflexivity|].
  cbn [map V2.all_texts V2.iterate]. rewrite IH. f_equal.
  cbn [List.concat]. rewrite map_app. f_equal.
  induction s as [|c s IHs]; [reflexivity|].
  cbn [map flat_map]. rewrite IHs. reflexivity.
Qed.

(** X24: when the agent's extracted content is a list of strings, as
    the history gives it, the comprehension of [find_navigation_menu_items]
    iterates over the characters of each string: the menu items are the
    distinct single characters of the texts, each stripped, so no item is
    longer than one character. *)
Theorem menu_items_of_strings_are_characters (texts : list str) :
  let characters := map (fun c => strip [c]) (List.concat texts) in
  V2.menu_items_of (PyList (map PyStr texts)) = inr (unique characters)
  /\ Forall (fun item => (len item <= 1)%nat) (unique characters)
  /\ (forall item, In item (unique characters) <->
        exists text c, In text texts /\ In c text /\ item = strip [c]).
Proof.
  cbv zeta. split; [|split].
  - simpl. rewrite all_texts_of_strings. reflexivity.
  - apply Forall_forall. intros item H. apply (proj1 (unique_In _ _)) in H.
    apply in_map_iff in H. destruct H as (c & <- & _).
    apply (strip_length [c]).
  - intros item. rewrite unique_In, in_map_iff. split.
    + intros (c & <- & Hc). apply in_concat in Hc.
      destruct Hc as (text & Ht & Hc). exists text, c. auto.
    + intros (text & c & Ht & Hc & ->). exists c. split; [reflexivity|].
      apply in_concat. exists text. auto.
Qed.

Lemma split_go_fields_free (c : char) (s cur : str) :
  ~ In c cur ->
  Forall (fun f => ~ In c f) (split_go [c] O cur s).
Proof.
  revert cur. induction s as [|d s IH]; intros cur Hcur; simpl.
  - constructor; [|constructor]. intros H. apply in_rev in H. exact (Hcur H).
  - destruct (c =? d) eqn:E; simpl.
    + constructor.
      * intros H. apply in_rev in H. exact (Hcur H).
      * apply IH. simpl. tauto.
    + apply IH. intros [H|H]; [|exact (Hcur H)].
      subst d. rewrite N.eqb_refl in E. discriminate.
Qed.

(** X25: when the agent's extracted content is one string, the menu
    items are its lines, stripped, without the empty ones and without
    repetition; no item holds a line feed. *)
Theorem menu_items_of_text_are_lines (s : str) :
  exists items,
    V2.menu_items_of (PyStr s) = inr items
    /\ NoDup items
    /\ (forall item, In item items <->
          item <> [] /\ exists line,
            In line (split [LF] (strip s)) /\ item = strip line)
    /\ Forall (fun item => ~ In LF item) items.
Proof.
  eexists. split; [reflexivity|]. split; [apply unique_from_NoDup|]. split.
  - intros item. rewrite unique_In, in_map_iff. split.
    + intros (line & <- & Hl). apply filter_In in Hl. destruct Hl as [Hl Ht].
      split.
      * intros E. rewrite E in Ht. discriminate.
      * exists line. auto.
    + intros (Hne & line & Hl & ->). exists line. split; [reflexivity|].
      apply filter_In. split; [exact Hl|].
      destruct (strip line); [congruence | reflexivity].
  - apply Forall_forall. intros item H. apply (proj1 (unique_In _ _)) in H.
    apply in_map_iff in H. destruct H as (line & <- & Hl).
    apply filter_In in Hl. destruct Hl as [Hl _].
    pose proof (split_go_fields_free LF (strip s) [] (fun H => H)) as Hf.
    rewrite Forall_forall in Hf. intros Hin. apply strip_incl in Hin.
    exact (Hf line Hl Hin).
Qed.

Section MenuPipeline.
Variable uni_lower : str -> str.
Variable urlparse : str -> exn + parsed_url.

Lemma search_menu_outcome (w : menu_world) (url : str) :
  outcome (V2.search_menu w url)
  = match run_menu_search w (V2.menu_call url) with
    | inl e => inl e
    | inr menu_items => V2.menu_items_of menu_items
    end.
Proof.
  unfold V2.search_menu, outcome, bind, emit, lift.
  destruct (run_menu_search w _) as [e|v]; simpl; [reflexivity|].
  destruct (V2.menu_items_of v); reflexivity.
Qed.

Lemma find_navigation_menu_items_outcome (w : menu_world) (url : str) :
  outcome (V2.find_navigation_menu_items w url)
  = match new_chat_model (services w) with
    | inl e => inl e
    | inr _ =>
        match shutdown_channel (services w) with
        | ShutdownRaises e => inl e
        | _ => inr (menu_found w url)
        end
    end.
Proof.
  unfold V2.find_navigation_menu_items.
  rewrite outcome_bind. unfold lift at 1. simpl outcome at 1.
  destruct (new_chat_model (services w)) as [e|u]; [reflexivity|].
  rewrite outcome_finally, shutdown_outcome_cases, outcome_try_except,
    search_menu_outcome.
  unfold menu_found.
  destruct (shutdown_channel (services w)); try reflexivity;
    destruct (run_menu_search w _) as [e|v]; try reflexivity;
    destruct (V2.menu_items_of v); reflexivity.
Qed.

Lemma menu_found_distinct (w : menu_world) (url : str) :
  NoDup (menu_found w url)
  /\ Forall (fun item => strip item = item) (menu_found w url).
Proof.
  unfold menu_found.
  destruct (run_menu_search w _) as [e|v]; [split; constructor|].
  destruct (V2.menu_items_of v) as [e|items] eqn:E; [split; constructor|].
  exact (menu_items_distinct_and_stripped v items E).
Qed.

Lemma find_navigation_menu_items_returns (w : menu_world) (url : str)
    (items : list str) :
  outcome (V2.find_navigation_menu_items w url) = inr items ->
  items = menu_found w url.
Proof.
  rewrite find_navigation_menu_items_outcome.
  destruct (new_chat_model (services w)); [discriminate|].
  destruct (shutdown_channel (services w)); intros H; inversion H; reflexivity.
Qed.

(** X26: [find_navigation_menu_items] raises exactly when the chat
    model cannot be built or the channel shutdown of the [finally] block
    raises something other than an attribute error.  Otherwise it returns
    distinct, stripped items, and returns the empty list when the agent's run
    raises or when the extracted list holds an object that cannot be iterated
    over: the handler turns every exception of the [try] into no menu. *)
Theorem find_navigation_menu_items_total (w : menu_world) (url : str) :
  let search := V2.find_navigation_menu_items w url in
  (forall e, outcome search = inl e <->
     new_chat_model (services w) = inl e
     \/ ((exists u, new_chat_model (services w) = inr u)
         /\ shutdown_channel (services w) = ShutdownRaises e))
  /\ (forall items, outcome search = inr items ->
        items = menu_found w url
        /\ NoDup items
        /\ Forall (fun item => strip item = item) items)
  /\ (forall e, run_menu_search w (V2.menu_call url) = inl e ->
        menu_found w url = [])
  /\ (forall sublists type_name,
        run_menu_search w (V2.menu_call url) = inr (PyList sublists) ->
        In (PyOther type_name) sublists ->
        menu_found w url = []).
Proof.
  cbv zeta. rewrite find_navigation_menu_items_outcome.
  split; [|split; [|split]].
  - intros e. destruct (new_chat_model (services w)) as [e0|u].
    + split.
      * intros H. left. inversion H. reflexivity.
      * intros [H|[[u Hu] _]]; [inversion H; reflexivity | discriminate].
    + destruct (shutdown_channel (services w)) as [| |e1]; split;
        try discriminate;
        try (intros [H|[_ H]]; discriminate).
      * intros H. right. split; [exists u; reflexivity|].
        inversion H. reflexivity.
      * intros [H|[_ H]]; [discriminate|]. inversion H. reflexivity.
  - intros items H. rewrite <- find_navigation_menu_items_outcome in H.
    apply find_navigation_menu_items_returns in H. subst items.
    split; [reflexivity|]. apply menu_found_distinct.
  - intros e H. unfold menu_found. rewrite H. reflexivity.
  - intros sublists ty H Hin. unfold menu_found. rewrite H.
    assert (Hraise : exists e, V2.all_texts sublists = inl e).
    { clear H. induction sublists as [|v rest IH]; [destruct Hin|].
      simpl. destruct Hin as [->|Hin].
      - simpl. eexists. reflexivity.
      - destruct (V2.iterate v) as [e|texts]; [eexists; reflexivity|].
        destruct (IH Hin) as [e ->]. eexists. reflexivity. }
    destruct Hraise as [e He]. simpl. rewrite He. reflexivity.
Qed.

End MenuPipeline.

(** Among distinct strings, the first occurrences are the strings not
    seen before. *)
Lemma unique_from_NoDup_filter (l : list str) :
  forall seen : list str,
    NoDup l ->
    unique_from seen l
    = filter (fun x => negb (existsb (fun k => str_eqb k x) seen)) l.
Proof.
  induction l as [|x l IH]; intros seen Hnd; simpl; [reflexivity|].
  inversion Hnd as [|? ? Hx Hl]; subst.
  destruct (existsb (fun k => str_eqb k x) seen) eqn:E; simpl.
  - apply IH. exact Hl.
  - f_equal. rewrite (IH (seen ++ [x]) Hl). apply filter_ext_in.
    intros y Hy. rewrite existsb_app. simpl. rewrite orb_false_r.
    assert (Hxy : str_eqb x y = false).
    { apply str_eqb_neq. intros ->. exact (Hx Hy). }
    rewrite Hxy, orb_false_r. reflexivity.
Qed.

Section MenuBatch.
Variable uni_lower : str -> str.
Variable urlparse : str -> exn + parsed_url.

Lemma menu_run_batch_outcome (w : menu_world) (url : str)
    (menu_items : list (option str)) (page_texts : list str) :
  outcome (V2.run_batch uni_lower urlparse w url menu_items page_texts) =
  match collect (map (fun item =>
                        outcome (V2.process_page uni_lower urlparse w url item))
                   menu_items) with
  | inl e => inl e
  | inr results =>
      inr (fold_left file_under (combine page_texts (map snd results)) [])
  end.
Proof.
  unfold V2.run_batch. rewrite outcome_bind, gather_outcome, map_map.
  destruct (collect _) as [e|results]; [reflexivity|].
  simpl. f_equal. rewrite combine_map_snd, fold_left_map. reflexivity.
Qed.

Lemma menu_extract_pages_outcome (w : menu_world) (url : str) :
  outcome (V2.extract_pages uni_lower urlparse w url NavigationMenuItems) =
  match outcome (V2.find_navigation_menu_items w (with_scheme url)) with
  | inl e => inl e
  | inr menu_items =>
      outcome (V2.run_batch uni_lower urlparse w (with_scheme url)
                 (None :: map Some menu_items) (py "Home" :: menu_items))
  end.
Proof.
  unfold V2.extract_pages. cbv zeta. rewrite outcome_bind.
  assert (Hend : forall d : list (str * str),
            outcome (match d with
                     | _ :: _ => ret d
                     | [] =>
                         emit (StError (py "No content extracted from the page.")) ;;;
                         ret d
                     end) = inr d).
  { intros [|x d]; reflexivity. }
  rewrite outcome_bind.
  destruct (outcome (V2.find_navigation_menu_items w (with_scheme url)))
    as [e|[|item items]]; [reflexivity| |].
  - rewrite outcome_bind. simpl outcome at 2.
    destruct (outcome (V2.run_batch _ _ _ _ _ _)) as [e|d]; [reflexivity|].
    apply Hend.
  - destruct (outcome (V2.run_batch _ _ _ _ _ _)) as [e|d]; [reflexivity|].
    apply Hend.
Qed.

(** X27: when a click in the menu mode of [streamlitV2.py] returns,
    the keys of [all_pages_info] are "Home" and then the menu items other
    than "Home", in their order; the page itself and one page for each menu
    item were processed, and a label reads the content of the last page that
    bears it: a menu item "Home" replaces the content of the page itself. *)
Theorem menu_pages_filed (w : menu_world) (url : str)
    (all_pages_info : list (str * str)) :
  outcome (V2.extract_pages uni_lower urlparse w url NavigationMenuItems)
  = inr all_pages_info ->
  let menu_items := menu_found w (with_scheme url) in
  outcome (V2.find_navigation_menu_items w (with_scheme url)) = inr menu_items
  /\ map fst all_pages_info
     = py "Home"
       :: filter (fun item => negb (str_eqb (py "Home") item)) menu_items
  /\ (exists contents : list str,
        Forall2 (fun item content =>
                   exists page_title,
                     outcome (V2.process_page uni_lower urlparse w
                                (with_scheme url) item)
                     = inr (page_title, content))
          (None :: map Some menu_items) contents
        /\ forall label,
             dict_get all_pages_info label
             = last_under (py "Home" :: menu_items) contents label).
Proof.
  intros Hd. cbv zeta. rewrite menu_extract_pages_outcome in Hd.
  destruct (outcome (V2.find_navigation_menu_items w (with_scheme url)))
    as [e|menu_items] eqn:Hm; [discriminate|].
  pose proof (find_navigation_menu_items_returns w (with_scheme url)
                menu_items Hm) as Heq.
  destruct (menu_found_distinct w (with_scheme url)) as [Hnd _].
  rewrite <- Heq in Hnd |- *. split; [reflexivity|].
  rewrite menu_run_batch_outcome in Hd.
  set (items := None :: map Some menu_items) in *.
  set (page_texts := py "Home" :: menu_items) in *.
  assert (Hlens : List.length page_texts = List.length items).
  { unfold page_texts, items. simpl. rewrite length_map. reflexivity. }
  assert (Hkeys : unique page_texts
                  = py "Home"
                    :: filter (fun item => negb (str_eqb (py "Home") item))
                         menu_items).
  { unfold page_texts, unique. cbn [unique_from existsb app]. f_equal.
    rewrite (unique_from_NoDup_filter _ _ Hnd). apply filter_ext.
    intros x. simpl. rewrite orb_false_r. reflexivity. }
  clearbody items page_texts.
  destruct (collect _) as [e|results] eqn:Ec; [discriminate|].
  inversion Hd; subst all_pages_info. clear Hd.
  apply collect_inr in Ec.
  assert (Hlen : List.length page_texts = List.length (map snd results)).
  { rewrite length_map, Hlens.
    rewrite <- (length_map (fun item =>
                  outcome (V2.process_page uni_lower urlparse w
                             (with_scheme url) item))),
      Ec, length_map. reflexivity. }
  split.
  - rewrite fold_file_keys, map_fst_combine by exact Hlen. exact Hkeys.
  - exists (map snd results). split.
    + clear Hlen Hlens. revert results Ec.
      induction items as [|u us IH]; intros [|[t c] rs] Ec; simpl in Ec;
        try discriminate; [constructor|].
      inversion Ec as [[Hu Hus]]. constructor.
      * exists t. exact Hu.
      * apply IH. exact Hus.
    + intros label. rewrite fold_file_get. unfold last_under.
      destruct (List.find _ _); reflexivity.
Qed.

End MenuBatch.

(** ** The variants side by side, and the button of the first *)

Section Variants.
Variable uni_alnum : char -> bool.
Variable uni_lower : str -> str.
Variable urlparse : str -> exn + parsed_url.

Lemma menu_run_agent_outcome (w : menu_world) (url : str)
    (item : option str) :
  outcome (V2.run_agent uni_lower w url item) =
  match run_extraction w (V2.extraction_call url item) with
  | inl e => inl e
  | inr result =>
      let initial_clean := initial_clean_of result in
      if (len initial_clean <? MIN_CONTENT_LENGTH)%nat
      then inr (false, insufficient_content)
      else inr (true, cleaned_v1 uni_lower (services w) initial_clean)
  end.
Proof.
  unfold V2.run_agent, outcome, bind, emit, lift, ret.
  destruct (run_extraction w _) as [e|result]; simpl; [reflexivity|].
  destruct (len (initial_clean_of result) <? MIN_CONTENT_LENGTH)%nat;
    [reflexivity|].
  rewrite clean_with_genai_v1_cases. reflexivity.
Qed.

Lemma menu_extract_outcome (w : menu_world) (url : str) (item : option str) :
  outcome (V2.extract_content_with_agent uni_lower w url item) =
  match new_chat_model (services w) with
  | inl e => inl e
  | inr _ =>
      match shutdown_channel (services w) with
      | ShutdownRaises e => inl e
      | _ => inr (menu_verdict uni_lower w url item)
      end
  end.
Proof.
  unfold V2.extract_content_with_agent.
  rewrite outcome_bind. unfold lift at 1. simpl outcome at 1.
  destruct (new_chat_model (services w)) as [e|u]; [reflexivity|].
  rewrite outcome_finally, shutdown_outcome_cases, outcome_try_except,
    menu_run_agent_outcome.
  unfold menu_verdict.
  destruct (shutdown_channel (services w)); try reflexivity;
    destruct (run_extraction w _) as [e|result]; try reflexivity; cbv zeta;
    destruct (len (initial_clean_of result) <? MIN_CONTENT_LENGTH)%nat;
    reflexivity.
Qed.

Lemma cleaned_agree (w : world) (text : str) :
  (forall e, outcome (ask_genai uni_lower w text) = inl e ->
             quota_hit e = false) ->
  cleaned uni_lower w text = cleaned_v1 uni_lower w text.
Proof.
  intros H. unfold cleaned, cleaned_v1.
  destruct (outcome (ask_genai uni_lower w text)) as [e|s]; [|reflexivity].
  specialize (H e eq_refl). destruct e as [m|m|m]; try reflexivity.
  simpl in *. rewrite H. reflexivity.
Qed.

(** X28: the agent pipelines of [streamlitV2.py] and [streamlitV3.py]
    return the same on a page for which the agent answers the same, unless a
    quota error occurs: as long as neither the agent's run nor the model call
    of the cleanup fails with a resource-exhausted error that has the rate
    limit marks, the pair of V2 is the pair of V3. *)
Theorem agent_pipelines_agree_without_quota (w : menu_world) (url : str)
    (navigate_menu_item : option str) :
  run_extraction w (V2.extraction_call url navigate_menu_item)
  = agent_run (services w) url ->
  (forall e, agent_run (services w) url = inl e -> quota_hit e = false) ->
  (forall result e,
     agent_run (services w) url = inr result ->
     outcome (ask_genai uni_lower (services w) (initial_clean_of result))
     = inl e ->
     quota_hit e = false) ->
  outcome (V2.extract_content_with_agent uni_lower w url navigate_menu_item)
  = outcome (extract_content_with_agent uni_lower (services w) url).
Proof.
  intros Hsame Hrun Hclean.
  rewrite menu_extract_outcome, extract_content_with_agent_outcome.
  assert (Hv : menu_verdict uni_lower w url navigate_menu_item
               = agent_verdict uni_lower (services w) url).
  { unfold menu_verdict, agent_verdict. rewrite Hsame.
    destruct (agent_run (services w) url) as [e|result] eqn:Ea.
    - rewrite (extraction_failure_plain e (Hrun e eq_refl)). reflexivity.
    - cbv zeta.
      destruct (len (initial_clean_of result) <? MIN_CONTENT_LENGTH)%nat;
        [reflexivity|].
      rewrite cleaned_agree; [reflexivity|].
      intros e He. exact (Hclean result e eq_refl He). }
  rewrite Hv. reflexivity.
Qed.

(** X29: a click on the button of [streamlit.py] with an empty URL
    only shows the warning.  With a URL it fetches exactly one page, the URL
    with its scheme, and then either offers the download -- the extracted
    text under the file name made of the host and the time -- and shows no
    error, or shows the failure text, which starts with "Error", as its one
    error and offers nothing. *)
Theorem click_shows_content_or_error (w : world) (url timestamp : str) :
  let click := extract_click uni_alnum uni_lower w url timestamp in
  (url = [] ->
   click = ([StWarning please_enter_url], inr None))
  /\ (url <> [] ->
      http_gets (trace click) = [with_scheme url]
      /\ exists success text,
           outcome (extract_content uni_alnum uni_lower w (with_scheme url))
           = inr (success, text)
           /\ (success = true ->
               outcome click
               = inr (Some (filename_v1 (with_scheme url) timestamp, text))
               /\ errors_shown (trace click) = [])
           /\ (success = false ->
               outcome click = inr None
               /\ errors_shown (trace click) = [text]
               /\ starts_with (py "Error") text = true)).
Proof.
  cbv zeta. split.
  - intros ->. reflexivity.
  - intros Hne. unfold extract_click.
    destruct url as [|c url']; [congruence|]. cbn [truthy]. cbv zeta.
    set (u := with_scheme (c :: url')).
    destruct (extract_content_shape uni_alnum uni_lower w u)
      as (success & text & rest & Hrun & _ & _ & Hfail & Hok).
    rewrite Hrun. unfold bind, trace, outcome. cbn [fst snd].
    assert (Hrest : http_gets rest = [] /\ errors_shown rest = []).
    { destruct success.
      - destruct (Hok eq_refl) as (response & mc & Hg & Hm & Hl & _ & _).
        rewrite extract_content_cases, Hg, Hm in Hrun. cbv zeta in Hrun.
        apply Nat.ltb_ge in Hl. rewrite Hl in Hrun.
        inversion Hrun. rewrite ask_genai_trace.
        destruct (api_key w); split; reflexivity.
      - destruct (Hfail eq_refl) as [-> _]. split; reflexivity. }
    destruct Hrest as [Hh He].
    destruct success; cbn [ret emit fst snd app].
    + rewrite app_nil_r. cbn [http_gets]. rewrite Hh. split; [reflexivity|].
      exists true, text. split; [reflexivity|]. split; [|discriminate].
      intros _. split; [reflexivity|]. cbn [errors_shown]. exact He.
    + destruct (Hfail eq_refl) as [-> Herr].
      cbn [app http_gets errors_shown]. split; [reflexivity|].
      exists false, text. split; [reflexivity|]. split; [discriminate|].
      intros _. auto.
Qed.

End Variants.

(** ** Worked examples *)

(** X17 on a site with enough text whose endpoint is out of quota. *)
Lemma cleaning_error_passes_as_content_witness :
  outcome (extract_content ascii_only as_is busy_world example_url)
  = inr (true, cleaning_error ++ quota_message)
  /\ outcome (extract_content_with_agent as_is busy_world example_url)
     = inr (true, cleaning_rate_limit).
Proof.
  destruct (cleaning_error_passes_as_content ascii_only as_is example_urlparse
              busy_world example_url (ResourceExhausted quota_message))
    as [Hdirect Hagent].
  split.
  - apply (Hdirect long_page long_text).
    + reflexivity.
    + vm_compute. reflexivity.
    + vm_compute. lia.
    + vm_compute. reflexivity.
  - destruct (Hagent (ExtractedList [long_text])
                {| netloc := py "example.com"; path := [] |}) as [H _].
    + reflexivity.
    + vm_compute. lia.
    + vm_compute. reflexivity.
    + reflexivity.
    + intros e'. discriminate.
    + reflexivity.
    + exact H.
Defined.

(** X18 on the example site, whose texts are a few characters long, and
    on a page whose long text sits in a [<template>] and so is not part of
    the text taken from the page. *)
Lemma short_raw_text_rejected_witness :
  extract_content ascii_only as_is site_world example_url
  = ([HttpGet example_url], inr (false, insufficient_content))
  /\ extract_content ascii_only as_is template_world example_url
     = ([HttpGet example_url], inr (false, insufficient_content))
  /\ cleanup_calls
       (trace (extract_content_with_agent as_is site_world example_url)) = []
  /\ outcome (extract_content_with_agent as_is site_world example_url)
     = inr (false, insufficient_content).
Proof.
  destruct (short_raw_text_rejected ascii_only as_is site_world example_url)
    as [Hdirect Hagent].
  destruct (short_raw_text_rejected ascii_only as_is template_world example_url)
    as [Htemplate _].
  split; [|split].
  - apply (Hdirect site_page (py "Hi there")).
    + reflexivity.
    + vm_compute. reflexivity.
    + vm_compute. lia.
  - apply (Htemplate template_page []).
    + reflexivity.
    + vm_compute. reflexivity.
    + vm_compute. lia.
  - apply (Hagent (ExtractedList [py "Hi"])).
    + reflexivity.
    + vm_compute. lia.
Defined.

(** X7 on two lines of plain text; a colon inside a line does no harm. *)
Lemma initial_clean_keeps_plain_text_witness :
  initial_clean_of (ExtractedList [py "  Hello: world"; py "Bye  "])
  = py "Hello: world" ++ [LF] ++ py "Bye".
Proof.
  rewrite (initial_clean_keeps_plain_text
             (ExtractedList [py "  Hello: world"; py "Bye  "])).
  - vm_compute. reflexivity.
  - vm_compute. reflexivity.
Defined.

(** X8 on a navigation line of the log, alone and ahead of a content. *)
Lemma initial_clean_drops_log_line_witness :
  initial_clean_of (ExtractedStr navigation_log) = []
  /\ initial_clean_of (ExtractedList [navigation_log; py "Welcome to Example "])
     = py "Welcome to Example".
Proof.
  destruct (initial_clean_drops_log_line navigation_log
              (py "Welcome to Example ")) as (H1 & _ & H3).
  - vm_compute. reflexivity.
  - vm_compute. reflexivity.
  - vm_compute. reflexivity.
  - split; [exact H1|]. rewrite H3. vm_compute. reflexivity.
Defined.

(** X20 on a site with two links called "Docs": the content of the second is
    kept. *)
Lemma pages_filed_by_label_witness :
  exists all_pages_info,
    outcome (extract_pages as_is example_urljoin example_urlparse echo_world
               (py "example.com") true 3) = inr all_pages_info
    /\ map fst all_pages_info = [py "Home"; py "Docs"]
    /\ dict_get all_pages_info (py "Home")
       = Some (prompt (py "https://example.com/a" ++ SPACE :: long_text))
    /\ dict_get all_pages_info (py "Docs")
       = Some (prompt (py "https://example.com/c" ++ SPACE :: long_text)).
Proof.
  destruct (outcome (extract_pages as_is example_urljoin example_urlparse
                       echo_world (py "example.com") true 3))
    as [e|all_pages_info] eqn:Hd.
  - vm_compute in Hd. discriminate.
  - exists all_pages_info. split; [reflexivity|].
    destruct (pages_filed_by_label as_is example_urljoin example_urlparse
                echo_world (py "example.com") 3
                [ {| link_url := py "https://example.com/a";
                     link_text := py "Home" |};
                  {| link_url := py "https://example.com/b";
                     link_text := py "Docs" |};
                  {| link_url := py "https://example.com/c";
                     link_text := py "Docs" |} ]
                all_pages_info) as (contents & Hc & Hk & Hget).
    + vm_compute. reflexivity.
    + exact Hd.
    + split; [rewrite Hk; vm_compute; reflexivity|].
      assert (Hcontents :
                contents
                = map (fun u => prompt (u ++ SPACE :: long_text))
                    [ py "https://example.com"; py "https://example.com/a";
                      py "https://example.com/b"; py "https://example.com/c" ]).
      { cbv zeta in Hc.
        repeat match goal with
               | H : Forall2 _ (_ :: _) _ |- _ =>
                   inversion H as [|? ? ? ? [t Ht] ?]; subst; clear H;
                   vm_compute in Ht; inversion Ht; subst; clear Ht
               | H : Forall2 _ [] _ |- _ => inversion H; subst; clear H
               end.
        vm_compute. reflexivity. }
      rewrite !Hget, Hcontents. split; vm_compute; reflexivity.
Defined.

(** X22 on the example site with a cap of three pages. *)
Lemma pages_processed_witness :
  (List.length
     (agent_runs
        (trace (extract_pages as_is example_urljoin example_urlparse
                  site_world (py "example.com") true 3)))
   <= 1 + Z.to_nat 3)%nat
  /\ http_gets
       (trace (extract_pages as_is example_urljoin example_urlparse
                 site_world (py "example.com") true 3))
     = [py "https://example.com"].
Proof.
  destruct (pages_processed as_is example_urljoin example_urlparse site_world
              (py "example.com") true 3) as (H1 & H2 & _).
  - lia.
  - split; [exact H1|]. rewrite H2. vm_compute. reflexivity.
Defined.

(** X27 on an agent that lists the menu as two strings: the pages are filed
    under their characters. *)
Lemma menu_pages_filed_witness :
  exists all_pages_info,
    outcome (V2.extract_pages as_is example_urlparse menu_site
               (py "example.com") NavigationMenuItems) = inr all_pages_info
    /\ map fst all_pages_info
       = [ py "Home"; py "H"; py "o"; py "m"; py "e"; py "A"; py "b"; py "u";
           py "t" ].
Proof.
  destruct (outcome (V2.extract_pages as_is example_urlparse menu_site
                       (py "example.com") NavigationMenuItems))
    as [e|all_pages_info] eqn:Hd.
  - vm_compute in Hd. discriminate.
  - exists all_pages_info. split; [reflexivity|].
    destruct (menu_pages_filed as_is example_urlparse menu_site
                (py "example.com") all_pages_info Hd) as (_ & Hk & _).
    rewrite Hk. vm_compute. reflexivity.
Defined.

(** X28 on the example site. *)
Lemma agent_pipelines_agree_without_quota_witness :
  outcome (V2.extract_content_with_agent as_is menu_site example_url None)
  = outcome (extract_content_with_agent as_is site_world example_url).
Proof.
  apply (agent_pipelines_agree_without_quota as_is menu_site example_url None).
  - reflexivity.
  - intros e H. discriminate.
  - intros result e _ H. vm_compute in H. discriminate.
Defined.

(** X29 on the example site, without a URL and with one. *)
Lemma click_shows_content_or_error_witness :
  extract_click ascii_only as_is site_world [] (py "20250101_120000")
  = ([StWarning please_enter_url], inr None)
  /\ http_gets
       (trace (extract_click ascii_only as_is site_world (py "example.com")
                 (py "20250101_120000")))
     = [py "https://example.com"].
Proof.
  split.
  - apply (click_shows_content_or_error ascii_only as_is site_world []
             (py "20250101_120000")). reflexivity.
  - destruct (click_shows_content_or_error ascii_only as_is site_world
                (py "example.com") (py "20250101_120000")) as [_ H].
    destruct H as [Hg _]; [discriminate|]. rewrite Hg. vm_compute. reflexivity.
Defined.

(** X10 on the example site, whose [<nav>] goes, and on a page without such
    tags. *)
Lemma decompose_removes_witness :
  find_all (py "nav") (decompose site_page) = []
  /\ decompose hollow_page = hollow_page.
Proof.
  split.
  - destruct (decompose_removes site_page) as (H & _).
    rewrite Forall_forall in H. apply H. vm_compute. tauto.
  - destruct (decompose_removes hollow_page) as (_ & _ & _ & H).
    apply H. vm_compute. repeat constructor.
Defined.

(** X15 when the network is down: the agent's exception becomes a failure
    text. *)
Lemma agent_pipeline_raises_outside_try_witness :
  outcome (extract_content_with_agent as_is offline_world example_url)
  = inr (false, extraction_failure (RequestException timeout)).
Proof.
  destruct (agent_pipeline_raises_outside_try as_is offline_world example_url)
    as (_ & _ & H).
  apply (H (RequestException timeout) tt).
  - reflexivity.
  - reflexivity.
  - intros e'. discriminate.
Defined.

(** X16 on the example site. *)
Lemma agent_pipeline_events_witness :
  agent_runs (trace (extract_content_with_agent as_is site_world example_url))
  = [example_url]
  /\ http_gets (trace (extract_content_with_agent as_is site_world example_url))
     = [].
Proof.
  destruct (agent_pipeline_events as_is site_world example_url) as (_ & H).
  destruct (H tt eq_refl) as (_ & Ha & Hh & _). split; assumption.
Defined.

(** X26 on an agent that lists the menu as two strings. *)
Lemma find_navigation_menu_items_total_witness :
  outcome (V2.find_navigation_menu_items menu_site example_url)
  = inr [py "H"; py "o"; py "m"; py "e"; py "A"; py "b"; py "u"; py "t"]
  /\ NoDup [py "H"; py "o"; py "m"; py "e"; py "A"; py "b"; py "u"; py "t"].
Proof.
  assert (E : outcome (V2.find_navigation_menu_items menu_site example_url)
              = inr [py "H"; py "o"; py "m"; py "e"; py "A"; py "b"; py "u";
                     py "t"]) by (vm_compute; reflexivity).
  split; [exact E|].
  destruct (find_navigation_menu_items_total menu_site example_url)
    as (_ & H & _).
  destruct (H _ E) as (_ & Hnd & _). exact Hnd.
Defined.

(** X11 on a site with enough text whose endpoint is out of quota. *)
Lemma extract_content_total_witness :
  exists text rest,
    extract_content ascii_only as_is busy_world example_url
    = (HttpGet example_url :: rest, inr (true, text))
    /\ http_gets rest = []
    /\ cleanup_calls rest = [long_text]
    /\ text = cleaning_error ++ quota_message.
Proof.
  destruct (extract_content_total ascii_only as_is busy_world example_url)
    as (success & text & rest & Hrun & Hgets & _ & _ & Hok).
  assert (Hs : success = true).
  { vm_compute in Hrun. inversion Hrun. reflexivity. }
  subst success. exists text, rest. split; [exact Hrun|].
  split; [exact Hgets|].
  destruct (Hok eq_refl) as (response & mc & Hg & Hm & _ & Hc & Ht).
  inversion Hg; subst response.
  vm_compute in Hm. inversion Hm; subst mc. clear Hm Hg.
  split.
  - rewrite Hc. vm_compute. reflexivity.
  - rewrite Ht. vm_compute. reflexivity.
Defined.

(** X21 on the example site. *)
Lemma no_content_error_unreachable_witness :
  errors_shown
    (trace (extract_pages as_is example_urljoin example_urlparse site_world
              (py "example.com") true 3)) = []
  /\ exists content rest,
       outcome (extract_pages as_is example_urljoin example_urlparse
                  site_world (py "example.com") true 3)
       = inr ((py "Home", content) :: rest).
Proof.
  destruct (no_content_error_unreachable as_is example_urljoin
              example_urlparse site_world (py "example.com") true 3)
    as [He Hhome].
  split; [exact He|].
  destruct (outcome (extract_pages as_is example_urljoin example_urlparse
                       site_world (py "example.com") true 3))
    as [e|all_pages_info] eqn:Hd.
  - vm_compute in Hd. discriminate.
  - destruct (Hhome all_pages_info eq_refl) as (content & rest & ->).
    exists content, rest. reflexivity.
Defined.
